(** * A shallow embedding of the py-slang evaluator

    The development follows the bundled evaluator [dist/py_stdlib.d.ts]
    (tokenizer, numeric core, CSE machine, built-ins, chunk driver) and the
    TypeScript sources under [src/].  JavaScript numbers are IEEE-754
    binary64 values ([spec_float] at precision 53), JavaScript bigints are
    [Z], objects used as dictionaries are [gmap]s, and the mutable frames of
    the environment chain live in a store indexed by addresses, so that a
    closure and the frame stack can alias the same frame. *)

From Stdlib Require Import ZArith Ascii Floats.SpecFloat DecimalString.
From stdpp Require Import gmap strings list.

Set Warnings "-register-all".

(** ** JavaScript numbers *)

Module JsNumber.

Local Open Scope Z_scope.

Definition prec : Z := 53.
Definition emax : Z := 1024.

Abbreviation float := spec_float.

Definition NaN : float := S754_nan.
Definition Infinity : float := S754_infinity false.
Definition zero : float := S754_zero false.

(** [Number(z)] for a bigint [z]: round to nearest, ties to even. *)
Definition of_Z (z : Z) : float := binary_normalize prec emax z 0 false.

Definition one : float := of_Z 1.

Definition add : float -> float -> float := SFadd prec emax.
Definition sub : float -> float -> float := SFsub prec emax.
Definition mul : float -> float -> float := SFmul prec emax.
Definition div : float -> float -> float := SFdiv prec emax.
Definition sqrt : float -> float := SFsqrt prec emax.
Definition neg : float -> float := SFopp.
Definition abs : float -> float := SFabs.

(** [x === y], [x < y], [x <= y] on numbers. *)
Definition eqb : float -> float -> bool := SFeqb.
Definition ltb : float -> float -> bool := SFltb.
Definition leb : float -> float -> bool := SFleb.

Definition is_nan (x : float) : bool :=
  match x with S754_nan => true | _ => false end.

Definition is_finite (x : float) : bool :=
  match x with S754_zero _ | S754_finite _ _ _ => true | _ => false end.

(** [Math.floor]. *)
Definition floor (x : float) : float :=
  match x with
  | S754_finite s m e =>
      if 0 <=? e then x else of_Z (cond_Zopp s (Z.pos m) / 2 ^ (- e))
  | _ => x
  end.

(** [Math.trunc]: the bits of the mantissa below the binary point are
    cleared. *)
Definition trunc (x : float) : float :=
  match x with
  | S754_finite s m e =>
      if 0 <=? e then x
      else
        let whole := Z.pos m - Z.pos m mod 2 ^ (- e) in
        if whole =? 0 then S754_zero s
        else S754_finite s (Z.to_pos whole) e
  | _ => x
  end.

(** [Math.sign]. *)
Definition sign (x : float) : float :=
  match x with
  | S754_finite s _ _ | S754_infinity s => if s then neg one else one
  | _ => x
  end.

(** [Number.isInteger]. *)
Definition isInteger (x : float) : bool :=
  match x with
  | S754_zero _ => true
  | S754_finite _ m e =>
      if 0 <=? e then true else Z.pos m mod 2 ^ (- e) =? 0
  | _ => false
  end.

(** [BigInt(x)] for a number [x]; [None] stands for the [RangeError] that
    the conversion raises on a number that is not an integer. *)
Definition to_BigInt (x : float) : option Z :=
  match x with
  | S754_zero _ => Some 0
  | S754_finite s m e =>
      if 0 <=? e then Some (cond_Zopp s (Z.pos m * 2 ^ e))
      else if Z.pos m mod 2 ^ (- e) =? 0
           then Some (cond_Zopp s (Z.pos m / 2 ^ (- e)))
           else None
  | _ => None
  end.

(** The remainder operator [n % d] on numbers (sign of the dividend). *)
Definition rem (n d : float) : float :=
  match n, d with
  | S754_nan, _ | _, S754_nan => NaN
  | S754_infinity _, _ => NaN
  | _, S754_zero _ => NaN
  | _, S754_infinity _ => n
  | S754_zero _, _ => n
  | S754_finite sn mn en, S754_finite _ md ed =>
      let e := Z.min en ed in
      let r := Z.rem (Z.pos mn * 2 ^ (en - e)) (Z.pos md * 2 ^ (ed - e)) in
      if r =? 0 then S754_zero sn
      else binary_normalize prec emax (cond_Zopp sn r) e false
  end.

(** The exact value of a finite number is [numerator / denominator]. *)
Definition numerator (x : float) : Z :=
  match x with
  | S754_finite s m e => cond_Zopp s (Z.pos m * 2 ^ Z.max e 0)
  | _ => 0
  end.

Definition denominator (x : float) : Z :=
  match x with
  | S754_finite _ _ e => 2 ^ Z.max (- e) 0
  | _ => 1
  end.

End JsNumber.

Abbreviation float := spec_float.

(** ** Tokens *)

Module TokenType.

Inductive t : Set :=
| ENDMARKER | NAME | NUMBER | BIGINT | STRING | NEWLINE | INDENT | DEDENT
| LPAR | RPAR | COLON | DOUBLECOLON | COMMA | PLUS | MINUS | BANG | STAR
| SLASH | VBAR | AMPER | LESS | GREATER | EQUAL | PERCENT | DOUBLEEQUAL
| NOTEQUAL | LESSEQUAL | GREATEREQUAL | DOUBLESTAR | COMPLEX
| AND | OR | FOR | WHILE | NONE | TRUE | FALSE | IS | NOT | ISNOT | PASS
| DEF | LAMBDA | FROM | DOUBLESLASH | BREAK | CONTINUE | RETURN | ASSERT
| IMPORT | GLOBAL | NONLOCAL | IF | ELSE | ELIF | IN | NOTIN
| RSQB | LSQB | ELLIPSIS | SEMI | DOT | LBRACE | RBRACE | TILDE
| CIRCUMFLEX | LEFTSHIFT | RIGHTSHIFT | PLUSEQUAL | MINEQUAL | STAREQUAL
| SLASHEQUAL | PERCENTEQUAL | AMPEREQUAL | VBAREQUAL | CIRCUMFLEXEQUAL
| LEFTSHIFTEQUAL | RIGHTSHIFTEQUAL | DOUBLESTAREQUAL | DOUBLESLASHEQUAL
| AT | ATEQUAL | RARROW | COLONEQUAL | OP | AWAIT | ASYNC | TYPE_IGNORE
| TYPE_COMMENT | YIELD | WITH | DEL | TRY | EXCEPT | FINALLY | RAISE.

(** The numeric value of each member of the enumeration. *)
Definition code (k : t) : nat :=
  match k with
  | ENDMARKER => 0 | NAME => 1 | NUMBER => 2 | BIGINT => 3 | STRING => 4
  | NEWLINE => 5 | INDENT => 6 | DEDENT => 7 | LPAR => 8 | RPAR => 9
  | COLON => 10 | DOUBLECOLON => 11 | COMMA => 12 | PLUS => 13
  | MINUS => 14 | BANG => 15 | STAR => 16 | SLASH => 17 | VBAR => 18
  | AMPER => 19 | LESS => 20 | GREATER => 21 | EQUAL => 22 | PERCENT => 23
  | DOUBLEEQUAL => 24 | NOTEQUAL => 25 | LESSEQUAL => 26
  | GREATEREQUAL => 27 | DOUBLESTAR => 28 | COMPLEX => 29 | AND => 30
  | OR => 31 | FOR => 32 | WHILE => 33 | NONE => 34 | TRUE => 35
  | FALSE => 36 | IS => 37 | NOT => 38 | ISNOT => 39 | PASS => 40
  | DEF => 41 | LAMBDA => 42 | FROM => 43 | DOUBLESLASH => 44 | BREAK => 45
  | CONTINUE => 46 | RETURN => 47 | ASSERT => 48 | IMPORT => 49
  | GLOBAL => 50 | NONLOCAL => 51 | IF => 52 | ELSE => 53 | ELIF => 54
  | IN => 55 | NOTIN => 56 | RSQB => 57 | LSQB => 58 | ELLIPSIS => 59
  | SEMI => 60 | DOT => 61 | LBRACE => 62 | RBRACE => 63 | TILDE => 64
  | CIRCUMFLEX => 65 | LEFTSHIFT => 66 | RIGHTSHIFT => 67 | PLUSEQUAL => 68
  | MINEQUAL => 69 | STAREQUAL => 70 | SLASHEQUAL => 71
  | PERCENTEQUAL => 72 | AMPEREQUAL => 73 | VBAREQUAL => 74
  | CIRCUMFLEXEQUAL => 75 | LEFTSHIFTEQUAL => 76 | RIGHTSHIFTEQUAL => 77
  | DOUBLESTAREQUAL => 78 | DOUBLESLASHEQUAL => 79 | AT => 80
  | ATEQUAL => 81 | RARROW => 82 | COLONEQUAL => 83 | OP => 84
  | AWAIT => 85 | ASYNC => 86 | TYPE_IGNORE => 87 | TYPE_COMMENT => 88
  | YIELD => 89 | WITH => 90 | DEL => 91 | TRY => 92 | EXCEPT => 93
  | FINALLY => 94 | RAISE => 95
  end.

Definition eqb (a b : t) : bool := Nat.eqb (code a) (code b).

End TokenType.

Module Token.
Record t : Type := mk {
  type : TokenType.t;
  lexeme : string;
  line : nat;
  col : nat;
  indexInSource : nat
}.
End Token.

(** ** Exceptions

    The runtime error classes of the evaluator, [new Error(message)], and the
    errors that the engine itself raises ([TypeError] on a call of something
    that is not a function or on a property of [undefined], [RangeError] on
    [BigInt] of a number that is not an integer, [SyntaxError] on [BigInt] of
    malformed text).  [FrontEndError] stands for the error classes of the
    tokenizer, the parser, the resolver and the module loader, by name. *)

Inductive Exception : Type :=
  | UnsupportedOperandTypeError (wrongType1 wrongType2 operand : string)
  | ZeroDivisionError
  | UnboundLocalError (name : string)
  | NameError (name : string)
  | JsError (message : string)
  | EngineTypeError
  | EngineRangeError
  | EngineSyntaxError
  | FrontEndError (name : string).

(** ** The host engine

    Functions of the JavaScript engine that the evaluator calls and whose
    results are either only approximately specified ([Math.pow], [Math.log],
    ...) or are conversions between numbers and text.  Everything else is
    defined in this file. *)

Record Host : Type := {
  Math_pow : float -> float -> float;
  Math_atan2 : float -> float -> float;
  Math_log : float -> float;
  Math_log10 : float -> float;
  Math_exp : float -> float;
  Math_cos : float -> float;
  Math_sin : float -> float;
  (** [x.toString()], [x.toExponential(digits)], [x.toFixed(digits)] *)
  Number_toString : float -> string;
  Number_toExponential : float -> option nat -> string;
  Number_toFixed : float -> nat -> string;
  (** [Number(s)] for a string [s] *)
  Number_ofString : string -> float;
  (** [a.localeCompare(b)] *)
  String_localeCompare : string -> string -> Z;
  (** the [message] of an exception other than [new Error(message)]: the
      snippet-and-caret text built from the source [code], or the engine's
      own wording *)
  Diagnostics_message : string -> Exception -> string
}.

(** ** Small string helpers *)

Definition chars (s : string) : list ascii := String.list_ascii_of_string s.
Definition text (l : list ascii) : string := String.string_of_list_ascii l.

(** [z.toString()] for a bigint and [String(n)] for a small integer. *)
Definition BigInt_toString (z : Z) : string :=
  NilZero.string_of_int (Z.to_int z).

Definition nat_toString (n : nat) : string := BigInt_toString (Z.of_nat n).

Definition is_digit (c : ascii) : bool :=
  (48 <=? nat_of_ascii c)%nat && (nat_of_ascii c <=? 57)%nat.

Definition digit_value (c : ascii) : Z := Z.of_nat (nat_of_ascii c) - 48.

Fixpoint take_while {A} (p : A -> bool) (l : list A) : list A :=
  match l with
  | x :: l' => if p x then x :: take_while p l' else []
  | [] => []
  end.

Fixpoint drop_while {A} (p : A -> bool) (l : list A) : list A :=
  match l with
  | x :: l' => if p x then drop_while p l' else l
  | [] => []
  end.

(** ** Complex numbers *)

Module PyComplexNumber.
Record t : Type := mk { real : float; imag : float }.
End PyComplexNumber.

(** ** Abstract syntax

    The classes of [ExprNS] and [StmtNS] without their [startToken] and
    [endToken], which only diagnostics read.  [NoneExpr], [VariableExpr] and
    [GlobalStmt] are the classes [None], [Variable] and [Global]. *)

Inductive LiteralValue : Type :=
  | LitNumber (value : float)
  | LitBoolean (value : bool)
  | LitString (value : string)
  | LitNull.

Inductive Expr : Type :=
  | NoneExpr
  | BigIntLiteral (value : string)
  | Complex (value : PyComplexNumber.t)
  | Binary (left : Expr) (operator : Token.t) (right : Expr)
  | Compare (left : Expr) (operator : Token.t) (right : Expr)
  | BoolOp (left : Expr) (operator : Token.t) (right : Expr)
  | Grouping (expression : Expr)
  | Literal (value : LiteralValue)
  | Unary (operator : Token.t) (right : Expr)
  | Ternary (predicate consequent alternative : Expr)
  | Lambda (parameters : list Token.t) (body : Expr)
  | MultiLambda (parameters : list Token.t) (body : list Stmt)
      (varDecls : list Token.t)
  | VariableExpr (name : Token.t)
  | Call (callee : Expr) (args : list Expr)
with Stmt : Type :=
  | Indent
  | Dedent
  | Pass
  | Assign (name : Token.t) (value : Expr)
  | AnnAssign (name : Token.t) (value : Expr) (ann : Expr)
  | Break
  | Continue
  | Return (value : option Expr)
  | FromImport (module : Token.t) (names : list Token.t)
  | GlobalStmt (name : Token.t)
  | NonLocal (name : Token.t)
  | Assert (value : Expr)
  | If (condition : Expr) (body : list Stmt) (elseBlock : ElseBlock)
  | While (condition : Expr) (body : list Stmt)
  | For (target : Token.t) (iter : Expr) (body : list Stmt)
  | FunctionDef (name : Token.t) (parameters : list Token.t)
      (body : list Stmt) (varDecls : list Token.t)
  | SimpleExpr (expression : Expr)
  | FileInput (statements : list Stmt) (varDecls : list Token.t)
with ElseBlock : Type :=
  (** [elseBlock] is [null], an array of statements, or a single node *)
  | ElseNull
  | ElseArray (body : list Stmt)
  | ElseNode (node : Stmt).

Inductive Node : Type :=
  | ExprNode (e : Expr)
  | StmtNode (s : Stmt).

(** [node.constructor.name] *)
Definition Expr_constructor_name (e : Expr) : string :=
  match e with
  | NoneExpr => "None" | BigIntLiteral _ => "BigIntLiteral"
  | Complex _ => "Complex" | Binary _ _ _ => "Binary"
  | Compare _ _ _ => "Compare" | BoolOp _ _ _ => "BoolOp"
  | Grouping _ => "Grouping" | Literal _ => "Literal" | Unary _ _ => "Unary"
  | Ternary _ _ _ => "Ternary" | Lambda _ _ => "Lambda"
  | MultiLambda _ _ _ => "MultiLambda" | VariableExpr _ => "Variable"
  | Call _ _ => "Call"
  end.

Definition Stmt_constructor_name (s : Stmt) : string :=
  match s with
  | Indent => "Indent" | Dedent => "Dedent" | Pass => "Pass"
  | Assign _ _ => "Assign" | AnnAssign _ _ _ => "AnnAssign"
  | Break => "Break" | Continue => "Continue" | Return _ => "Return"
  | FromImport _ _ => "FromImport" | GlobalStmt _ => "Global"
  | NonLocal _ => "NonLocal" | Assert _ => "Assert" | If _ _ _ => "If"
  | While _ _ => "While" | For _ _ _ => "For"
  | FunctionDef _ _ _ _ => "FunctionDef" | SimpleExpr _ => "SimpleExpr"
  | FileInput _ _ => "FileInput"
  end.

Definition constructor_name (n : Node) : string :=
  match n with
  | ExprNode e => Expr_constructor_name e
  | StmtNode s => Stmt_constructor_name s
  end.

(** ** Values *)

(** What a host function receives and returns.  [JsObject] and [JsFunction]
    stand for any object and any function: marshalling only looks at their
    [typeof]. *)
Inductive JsValue : Type :=
  | JsBigInt (z : Z)
  | JsNumber (x : float)
  | JsString (s : string)
  | JsBoolean (b : bool)
  | JsNull
  | JsUndefined
  | JsObject
  | JsFunction.

Inductive HostResult : Type :=
  | HostReturn (v : JsValue)
  | HostThrow (e : Exception).

(** Frames are referred to by their address in the store of the context. *)
Definition addr : Type := nat.

(** The node of a closure: a [FunctionDef] statement or a [Lambda]
    expression. *)
Inductive FunctionNode : Type :=
  | FunctionDefNode (name : Token.t) (parameters : list Token.t)
      (body : list Stmt) (varDecls : list Token.t)
  | LambdaNode (parameters : list Token.t) (body : Expr).

Module PyClosure.
Record t : Type := mk {
  id : string;
  node : FunctionNode;
  environment : option addr;
  predefined : bool;
  localVariables : gset string
}.
End PyClosure.

Module JsClosure.
Record t : Type := mk {
  id : string;
  func : list JsValue -> HostResult
}.
End JsClosure.

(** The entries of the [builtIns] map. *)
Inductive BuiltIn : Type :=
  | BuiltIn_print
  | BuiltIn__int.

(** The tagged objects [{ type, value }] of the stash, the two closure
    classes, the functions of [builtIns] (which [pyGetVariable] returns as
    they are) and the plain objects that [preloadModules] binds to module
    names.  [VJsUndefined] is the JavaScript value [undefined]: what [pop]
    returns on an empty stack and what a call with too few arguments binds
    to the remaining parameters. *)
Inductive Value : Type :=
  | VJsUndefined
  | VUndefined
  | VBool (value : bool)
  | VBigint (value : Z)
  | VNumber (value : float)
  | VString (value : string)
  | VComplex (value : PyComplexNumber.t)
  | VError (message : string)
  | VPyClosure (c : PyClosure.t)
  | VJsClosure (c : JsClosure.t)
  | VBuiltIn (f : BuiltIn)
  | VModule (members : list (string * JsClosure.t)).

(** The [type] property of a value, when it has one. *)
Inductive TypeTag : Type :=
  | T_undefined | T_bool | T_bigint | T_number | T_string | T_complex
  | T_error | T_PyClosure | T_JsClosure
  | T_absent.

Definition type_of (v : Value) : TypeTag :=
  match v with
  | VUndefined => T_undefined | VBool _ => T_bool | VBigint _ => T_bigint
  | VNumber _ => T_number | VString _ => T_string | VComplex _ => T_complex
  | VError _ => T_error | VPyClosure _ => T_PyClosure
  | VJsClosure _ => T_JsClosure
  | VBuiltIn _ | VModule _ | VJsUndefined => T_absent
  end.

(** [if (v)]: every value but [undefined] is an object or a function. *)
Definition truthy (v : Value) : bool :=
  match v with VJsUndefined => false | _ => true end.

(** The text of [v.type] in a template literal or as an argument. *)
Definition type_string (v : Value) : string :=
  match type_of v with
  | T_undefined | T_absent => "undefined"
  | T_bool => "bool" | T_bigint => "bigint" | T_number => "number"
  | T_string => "string" | T_complex => "complex" | T_error => "error"
  | T_PyClosure => "PyClosure" | T_JsClosure => "JsClosure"
  end.

Module PyEnvironment.
Record t : Type := mk {
  name : string;
  tail : option addr;
  head : gmap string Value;
  id : string;
  callExpression : option Node;
  closure : option PyClosure.t
}.
End PyEnvironment.

(** How a call of evaluator code ends: normally, by [pyHandleRuntimeError]
    (the error is appended to [context.errors] and then thrown), or by a
    plain [throw]. *)
Inductive Completion (A : Type) : Type :=
  | Normal (a : A)
  | Handled (e : Exception)
  | Thrown (e : Exception).

Arguments Normal {A} a.
Arguments Handled {A} e.
Arguments Thrown {A} e.

(** The [value] property of a tagged value; [P_undefined] when there is
    none. *)
Inductive Payload : Type :=
  | P_bigint (z : Z)
  | P_number (x : float)
  | P_boolean (b : bool)
  | P_string (s : string)
  | P_complex (c : PyComplexNumber.t)
  | P_undefined.

Definition value_of (v : Value) : Payload :=
  match v with
  | VBool b => P_boolean b
  | VBigint z => P_bigint z
  | VNumber x => P_number x
  | VString s => P_string s
  | VComplex c => P_complex c
  | _ => P_undefined
  end.

(** ** The numeric core and the operators *)

Section Operators.

Context (host : Host).

Local Open Scope Z_scope.

(** [Number(p)] *)
Definition ToNumber (p : Payload) : float :=
  match p with
  | P_bigint z => JsNumber.of_Z z
  | P_number x => x
  | P_boolean b => if b then JsNumber.one else JsNumber.zero
  | P_string s => Number_ofString host s
  | P_complex _ | P_undefined => JsNumber.NaN
  end.

(** [String(p)] for the payloads that reach [fromString]. *)
Definition ToString (p : Payload) : string :=
  match p with
  | P_bigint z => BigInt_toString z
  | P_number x => Number_toString host x
  | P_boolean b => if b then "true" else "false"
  | P_string s => s
  | P_complex _ => "[object Object]"
  | P_undefined => "undefined"
  end.

Definition typeTranslator (t : TypeTag) : string :=
  match t with
  | T_bigint => "int"
  | T_number => "float"
  | T_bool => "bool"
  | T_string => "str"
  | T_complex => "complex"
  | T_undefined => "NoneType"
  | _ => "unknown"
  end.

Definition operatorTranslator (operator : TokenType.t) : string :=
  match operator with
  | TokenType.PLUS => "+"
  | TokenType.MINUS => "-"
  | TokenType.STAR => "*"
  | TokenType.SLASH => "/"
  | TokenType.DOUBLESLASH => "//"
  | TokenType.PERCENT => "%"
  | TokenType.DOUBLESTAR => "**"
  | TokenType.LESS => "<"
  | TokenType.GREATER => ">"
  | TokenType.DOUBLEEQUAL => "=="
  | TokenType.NOTEQUAL => "!="
  | TokenType.LESSEQUAL => "<="
  | TokenType.GREATEREQUAL => ">="
  | TokenType.NOT => "not"
  | TokenType.AND => "and"
  | TokenType.OR => "or"
  | _ => nat_toString (TokenType.code operator)
  end.

(** [pythonMod] on two bigints and on two numbers.  The caller has
    excluded a zero divisor, on which the bigint [%] raises. *)
Definition pythonMod_bigint (a b : Z) : Z :=
  let mod_ := Z.rem a b in
  if ((mod_ <? 0) && (0 <? b)) || ((0 <? mod_) && (b <? 0))
  then mod_ + b
  else mod_.

Definition pythonMod_number (a b : float) : float :=
  let mod_ := JsNumber.rem a b in
  if (JsNumber.ltb mod_ JsNumber.zero && JsNumber.ltb JsNumber.zero b)
     || (JsNumber.ltb JsNumber.zero mod_ && JsNumber.ltb b JsNumber.zero)
  then JsNumber.add mod_ b
  else mod_.

(** [isFalsy] on a value other than [undefined], on which the read of
    [value.type] raises; the callers below check that first. *)
Definition isFalsy (value : Value) : bool :=
  match value with
  | VBigint z => z =? 0
  | VNumber x => JsNumber.eqb x JsNumber.zero
  | VBool b => negb b
  | VString s => bool_decide (s = "")
  | VComplex c =>
      JsNumber.eqb (PyComplexNumber.real c) JsNumber.zero
      && JsNumber.eqb (PyComplexNumber.imag c) JsNumber.zero
  | VUndefined => true
  | _ => false
  end.

Definition evaluateBoolExpression (operator : TokenType.t)
    (left right : Value) : Completion Value :=
  match operator with
  | TokenType.OR =>
      if truthy left
      then Normal (if negb (isFalsy left) then left else right)
      else Thrown EngineTypeError
  | TokenType.AND =>
      if truthy left
      then Normal (if isFalsy left then left else right)
      else Thrown EngineTypeError
  | _ =>
      if truthy left && truthy right
      then Handled (UnsupportedOperandTypeError
                      (typeTranslator (type_of left))
                      (typeTranslator (type_of right))
                      (operatorTranslator operator))
      else Thrown EngineTypeError
  end.

Definition evaluateUnaryExpression (operator : TokenType.t)
    (value : Value) : Completion Value :=
  match operator with
  | TokenType.NOT =>
      if truthy value then Normal (VBool (isFalsy value))
      else Thrown EngineTypeError
  | TokenType.MINUS =>
      match value with
      | VJsUndefined => Thrown EngineTypeError
      | VNumber x => Normal (VNumber (JsNumber.neg x))
      | VBigint z => Normal (VBigint (- z))
      | VBool b => Normal (VBigint (if b then -1 else 0))
      | VComplex c =>
          Normal (VComplex
                    (PyComplexNumber.mk
                       (JsNumber.neg (PyComplexNumber.real c))
                       (JsNumber.neg (PyComplexNumber.imag c))))
      | _ =>
          Handled (UnsupportedOperandTypeError (type_string value) ""
                     (operatorTranslator operator))
      end
  | TokenType.PLUS =>
      match value with
      | VJsUndefined => Thrown EngineTypeError
      | VNumber _ | VBigint _ | VComplex _ => Normal value
      | VBool b => Normal (VBigint (if b then 1 else 0))
      | _ =>
          Handled (UnsupportedOperandTypeError (type_string value) ""
                     (operatorTranslator operator))
      end
  | _ => Normal (VError "Unreachable in evaluateUnaryExpression")
  end.

(** *** [PyComplexNumber] *)

Definition is_j (c : ascii) : bool :=
  bool_decide (c = "j"%char) || bool_decide (c = "J"%char).

(** [str.substring(0, str.length - 1)] *)
Definition drop_last (s : string) : string :=
  text (take (length (chars s) - 1)%nat (chars s)).

Definition ends_with_j (s : string) : bool :=
  match last (chars s) with Some c => is_j c | None => false end.

Definition invalid_complex_string (s : string) : Exception :=
  JsError ("Invalid complex string: " +:+ s).

(** When the text contains a [j] that is not its last character, the
    pattern of the last case, which admits a [j] at the very end only,
    does not match. *)
Definition fromString (str : Payload) : Completion PyComplexNumber.t :=
  let s := ToString str in
  if negb (existsb is_j (chars s)) then
    let realVal := ToNumber str in
    if JsNumber.is_nan realVal then Thrown (invalid_complex_string s)
    else Normal (PyComplexNumber.mk realVal JsNumber.zero)
  else if ends_with_j s then
    let numericPart := drop_last s in
    if bool_decide (numericPart = "") || bool_decide (numericPart = "+")
    then Normal (PyComplexNumber.mk JsNumber.zero JsNumber.one)
    else if bool_decide (numericPart = "-")
    then Normal (PyComplexNumber.mk JsNumber.zero
                   (JsNumber.neg JsNumber.one))
    else
      let imagVal := Number_ofString host numericPart in
      if JsNumber.is_nan imagVal then Thrown (invalid_complex_string s)
      else Normal (PyComplexNumber.mk JsNumber.zero imagVal)
  else Thrown (invalid_complex_string s).

Definition fromValue (value : Payload) : Completion PyComplexNumber.t :=
  match value with
  | P_complex c =>
      Normal (PyComplexNumber.mk (PyComplexNumber.real c)
                (PyComplexNumber.imag c))
  | P_number x => Normal (PyComplexNumber.mk x JsNumber.zero)
  | P_bigint z => Normal (PyComplexNumber.mk (JsNumber.of_Z z) JsNumber.zero)
  | _ => fromString value
  end.

Section ComplexArithmetic.

Import JsNumber PyComplexNumber.

Definition complex_add (x y : PyComplexNumber.t) : PyComplexNumber.t :=
  mk (add (real x) (real y)) (add (imag x) (imag y)).

Definition complex_sub (x y : PyComplexNumber.t) : PyComplexNumber.t :=
  mk (sub (real x) (real y)) (sub (imag x) (imag y)).

Definition complex_mul (x y : PyComplexNumber.t) : PyComplexNumber.t :=
  mk (sub (mul (real x) (real y)) (mul (imag x) (imag y)))
     (add (mul (real x) (imag y)) (mul (imag x) (real y))).

Definition complex_div (x y : PyComplexNumber.t)
    : Completion PyComplexNumber.t :=
  let denominator :=
    add (mul (real y) (real y)) (mul (imag y) (imag y)) in
  if eqb denominator zero
  then Thrown (JsError "Division by zero in complex number.")
  else
    let a := real x in
    let b := imag x in
    let c := real y in
    let d := imag y in
    if ltb (abs d) (abs c) then
      let ratio := div d c in
      let denom := add c (mul d ratio) in
      Normal (mk (div (add a (mul b ratio)) denom)
                 (div (sub b (mul a ratio)) denom))
    else
      let ratio := div c d in
      let denom := add d (mul c ratio) in
      Normal (mk (div (add (mul a ratio) b) denom)
                 (div (sub (mul b ratio) a) denom)).

Definition complex_pow (x y : PyComplexNumber.t)
    : Completion PyComplexNumber.t :=
  let a := real x in
  let b := imag x in
  let A := real y in
  let B := imag y in
  let r := sqrt (add (mul a a) (mul b b)) in
  let theta := Math_atan2 host b a in
  if eqb r zero then
    if ltb A zero || negb (eqb B zero)
    then Thrown
           (JsError "0 cannot be raised to a negative or complex power")
    else Normal (mk zero zero)
  else
    let logR := Math_log host r in
    let realExpPart := sub (mul A logR) (mul B theta) in
    let imagExpPart := add (mul B logR) (mul A theta) in
    let expOfReal := Math_exp host realExpPart in
    Normal (mk (mul expOfReal (Math_cos host imagExpPart))
               (mul expOfReal (Math_sin host imagExpPart))).

Definition complex_equals (x y : PyComplexNumber.t) : bool :=
  eqb (real x) (real y) && eqb (imag x) (imag y).

(** The literals [1e16] and [1e-4]. *)
Definition f_1e16 : float := of_Z (10 ^ 16).
Definition f_1em4 : float := div one (of_Z 10000).

(** [s.replace(/e([+-])(\d)$/, 'e$10$2')]: a one-digit exponent at the
    end of the text gets a leading zero. *)
Definition pad_exponent (s : string) : string :=
  match rev (chars s) with
  | d :: sg :: e :: front =>
      if is_digit d
         && (bool_decide (sg = "+"%char) || bool_decide (sg = "-"%char))
         && bool_decide (e = "e"%char)
      then text (rev front ++ [e; sg; "0"%char; d])
      else s
  | _ => s
  end.

Definition out_of_plain_range (num : float) : bool :=
  leb f_1e16 (abs num) || (negb (eqb num zero) && ltb (abs num) f_1em4).

Definition toPythonComplexFloat (num : float) : string :=
  if eqb num Infinity then "inf"
  else if eqb num (neg Infinity) then "-inf"
  else if out_of_plain_range num
  then pad_exponent (Number_toExponential host num None)
  else Number_toString host num.

Definition complex_toString (x : PyComplexNumber.t) : string :=
  if eqb (real x) zero then Number_toString host (imag x) +:+ "j"
  else
    let sign := if leb zero (imag x) then "+" else "" in
    "(" +:+ toPythonComplexFloat (real x) +:+ sign
        +:+ toPythonComplexFloat (imag x) +:+ "j)".

End ComplexArithmetic.

(** *** Comparison of integers with floats *)

Definition parse_digits (ds : list ascii) : Z :=
  fold_left (fun acc d => 10 * acc + digit_value d) ds 0.

Definition is_mantissa_char (c : ascii) : bool :=
  is_digit c || bool_decide (c = "."%char).

(** [s.match(/^([\d.]+)e([+\-]\d+)$/)]: the mantissa text and the value of
    [parseInt] on the exponent text. *)
Definition match_exponential (s : string) : option (list ascii * Z) :=
  let mantissa := take_while is_mantissa_char (chars s) in
  match mantissa, drop_while is_mantissa_char (chars s) with
  | _ :: _, e :: sg :: d :: ds =>
      if bool_decide (e = "e"%char)
         && (bool_decide (sg = "+"%char) || bool_decide (sg = "-"%char))
         && forallb is_digit (d :: ds)
      then Some (mantissa,
                 if bool_decide (sg = "-"%char)
                 then - parse_digits (d :: ds)
                 else parse_digits (d :: ds))
      else None
  | _, _ => None
  end.

(** [l.replace('.', '')]: the first dot is removed. *)
Fixpoint remove_first_dot (l : list ascii) : list ascii :=
  match l with
  | [] => []
  | c :: l' => if bool_decide (c = "."%char) then l'
               else c :: remove_first_dot l'
  end.

Definition approximateBigIntString (num : float) (precision : nat)
    : string :=
  let s := Number_toExponential host num (Some precision) in
  match match_exponential s with
  | None => Number_toString host (JsNumber.floor num)
  | Some (mantissa, exp) =>
      let mantissaStr := remove_first_dot mantissa in
      let len := Z.of_nat (length mantissaStr) in
      let integerLen := 1 + exp in
      if integerLen <=? 0 then "0"
      else if len <? integerLen
      then text (mantissaStr
                   ++ replicate (Z.to_nat (integerLen - len)) "0"%char)
      else text (take (Z.to_nat integerLen) mantissaStr)
  end.

(** [s.replace(/^0+/, '')] *)
Definition trim_leading_zeros (s : string) : list ascii :=
  drop_while (fun c => bool_decide (c = "0"%char)) (chars s).

(** The part of [pyCompare] that follows the assignment of [int_val] and
    [float_val]. *)
Definition pyCompare_mixed (int_val : Z) (float_val : float) : Z :=
  if JsNumber.eqb float_val JsNumber.Infinity then -1
  else if JsNumber.eqb float_val (JsNumber.neg JsNumber.Infinity) then 1
  else
    let signInt := Z.sgn int_val in
    let signFlt := JsNumber.sign float_val in
    if JsNumber.ltb (JsNumber.of_Z signInt) signFlt then -1
    else if JsNumber.ltb signFlt (JsNumber.of_Z signInt) then 1
    else if (signInt =? 0) && JsNumber.eqb signFlt JsNumber.zero then 0
    else
      let absInt := Z.abs int_val in
      if absInt <=? 9007199254740991 then
        let diff := JsNumber.sub (JsNumber.of_Z int_val) float_val in
        if JsNumber.eqb diff JsNumber.zero then 0
        else if JsNumber.ltb diff JsNumber.zero then -1 else 1
      else if JsNumber.eqb float_val JsNumber.zero then signInt
      else
        let absFlt := JsNumber.abs float_val in
        let exponent := JsNumber.floor (Math_log10 host absFlt) in
        let intStr := BigInt_toString absInt in
        let intDigits := JsNumber.of_Z (Z.of_nat (length (chars intStr))) in
        let integerPartLen := JsNumber.add exponent JsNumber.one in
        if JsNumber.ltb integerPartLen intDigits
        then (if 0 <? signInt then 1 else -1)
        else if JsNumber.ltb intDigits integerPartLen
        then (if 0 <? signInt then -1 else 1)
        else
          let floatApproxStr := approximateBigIntString absFlt 30 in
          let aTrim := trim_leading_zeros intStr in
          let bTrim := trim_leading_zeros floatApproxStr in
          if (length bTrim <? length aTrim)%nat
          then (if 0 <? signInt then 1 else -1)
          else if (length aTrim <? length bTrim)%nat
          then (if 0 <? signInt then -1 else 1)
          else
            let cmp := String_localeCompare host (text aTrim) (text bTrim) in
            if cmp =? 0 then 0
            else if 0 <? cmp
                 then (if 0 <? signInt then 1 else -1)
                 else (if 0 <? signInt then -1 else 1).

Definition pyCompare (val1 val2 : Value) : Z :=
  match val1, val2 with
  | VBigint a, VBigint b =>
      if a <? b then -1 else if b <? a then 1 else 0
  | VNumber a, VNumber b =>
      if JsNumber.ltb a b then -1 else if JsNumber.ltb b a then 1 else 0
  | VBigint int_val, VNumber float_val => pyCompare_mixed int_val float_val
  | VNumber float_val, VBigint int_val =>
      - pyCompare_mixed int_val float_val
  | _, _ => 0
  end.

(** *** Binary expressions *)

Definition Completion_bind {A B} (c : Completion A)
    (k : A -> Completion B) : Completion B :=
  match c with
  | Normal a => k a
  | Handled e => Handled e
  | Thrown e => Thrown e
  end.

Definition unsupported (operator : TokenType.t) (left right : Value)
    : Exception :=
  UnsupportedOperandTypeError (type_string left) (type_string right)
    (operatorTranslator operator).

Definition TypeTag_eqb (a b : TypeTag) : bool :=
  match a, b with
  | T_undefined, T_undefined | T_bool, T_bool | T_bigint, T_bigint
  | T_number, T_number | T_string, T_string | T_complex, T_complex
  | T_error, T_error | T_PyClosure, T_PyClosure
  | T_JsClosure, T_JsClosure | T_absent, T_absent => true
  | _, _ => false
  end.

Definition is_arithmetic (operator : TokenType.t) : bool :=
  match operator with
  | TokenType.PLUS | TokenType.MINUS | TokenType.STAR | TokenType.SLASH
  | TokenType.DOUBLESLASH | TokenType.PERCENT | TokenType.DOUBLESTAR => true
  | _ => false
  end.

Definition is_comparison (operator : TokenType.t) : bool :=
  match operator with
  | TokenType.DOUBLEEQUAL | TokenType.NOTEQUAL | TokenType.LESS
  | TokenType.LESSEQUAL | TokenType.GREATER | TokenType.GREATEREQUAL => true
  | _ => false
  end.

Definition todo_error : Value := VError "todo error".

(** The branch for two complex operands. *)
Definition binary_complex (operator : TokenType.t) (left right : Value)
    : Completion Value :=
  match type_of right with
  | T_complex | T_number | T_bigint | T_bool =>
      Completion_bind (fromValue (value_of left)) (fun leftComplex =>
      Completion_bind (fromValue (value_of right)) (fun rightComplex =>
        match operator with
        | TokenType.PLUS =>
            Normal (VComplex (complex_add leftComplex rightComplex))
        | TokenType.MINUS =>
            Normal (VComplex (complex_sub leftComplex rightComplex))
        | TokenType.STAR =>
            Normal (VComplex (complex_mul leftComplex rightComplex))
        | TokenType.SLASH =>
            Completion_bind (complex_div leftComplex rightComplex)
              (fun result => Normal (VComplex result))
        | TokenType.DOUBLESTAR =>
            Completion_bind (complex_pow leftComplex rightComplex)
              (fun result => Normal (VComplex result))
        | TokenType.DOUBLEEQUAL =>
            Normal (VBool (complex_equals leftComplex rightComplex))
        | TokenType.NOTEQUAL =>
            Normal (VBool (negb (complex_equals leftComplex rightComplex)))
        | _ => Handled (unsupported operator left right)
        end))
  | _ => Handled (unsupported operator left right)
  end.

(** The branch for [None]. *)
Definition binary_undefined (operator : TokenType.t) (left right : Value)
    : Completion Value :=
  match operator with
  | TokenType.DOUBLEEQUAL =>
      Normal (VBool (TypeTag_eqb (type_of left) (type_of right)))
  | TokenType.NOTEQUAL =>
      Normal (VBool (negb (TypeTag_eqb (type_of left) (type_of right))))
  | _ => Handled (unsupported operator left right)
  end.

(** The branch for strings. *)
Definition binary_string (operator : TokenType.t) (left right : Value)
    : Completion Value :=
  match left, right with
  | VString l, VString r =>
      match operator with
      | TokenType.PLUS => Normal (VString (l +:+ r))
      | TokenType.DOUBLEEQUAL => Normal (VBool (String.eqb l r))
      | TokenType.NOTEQUAL => Normal (VBool (negb (String.eqb l r)))
      | TokenType.LESS => Normal (VBool (String.ltb l r))
      | TokenType.LESSEQUAL => Normal (VBool (String.leb l r))
      | TokenType.GREATER => Normal (VBool (String.ltb r l))
      | TokenType.GREATEREQUAL => Normal (VBool (String.leb r l))
      | _ => Handled (unsupported operator left right)
      end
  | _, _ => Handled (unsupported operator left right)
  end.

(** The inner [switch] when one of the coerced types is ['number']. *)
Definition arithmetic_number (operator : TokenType.t) (l r : float)
    : Completion Value :=
  match operator with
  | TokenType.PLUS => Normal (VNumber (JsNumber.add l r))
  | TokenType.MINUS => Normal (VNumber (JsNumber.sub l r))
  | TokenType.STAR => Normal (VNumber (JsNumber.mul l r))
  | TokenType.SLASH =>
      if JsNumber.eqb r JsNumber.zero then Handled ZeroDivisionError
      else Normal (VNumber (JsNumber.div l r))
  | TokenType.DOUBLESLASH =>
      if JsNumber.eqb r JsNumber.zero then Handled ZeroDivisionError
      else Normal (VNumber (JsNumber.floor (JsNumber.div l r)))
  | TokenType.PERCENT =>
      if JsNumber.eqb r JsNumber.zero then Handled ZeroDivisionError
      else Normal (VNumber (pythonMod_number l r))
  | TokenType.DOUBLESTAR =>
      if JsNumber.eqb l JsNumber.zero && JsNumber.ltb r JsNumber.zero
      then Handled ZeroDivisionError
      else Normal (VNumber (Math_pow host l r))
  | _ => Normal todo_error
  end.

(** The inner [switch] when both coerced types are ['bigint']. *)
Definition arithmetic_bigint (operator : TokenType.t) (l r : Z)
    : Completion Value :=
  match operator with
  | TokenType.PLUS => Normal (VBigint (l + r))
  | TokenType.MINUS => Normal (VBigint (l - r))
  | TokenType.STAR => Normal (VBigint (l * r))
  | TokenType.SLASH =>
      if r =? 0 then Handled ZeroDivisionError
      else Normal (VNumber
                     (JsNumber.div (JsNumber.of_Z l) (JsNumber.of_Z r)))
  | TokenType.DOUBLESLASH =>
      if r =? 0 then Handled ZeroDivisionError
      else Normal (VBigint (Z.quot (l - pythonMod_bigint l r) r))
  | TokenType.PERCENT =>
      if r =? 0 then Handled ZeroDivisionError
      else Normal (VBigint (pythonMod_bigint l r))
  | TokenType.DOUBLESTAR =>
      if (l =? 0) && (r <? 0) then Handled ZeroDivisionError
      else if r <? 0
      then Normal (VNumber
                     (Math_pow host (JsNumber.of_Z l) (JsNumber.of_Z r)))
      else Normal (VBigint (l ^ r))
  | _ => Normal todo_error
  end.

(** The inner [switch] of the comparison operators on [cmp]. *)
Definition comparison (operator : TokenType.t) (cmp : Z) : Value :=
  match operator with
  | TokenType.DOUBLEEQUAL => VBool (cmp =? 0)
  | TokenType.NOTEQUAL => VBool (negb (cmp =? 0))
  | TokenType.LESS => VBool (cmp <? 0)
  | TokenType.LESSEQUAL => VBool (cmp <=? 0)
  | TokenType.GREATER => VBool (0 <? cmp)
  | TokenType.GREATEREQUAL => VBool (0 <=? cmp)
  | _ => VError "Unreachable in evaluateBinaryExpression - comparison"
  end.

(** [leftNum]/[rightNum] and [leftType]/[rightType]: a boolean becomes the
    number 1 or 0 with type ['number']. *)
Definition coerced_num (v : Value) : Payload :=
  match v with
  | VBool b => P_number (if b then JsNumber.one else JsNumber.zero)
  | _ => value_of v
  end.

Definition coerced_type (v : Value) : TypeTag :=
  match type_of v with
  | T_bool => T_number
  | t => t
  end.

Definition binary_numeric (operator : TokenType.t) (left right : Value)
    : Completion Value :=
  let leftNum := coerced_num left in
  let rightNum := coerced_num right in
  let leftType := coerced_type left in
  let rightType := coerced_type right in
  if is_arithmetic operator then
    if TypeTag_eqb leftType T_number || TypeTag_eqb rightType T_number
    then arithmetic_number operator (ToNumber leftNum) (ToNumber rightNum)
    else
      match leftNum, rightNum with
      | P_bigint l, P_bigint r => arithmetic_bigint operator l r
      | _, _ => Normal todo_error
      end
  else if is_comparison operator
  then Normal (comparison operator (pyCompare left right))
  else Normal todo_error.

Definition has_type (t : TypeTag) (left right : Value) : bool :=
  TypeTag_eqb (type_of left) t || TypeTag_eqb (type_of right) t.

Definition evaluateBinaryExpression (operator : TokenType.t)
    (left right : Value) : Completion Value :=
  if negb (truthy left && truthy right) then Thrown EngineTypeError
  else if has_type T_complex left right
  then binary_complex operator left right
  else if has_type T_undefined left right
  then binary_undefined operator left right
  else if has_type T_string left right
  then binary_string operator left right
  else binary_numeric operator left right.

End Operators.

(** ** Marshalling between the interpreter and host functions *)

Definition typeof (v : JsValue) : string :=
  match v with
  | JsBigInt _ => "bigint"
  | JsNumber _ => "number"
  | JsString _ => "string"
  | JsBoolean _ => "boolean"
  | JsUndefined => "undefined"
  | JsNull | JsObject => "object"
  | JsFunction => "function"
  end.

Definition marshalToPy (value : JsValue) : Completion Value :=
  match value with
  | JsBigInt z => Normal (VBigint z)
  | JsNumber x => Normal (VNumber x)
  | JsString s => Normal (VString s)
  | JsBoolean b => Normal (VBool b)
  | JsNull | JsUndefined => Normal VUndefined
  | _ =>
      Thrown (JsError ("Marshalling of Javascript type '" +:+ typeof value
                         +:+ " is not implemented."))
  end.

(** An interpreter value seen as a JavaScript value: an object, or a
    function for an entry of [builtIns]. *)
Definition as_JsValue (v : Value) : JsValue :=
  match v with
  | VJsUndefined => JsUndefined
  | VBuiltIn _ => JsFunction
  | _ => JsObject
  end.

Definition unmarshalFromPy (value : Value) : Completion JsValue :=
  match value with
  | VJsUndefined | VBuiltIn _ | VModule _ => Normal (as_JsValue value)
  | VBigint z => Normal (JsBigInt z)
  | VNumber x => Normal (JsNumber x)
  | VString s => Normal (JsString s)
  | VBool b => Normal (JsBoolean b)
  | VComplex _ =>
      Thrown (JsError
                "Passing complex number to external functions is not supported.")
  | _ =>
      Thrown (JsError ("Unmarshalling of py-slang type '" +:+ type_string value
                         +:+ "' is not supported for external functions."))
  end.

(** [args.map(unmarshalFromPy)] *)
Fixpoint unmarshal_all (args : list Value) : Completion (list JsValue) :=
  match args with
  | [] => Normal []
  | v :: rest =>
      Completion_bind (unmarshalFromPy v) (fun j =>
      Completion_bind (unmarshal_all rest) (fun js => Normal (j :: js)))
  end.

(** [JsClosure.call] *)
Definition JsClosure_call (c : JsClosure.t) (args : list Value)
    : Completion Value :=
  Completion_bind (unmarshal_all args) (fun jsArgument =>
    match JsClosure.func c jsArgument with
    | HostReturn result => marshalToPy result
    | HostThrow e => Thrown e
    end).

(** ** Built-in functions *)

Section BuiltIns.

Context (host : Host).

Definition toPythonFloat (num : float) : string :=
  match num with
  | S754_zero true => "-0.0"
  | S754_zero false => "0.0"
  | S754_infinity false => "inf"
  | S754_infinity true => "-inf"
  | S754_nan => "nan"
  | S754_finite _ _ _ =>
      if out_of_plain_range num
      then pad_exponent (Number_toExponential host num None)
      else if JsNumber.isInteger num then Number_toFixed host num 1
      else Number_toString host num
  end.

(** The name that [toPythonString] prints for a closure. *)
Definition closure_name (n : FunctionNode) : string :=
  match n with
  | FunctionDefNode name _ _ _ =>
      if bool_decide (Token.lexeme name = "") then "(anonymous)"
      else Token.lexeme name
  | LambdaNode _ _ => "(anonymous)"
  end.

Definition toPythonString (obj : Value) : string :=
  match obj with
  | VBigint z => BigInt_toString z
  | VComplex c => complex_toString host c
  | VNumber x => toPythonFloat x
  | VBool b => if b then "True" else "False"
  | VError message => message
  | VPyClosure c =>
      "<function " +:+ closure_name (PyClosure.node c) +:+ ">"
  | VString s => s
  | VJsUndefined | VUndefined | VJsClosure _ | VBuiltIn _ | VModule _ =>
      "None"
  end.

(** [args.map(arg => toPythonString(arg)).join(' ')] *)
Fixpoint join_space (l : list string) : string :=
  match l with
  | [] => ""
  | [s] => s
  | s :: rest => s +:+ " " +:+ join_space rest
  end.

Definition newline : string := String (ascii_of_nat 10) EmptyString.

(** [BuiltInFunctions.print]: the text appended to [context.output]. *)
Definition print_output (args : list Value) : string :=
  join_space (map toPythonString args) +:+ newline.

(** [BuiltInFunctions._int] *)
Definition _int (args : list Value) : Completion Value :=
  match args with
  | [] => Normal (VBigint 0)
  | arg :: _ =>
      match arg with
      | VJsUndefined => Thrown EngineTypeError
      | VNumber x =>
          match JsNumber.to_BigInt (JsNumber.trunc x) with
          | Some z => Normal (VBigint z)
          | None => Thrown EngineRangeError
          end
      | VBigint z => Normal (VBigint z)
      | _ =>
          Normal (VError
            ("TypeError: int() argument must be a string, a bytes-like object or a real number, not '"
               +:+ type_string arg +:+ "'"))
      end
  end.

(** [builtIns.has(name)] and [builtIns.get(name)] *)
Definition builtIns (name : string) : option BuiltIn :=
  if bool_decide (name = "print") then Some BuiltIn_print
  else if bool_decide (name = "_int") then Some BuiltIn__int
  else None.

End BuiltIns.

(** ** Scanning a function body for assignment targets

    [scanForAssignments] follows a property of a node only when it is an
    array, or an object with an own [type] property; of the objects of the
    syntax tree only tokens have one.  So the visitor reaches the statements
    of statement arrays and the expressions of argument arrays, and it stops
    at [FunctionDef] and [Lambda]. *)

Fixpoint visit_stmt (curNode : Stmt) : gset string :=
  let each :=
    fix each (l : list Stmt) : gset string :=
      match l with
      | [] => ∅
      | s :: l' => visit_stmt s ∪ each l'
      end in
  match curNode with
  | Assign name _ => {[ Token.lexeme name ]}
  | If _ body elseBlock =>
      each body ∪ match elseBlock with
                  | ElseArray l => each l
                  | _ => ∅
                  end
  | While _ body => each body
  | For _ _ body => each body
  | FileInput statements _ => each statements
  | _ => ∅
  end.

Definition visit_stmts (l : list Stmt) : gset string :=
  foldr (fun s acc => visit_stmt s ∪ acc) ∅ l.

Fixpoint visit_expr (curNode : Expr) : gset string :=
  match curNode with
  | Call _ args =>
      (fix each (l : list Expr) : gset string :=
         match l with
         | [] => ∅
         | e :: l' => visit_expr e ∪ each l'
         end) args
  | MultiLambda _ body _ => visit_stmts body
  | _ => ∅
  end.

(** [scanForAssignments(node)] for the body of a [def] (an array) and of a
    [lambda] (an expression). *)
Definition scanForAssignments_array (node : list Stmt) : gset string :=
  visit_stmts node.

Definition scanForAssignments_expr (node : Expr) : gset string :=
  visit_expr node.

(** ** The context of the machine *)

Inductive InstrType : Set :=
  | END_OF_FUNCTION_BODY | RESET | WHILE | FOR | ASSIGNMENT | ANN_ASSIGNMENT
  | APPLICATION | UNARY_OP | BINARY_OP | BOOL_OP | COMPARE | CALL | RETURN
  | BREAK | CONTINUE | IF | FUNCTION_DEF | LAMBDA | MULTI_LAMBDA | GROUPING
  | LITERAL | VARIABLE | TERNARY | PASS | ASSERT | IMPORT | GLOBAL | NONLOCAL
  | Program | BRANCH | POP | ENVIRONMENT | MARKER.

(** The consequent or alternate of a branch: a wrapped statement array or a
    node. *)
Inductive BranchTarget : Type :=
  | StatementSequence (body : list Stmt)
  | BranchNode (n : Node).

(** The instructions that the evaluator builds ([assmtInstr], [appInstr],
    [binOpInstr], [resetInstr], [branchInstr], [unOpInstr], [boolOpInstr],
    [endOfFunctionBodyInstr]), and the instruction of type [POP], which has
    a handler.  No instruction of another type is ever built. *)
Inductive Instr : Type :=
  | assmtInstr (symbol : string) (constant declaration : bool)
      (srcNode : Node)
  | appInstr (numOfArgs : nat) (srcNode : Node)
  | binOpInstr (symbol : TokenType.t) (srcNode : Node)
  | resetInstr (srcNode : Node)
  | branchInstr (consequent : BranchTarget) (alternate : option BranchTarget)
      (srcNode : Node)
  | unOpInstr (symbol : TokenType.t) (srcNode : Node)
  | boolOpInstr (symbol : TokenType.t) (srcNode : Node)
  | endOfFunctionBodyInstr (srcNode : Node)
  | popInstr.

Definition instrType_of (i : Instr) : InstrType :=
  match i with
  | assmtInstr _ _ _ _ => ASSIGNMENT
  | appInstr _ _ => APPLICATION
  | binOpInstr _ _ => BINARY_OP
  | resetInstr _ => RESET
  | branchInstr _ _ _ => BRANCH
  | unOpInstr _ _ => UNARY_OP
  | boolOpInstr _ _ => BOOL_OP
  | endOfFunctionBodyInstr _ => END_OF_FUNCTION_BODY
  | popInstr => POP
  end.

Inductive ControlItem : Type :=
  | CNode (n : Node)
  | CInstr (i : Instr).

(** [PyContext] with the fields of [context.runtime] that the evaluator
    reads or writes.  The Control and the Stash are lists whose first
    element is the top of the stack; [environments] has the current frame
    first, as in the source.  [store] holds the frames: a frame is created
    at the end of the store and is never removed. *)
Module PyContext.
Record t : Type := mk {
  control : list ControlItem;
  stash : list Value;
  output : string;
  errors : list Exception;
  environments : list addr;
  store : list PyEnvironment.t;
  objectCount : nat;
  nodes : list Node;
  isRunning : bool;
  envStepsTotal : nat
}.
End PyContext.

(** [BigInt(s)] for a string: optional surrounding white space, then an
    optionally signed decimal literal or an unsigned literal with one of
    the prefixes [0x], [0o], [0b]; the empty text is [0n].  [None] stands
    for the [SyntaxError] raised on any other text. *)
Definition is_js_space (c : ascii) : bool :=
  let n := nat_of_ascii c in
  ((9 <=? n) && (n <=? 13) || (n =? 32) || (n =? 160))%nat.

Definition digit_in_base (base : Z) (c : ascii) : option Z :=
  let n := Z.of_nat (nat_of_ascii c) in
  let d := (if (48 <=? n) && (n <=? 57) then n - 48
            else if (97 <=? n) && (n <=? 102) then n - 87
            else if (65 <=? n) && (n <=? 70) then n - 55
            else base)%Z in
  if (d <? base)%Z then Some d else None.

Fixpoint parse_in_base (base acc : Z) (l : list ascii) : option Z :=
  match l with
  | [] => Some acc
  | c :: l' =>
      match digit_in_base base c with
      | Some d => parse_in_base base (base * acc + d)%Z l'
      | None => None
      end
  end.

Definition parse_nonempty (base : Z) (l : list ascii) : option Z :=
  match l with
  | [] => None
  | _ => parse_in_base base 0%Z l
  end.

Definition BigInt_ofString (s : string) : option Z :=
  let trimmed :=
    rev (drop_while is_js_space (rev (drop_while is_js_space (chars s)))) in
  match trimmed with
  | [] => Some 0%Z
  | "0"%char :: "x"%char :: ds | "0"%char :: "X"%char :: ds =>
      parse_nonempty 16%Z ds
  | "0"%char :: "o"%char :: ds | "0"%char :: "O"%char :: ds =>
      parse_nonempty 8%Z ds
  | "0"%char :: "b"%char :: ds | "0"%char :: "B"%char :: ds =>
      parse_nonempty 2%Z ds
  | "+"%char :: ds => parse_nonempty 10%Z ds
  | "-"%char :: ds => Z.opp <$> parse_nonempty 10%Z ds
  | ds => parse_nonempty 10%Z ds
  end.

(** ** The CSE machine *)

(** How a run of evaluator code on a context ends: with a result and the
    updated context, with an exception and the context as it was when the
    exception was raised, or not at all. *)
Inductive Result (A : Type) : Type :=
  | Ok (a : A) (ctx : PyContext.t)
  | Raise (e : Exception) (ctx : PyContext.t)
  | Loops.

Arguments Ok {A} a ctx.
Arguments Raise {A} e ctx.
Arguments Loops {A}.

Definition M (A : Type) : Type := PyContext.t -> Result A.

Definition ret {A} (a : A) : M A := fun ctx => Ok a ctx.

Definition bind {A B} (m : M A) (k : A -> M B) : M B :=
  fun ctx =>
    match m ctx with
    | Ok a ctx' => k a ctx'
    | Raise e ctx' => Raise e ctx'
    | Loops => Loops
    end.

Declare Scope machine_scope.
Delimit Scope machine_scope with machine.
Notation "x <- m ;; k" := (bind m (fun x => k))
  (at level 100, m at next level, right associativity) : machine_scope.
Notation "m ;;; k" := (bind m (fun _ => k))
  (at level 100, right associativity) : machine_scope.

Definition throw {A} (e : Exception) : M A := fun ctx => Raise e ctx.

Definition modify (f : PyContext.t -> PyContext.t) : M unit :=
  fun ctx => Ok tt (f ctx).

Definition gets {A} (f : PyContext.t -> A) : M A := fun ctx => Ok (f ctx) ctx.

(** [pyHandleRuntimeError(context, error)] *)
Definition pyHandleRuntimeError {A} (error : Exception) : M A :=
  fun ctx =>
    let 'PyContext.mk c s o errs envs st oc ns r t := ctx in
    Raise error (PyContext.mk c s o (errs ++ [error]) envs st oc ns r t).

Definition lift {A} (c : Completion A) : M A :=
  match c with
  | Normal a => ret a
  | Handled e => pyHandleRuntimeError e
  | Thrown e => throw e
  end.

Section ContextUpdates.

Import PyContext.

Definition set_control (c : list ControlItem) (ctx : t) : t :=
  mk c (stash ctx) (output ctx) (errors ctx) (environments ctx) (store ctx)
     (objectCount ctx) (nodes ctx) (isRunning ctx) (envStepsTotal ctx).

Definition set_stash (s : list Value) (ctx : t) : t :=
  mk (control ctx) s (output ctx) (errors ctx) (environments ctx)
     (store ctx) (objectCount ctx) (nodes ctx) (isRunning ctx)
     (envStepsTotal ctx).

Definition set_output (o : string) (ctx : t) : t :=
  mk (control ctx) (stash ctx) o (errors ctx) (environments ctx)
     (store ctx) (objectCount ctx) (nodes ctx) (isRunning ctx)
     (envStepsTotal ctx).

Definition set_environments (envs : list addr) (ctx : t) : t :=
  mk (control ctx) (stash ctx) (output ctx) (errors ctx) envs (store ctx)
     (objectCount ctx) (nodes ctx) (isRunning ctx) (envStepsTotal ctx).

Definition set_store (st : list PyEnvironment.t) (ctx : t) : t :=
  mk (control ctx) (stash ctx) (output ctx) (errors ctx) (environments ctx)
     st (objectCount ctx) (nodes ctx) (isRunning ctx) (envStepsTotal ctx).

Definition set_objectCount (n : nat) (ctx : t) : t :=
  mk (control ctx) (stash ctx) (output ctx) (errors ctx) (environments ctx)
     (store ctx) n (nodes ctx) (isRunning ctx) (envStepsTotal ctx).

Definition set_nodes (ns : list Node) (ctx : t) : t :=
  mk (control ctx) (stash ctx) (output ctx) (errors ctx) (environments ctx)
     (store ctx) (objectCount ctx) ns (isRunning ctx) (envStepsTotal ctx).

Definition set_isRunning (b : bool) (ctx : t) : t :=
  mk (control ctx) (stash ctx) (output ctx) (errors ctx) (environments ctx)
     (store ctx) (objectCount ctx) (nodes ctx) b (envStepsTotal ctx).

Definition set_envStepsTotal (n : nat) (ctx : t) : t :=
  mk (control ctx) (stash ctx) (output ctx) (errors ctx) (environments ctx)
     (store ctx) (objectCount ctx) (nodes ctx) (isRunning ctx) n.

End ContextUpdates.

(** The outcome of the walk of [pyGetVariable] along the [tail] pointers. *)
Inductive Lookup : Type :=
  | Found (v : Value)
  | NotFound
  | Cyclic.

(** The options of a run. *)
Record IOptions : Type := mkOptions {
  isPrelude : bool;
  envSteps : Z;
  stepLimit : Z
}.

(** What a terminating call returns, with the context it leaves. *)
Inductive Returned (A : Type) : Type :=
  | Returns (a : A) (ctx : PyContext.t)
  | NeverReturns.

Arguments Returns {A} a ctx.
Arguments NeverReturns {A}.

(** The [Finished] result that [PyCSEResultPromise] resolves to. *)
Record Finished : Type := mkFinished {
  value : Value;
  representation : string
}.

Section Machine.

Context (host : Host).

Local Open Scope machine_scope.

(** *** Stacks *)

(** [control.push(item)] *)
Definition control_push (item : ControlItem) : M unit :=
  modify (fun ctx => set_control (item :: PyContext.control ctx) ctx).

(** [control.push(...items)]: the last of [items] ends on top. *)
Definition control_push_all (items : list ControlItem) : M unit :=
  modify (fun ctx => set_control (rev items ++ PyContext.control ctx) ctx).

Definition stash_push (v : Value) : M unit :=
  modify (fun ctx => set_stash (v :: PyContext.stash ctx) ctx).

(** [stash.pop()], which is [undefined] on the empty stash. *)
Definition stash_pop : M Value :=
  fun ctx =>
    match PyContext.stash ctx with
    | [] => Ok VJsUndefined ctx
    | v :: rest => Ok v (set_stash rest ctx)
    end.

Definition statements (l : list Stmt) : list ControlItem :=
  map (fun s => CNode (StmtNode s)) l.

Definition expression (e : Expr) : ControlItem := CNode (ExprNode e).

(** *** Environments *)

Definition uniqueId : M string :=
  fun ctx =>
    Ok (nat_toString (PyContext.objectCount ctx))
       (set_objectCount (S (PyContext.objectCount ctx)) ctx).

(** [currentEnvironment(context)]: the address of [environments[0]]. *)
Definition currentEnvironment (ctx : PyContext.t) : option addr :=
  match PyContext.environments ctx with
  | [] => None
  | a :: _ => Some a
  end.

Definition frame (ctx : PyContext.t) (a : addr) : option PyEnvironment.t :=
  PyContext.store ctx !! a.

Definition with_head (env : PyEnvironment.t) (h : gmap string Value)
    : PyEnvironment.t :=
  PyEnvironment.mk (PyEnvironment.name env) (PyEnvironment.tail env) h
    (PyEnvironment.id env) (PyEnvironment.callExpression env)
    (PyEnvironment.closure env).

(** [pyDefineVariable(context, name, value)] on the current frame. *)
Definition pyDefineVariable (name : string) (value : Value) : M unit :=
  fun ctx =>
    match currentEnvironment ctx with
    | None => Raise EngineTypeError ctx
    | Some a =>
        match frame ctx a with
        | None => Raise EngineTypeError ctx
        | Some env =>
            Ok tt (set_store
                     (<[a := with_head env
                               (<[name := value]> (PyEnvironment.head env))]>
                        (PyContext.store ctx))
                     ctx)
        end
    end.

(** The loop of [pyGetVariable] over the [tail] pointers.  A chain without
    a cycle has at most as many frames as the store, so when the fuel
    (the size of the store) is used up the chain is cyclic and the loop
    of the source does not end. *)
Fixpoint lookup_chain (fuel : nat) (store : list PyEnvironment.t)
    (currentEnv : option addr) (name : string) : Lookup :=
  match currentEnv with
  | None => NotFound
  | Some a =>
      match store !! a with
      | None => NotFound
      | Some env =>
          match PyEnvironment.head env !! name with
          | Some v => Found v
          | None =>
              match fuel with
              | O => Cyclic
              | S fuel' =>
                  lookup_chain fuel' store (PyEnvironment.tail env) name
              end
          end
      end
  end.

(** [env.closure && env.closure.localVariables.has(name)] and
    [!env.head.hasOwnProperty(name)] *)
Definition local_assigned_later (env : PyEnvironment.t) (name : string)
    : bool :=
  match PyEnvironment.closure env with
  | Some c =>
      bool_decide (name ∈ PyClosure.localVariables c)
      && bool_decide (PyEnvironment.head env !! name = None)
  | None => false
  end.

Definition pyGetVariable (name : string) : M Value :=
  fun ctx =>
    match currentEnvironment ctx with
    | None => Raise EngineTypeError ctx
    | Some a =>
        match frame ctx a with
        | None => Raise EngineTypeError ctx
        | Some env =>
            if local_assigned_later env name
            then Raise (UnboundLocalError name) ctx
            else
              match lookup_chain (length (PyContext.store ctx))
                      (PyContext.store ctx) (Some a) name with
              | Found v => Ok v ctx
              | Cyclic => Loops
              | NotFound =>
                  match builtIns name with
                  | Some f => Ok (VBuiltIn f) ctx
                  | None => Raise (NameError name) ctx
                  end
              end
        end
    end.

(** [closure.node.parameters] *)
Definition parameters_of (n : FunctionNode) : list Token.t :=
  match n with
  | FunctionDefNode _ parameters _ _ => parameters
  | LambdaNode parameters _ => parameters
  end.

(** [parameters.forEach((p, index) => head[p.lexeme] = args[index])] *)
Fixpoint bind_parameters (head : gmap string Value)
    (parameters : list Token.t) (args : list Value) : gmap string Value :=
  match parameters with
  | [] => head
  | p :: ps =>
      bind_parameters
        (<[Token.lexeme p := hd VJsUndefined args]> head) ps (tl args)
  end.

Definition createEnvironment (closure : PyClosure.t) (args : list Value)
    (callExpression : Node) : M PyEnvironment.t :=
  id <- uniqueId ;;
  ret (PyEnvironment.mk
         match PyClosure.node closure with
         | FunctionDefNode name _ _ _ => Token.lexeme name
         | LambdaNode _ _ => "lambda"
         end
         (PyClosure.environment closure)
         (bind_parameters ∅ (parameters_of (PyClosure.node closure)) args)
         id (Some callExpression) (Some closure)).

(** [pushEnvironment]: the new frame goes to the end of the store and its
    address to the front of [environments]. *)
Definition pushEnvironment (environment : PyEnvironment.t) : M unit :=
  modify (fun ctx =>
    set_environments
      (length (PyContext.store ctx) :: PyContext.environments ctx)
      (set_store (PyContext.store ctx ++ [environment]) ctx)).

Definition popEnvironment : M unit :=
  modify (fun ctx => set_environments (tl (PyContext.environments ctx)) ctx).

(** *** Handlers of syntax-tree nodes *)

Definition new_closure (node : FunctionNode) (localVariables : gset string)
    : M PyClosure.t :=
  id <- uniqueId ;;
  environment <- gets currentEnvironment ;;
  ret (PyClosure.mk id node environment false localVariables).

Definition is_reset (item : ControlItem) : bool :=
  match item with
  | CInstr (resetInstr _) => true
  | _ => false
  end.

Definition unknown_node {A} (n : Node) : M A :=
  throw (JsError ("Unknown Python AST node type: " +:+ constructor_name n)).

Definition evaluate_expr (node : Expr) : M unit :=
  match node with
  | Literal value =>
      match value with
      | LitNumber x => stash_push (VNumber x)
      | LitBoolean b => stash_push (VBool b)
      | LitString s => stash_push (VString s)
      | LitNull => stash_push VUndefined
      end
  | BigIntLiteral value =>
      match BigInt_ofString value with
      | Some z => stash_push (VBigint z)
      | None => throw EngineSyntaxError
      end
  | Unary operator operand =>
      control_push (CInstr (unOpInstr (Token.type operator) (ExprNode node))) ;;;
      control_push (expression operand)
  | Binary lhs operator rhs =>
      control_push (CInstr (binOpInstr (Token.type operator) (ExprNode node))) ;;;
      control_push (expression rhs) ;;;
      control_push (expression lhs)
  | BoolOp lhs operator rhs =>
      control_push (CInstr (boolOpInstr (Token.type operator) (ExprNode node))) ;;;
      control_push (expression rhs) ;;;
      control_push (expression lhs)
  | Grouping e => control_push (expression e)
  | Complex value => stash_push (VComplex value)
  | NoneExpr => stash_push VUndefined
  | VariableExpr name =>
      value <- pyGetVariable (Token.lexeme name) ;;
      stash_push value
  | Compare lhs operator rhs =>
      control_push (CInstr (binOpInstr (Token.type operator) (ExprNode node))) ;;;
      control_push (expression rhs) ;;;
      control_push (expression lhs)
  | Call callee args =>
      control_push (CInstr (appInstr (length args) (ExprNode node))) ;;;
      control_push_all (map expression (rev args)) ;;;
      control_push (expression callee)
  | Lambda parameters body =>
      closure <- new_closure (LambdaNode parameters body)
                   (scanForAssignments_expr body) ;;
      stash_push (VPyClosure closure)
  | Ternary predicate consequent alternative =>
      control_push
        (CInstr (branchInstr (BranchNode (ExprNode consequent))
                   (Some (BranchNode (ExprNode alternative)))
                   (ExprNode node))) ;;;
      control_push (expression predicate)
  | MultiLambda _ _ _ => unknown_node (ExprNode node)
  end.

Definition evaluate_stmt (node : Stmt) : M unit :=
  match node with
  | FileInput stmts _ => control_push_all (statements (rev stmts))
  | SimpleExpr e => control_push (expression e)
  | Assign name value =>
      control_push
        (CInstr (assmtInstr (Token.lexeme name) false true (StmtNode node))) ;;;
      control_push (expression value)
  | FunctionDef name parameters body varDecls =>
      closure <- new_closure (FunctionDefNode name parameters body varDecls)
                   (scanForAssignments_array body) ;;
      pyDefineVariable (Token.lexeme name) (VPyClosure closure)
  | Return value =>
      modify (fun ctx =>
        set_control (drop_while (fun item => negb (is_reset item))
                       (PyContext.control ctx)) ctx) ;;;
      match value with
      | Some e => control_push (expression e)
      | None => stash_push VUndefined
      end
  | If condition body elseBlock =>
      control_push
        (CInstr (branchInstr (StatementSequence body)
                   match elseBlock with
                   | ElseNull => None
                   | ElseArray l => Some (StatementSequence l)
                   | ElseNode s => Some (BranchNode (StmtNode s))
                   end
                   (StmtNode node))) ;;;
      control_push (expression condition)
  | FromImport _ _ => ret tt
  | _ => unknown_node (StmtNode node)
  end.

(** *** Handlers of instructions *)

(** The loop [for (i < numOfArgs) args.unshift(stash.pop())]. *)
Fixpoint pop_args (numOfArgs : nat) (args : list Value) : M (list Value) :=
  match numOfArgs with
  | O => ret args
  | S n => v <- stash_pop ;; pop_args n (v :: args)
  end.

Definition call_builtin (f : BuiltIn) (args : list Value) : M Value :=
  match f with
  | BuiltIn_print =>
      modify (fun ctx =>
        set_output (PyContext.output ctx +:+ print_output host args) ctx) ;;;
      ret VUndefined
  | BuiltIn__int => lift (_int args)
  end.

Definition push_target (target : BranchTarget) : M unit :=
  match target with
  | StatementSequence body => control_push_all (statements (rev body))
  | BranchNode n => control_push (CNode n)
  end.

Definition evaluate_instr (instr : Instr) : M unit :=
  match instr with
  | unOpInstr symbol _ =>
      argument <- stash_pop ;;
      if truthy argument then
        result <- lift (evaluateUnaryExpression symbol argument) ;;
        stash_push result
      else ret tt
  | binOpInstr symbol _ =>
      right <- stash_pop ;;
      left <- stash_pop ;;
      if truthy left && truthy right then
        result <- lift (evaluateBinaryExpression host symbol left right) ;;
        stash_push result
      else ret tt
  | boolOpInstr symbol _ =>
      right <- stash_pop ;;
      left <- stash_pop ;;
      if truthy left && truthy right then
        result <- lift (evaluateBoolExpression symbol left right) ;;
        stash_push result
      else ret tt
  | assmtInstr symbol _ _ _ =>
      value <- stash_pop ;;
      if truthy value then pyDefineVariable symbol value else ret tt
  | appInstr numOfArgs srcNode =>
      args <- pop_args numOfArgs [] ;;
      callable <- stash_pop ;;
      match callable with
      | VPyClosure closure =>
          control_push (CInstr (resetInstr srcNode)) ;;;
          match PyClosure.node closure with
          | FunctionDefNode _ _ body _ =>
              control_push (CInstr (endOfFunctionBodyInstr srcNode)) ;;;
              newEnv <- createEnvironment closure args srcNode ;;
              pushEnvironment newEnv ;;;
              control_push_all (statements (rev body))
          | LambdaNode _ body =>
              newEnv <- createEnvironment closure args srcNode ;;
              pushEnvironment newEnv ;;;
              control_push (expression body)
          end
      | VJsClosure c =>
          result <- lift (JsClosure_call c args) ;;
          marshalled <- lift (marshalToPy (as_JsValue result)) ;;
          stash_push marshalled
      | VBuiltIn f =>
          result <- call_builtin f args ;;
          stash_push result
      | _ => throw EngineTypeError
      end
  | resetInstr _ => popEnvironment
  | endOfFunctionBodyInstr _ => stash_push VUndefined
  | branchInstr consequent alternate _ =>
      condition <- stash_pop ;;
      if negb (truthy condition) then throw EngineTypeError
      else if negb (isFalsy condition) then push_target consequent
      else
        match alternate with
        | Some target => push_target target
        | None => ret tt
        end
  | popInstr =>
      _ <- stash_pop ;; ret tt
  end.

(** *** The main loop *)

(** One turn of the loop of [pyGenerateCSEMachineStateStream] on the
    command at the top of the Control. *)
Definition step (command : ControlItem) : M unit :=
  modify (fun ctx => set_control (tl (PyContext.control ctx)) ctx) ;;;
  match command with
  | CNode node =>
      modify (fun ctx => set_nodes (node :: tl (PyContext.nodes ctx)) ctx) ;;;
      match node with
      | ExprNode e => evaluate_expr e
      | StmtNode s => evaluate_stmt s
      end
  | CInstr instr => evaluate_instr instr
  end.

(** One turn of the [while (command)] loop: the command is run, the step
    counter is incremented and, unless the program is the prelude, copied to
    [envStepsTotal].  The result is the new value of [steps]. *)
Definition turn (isPrelude : bool) (steps : nat) (command : ControlItem)
    : M nat :=
  step command ;;;
  (if isPrelude then ret tt else modify (set_envStepsTotal (S steps))) ;;;
  ret (S steps).

(** The loop with its step counter.  [fuel] bounds the number of turns of
    the model only: [None] means that the fuel did not suffice.  [envSteps]
    and [stepLimit] are the parameters of the source. *)
Fixpoint loop (fuel : nat) (envSteps stepLimit : Z) (isPrelude : bool)
    (steps : nat) (ctx : PyContext.t) : option (Result nat) :=
  match PyContext.control ctx with
  | [] => Some (Ok steps ctx)
  | command :: _ =>
      match fuel with
      | O => None
      | S fuel' =>
          match turn isPrelude steps command ctx with
          | Ok steps' ctx' => loop fuel' envSteps stepLimit isPrelude steps' ctx'
          | Raise e ctx' => Some (Raise e ctx')
          | Loops => Some Loops
          end
      end
  end.

(** The first [n] turns of the loop. *)
Fixpoint turns (n : nat) (isPrelude : bool) (steps : nat)
    (ctx : PyContext.t) : Result nat :=
  match n, PyContext.control ctx with
  | S n', command :: _ =>
      match turn isPrelude steps command ctx with
      | Ok steps' ctx' => turns n' isPrelude steps' ctx'
      | r => r
      end
  | _, _ => Ok steps ctx
  end.

Definition pyGenerateCSEMachineStateStream (fuel : nat)
    (envSteps stepLimit : Z) (isPrelude : bool) (ctx : PyContext.t)
    : option (Result nat) :=
  loop fuel envSteps stepLimit isPrelude 0
    match PyContext.control ctx with
    | CNode command :: _ => set_nodes (command :: PyContext.nodes ctx) ctx
    | _ => ctx
    end.

(** [stash.peek()] and the result of [pyRunCSEMachine]. *)
Definition peek (stash : list Value) : Value := hd VJsUndefined stash.

Definition top_of_stash (ctx : PyContext.t) : Value :=
  if truthy (peek (PyContext.stash ctx)) then peek (PyContext.stash ctx)
  else VUndefined.

Definition pyRunCSEMachine (fuel : nat) (envSteps stepLimit : Z)
    (isPrelude : bool) (ctx : PyContext.t) : option (Result Value) :=
  match pyGenerateCSEMachineStateStream fuel envSteps stepLimit isPrelude ctx
  with
  | Some (Ok _ ctx') => Some (Ok (top_of_stash ctx') ctx')
  | Some (Raise e ctx') => Some (Raise e ctx')
  | Some Loops => Some Loops
  | None => None
  end.

(** [error.message] *)
Definition message_of (code : string) (e : Exception) : string :=
  match e with
  | JsError message => message
  | _ => Diagnostics_message host code e
  end.

Definition PyEvaluate (fuel : nat) (code : string) (program : Stmt)
    (context : PyContext.t) (options : IOptions)
    : option (Returned Value) :=
  let started :=
    set_control [CNode (StmtNode program)] (set_isRunning true context) in
  match pyRunCSEMachine fuel (envSteps options) (stepLimit options)
          (isPrelude options) started with
  | Some (Ok result ctx') =>
      Some (Returns
              (if bool_decide (PyContext.output ctx' = "") then result
               else VString (PyContext.output ctx'))
              (set_isRunning false ctx'))
  | Some (Raise e ctx') =>
      Some (Returns (VError (message_of code e)) (set_isRunning false ctx'))
  | Some Loops => Some NeverReturns
  | None => None
  end.

Definition PyCSEResultPromise (v : Value) : Finished :=
  match v with
  | VError message => mkFinished v message
  | _ => mkFinished v (toPythonString host v)
  end.

Definition PyRunCSEMachine (fuel : nat) (code : string) (program : Stmt)
    (context : PyContext.t) (options : IOptions)
    : option (Returned Finished) :=
  match PyEvaluate fuel code program context options with
  | Some (Returns v ctx') => Some (Returns (PyCSEResultPromise v) ctx')
  | Some NeverReturns => Some NeverReturns
  | None => None
  end.

End Machine.

(** [new PyContext()]: one global frame, empty stacks. *)
Definition PyContext_new : PyContext.t :=
  PyContext.mk [] [] "" []
    [0]
    [PyEnvironment.mk "global" None ∅ "-1" None None]
    0 [] false 0.

(** ** The tokenizer *)

Module Tokenizer.

(** How a scanning method ends: normally, with an exception, or never. *)
Inductive Scan (A : Type) : Type :=
  | Scanned (a : A)
  | Fails (e : Exception)
  | Hangs.

Arguments Scanned {A} a.
Arguments Fails {A} e.
Arguments Hangs {A}.

Definition and_then {A B} (s : Scan A) (k : A -> Scan B) : Scan B :=
  match s with
  | Scanned a => k a
  | Fails e => Fails e
  | Hangs => Hangs
  end.

(** The fields of a [Tokenizer] object.  [indentStack] has its top
    first; [tokens] is in the order of the source. *)
Record t : Type := mk {
  source : list ascii;
  tokens : list Token.t;
  start : nat;
  current : nat;
  line : nat;
  col : nat;
  indentStack : list nat;
  lexemeBuffer : list ascii;
  parenthesesLevel : nat
}.

Definition new (src : string) : t := mk (chars src) [] 0 0 0 0 [0] [] 0.

Definition NUL : ascii := ascii_of_nat 0.
Definition LF : ascii := ascii_of_nat 10.
Definition CR : ascii := ascii_of_nat 13.
Definition SPACE : ascii := " "%char.

Definition is_char (c d : ascii) : bool := bool_decide (c = d).

(** The unread part of the source, [isAtEnd] and [peek]. *)
Definition rest (st : t) : list ascii := drop (current st) (source st).

Definition isAtEnd (st : t) : bool := length (source st) <=? current st.

Definition peek (st : t) : ascii := hd NUL (rest st).

(** [advance] without its result. *)
Definition advance (st : t) : t :=
  mk (source st) (tokens st) (start st) (S (current st))
     (if is_char (peek st) LF then S (line st) else line st) (S (col st))
     (indentStack st) (lexemeBuffer st) (parenthesesLevel st).

Definition addBuffer (c : ascii) (st : t) : t :=
  mk (source st) (tokens st) (start st) (current st) (line st) (col st)
     (indentStack st) (lexemeBuffer st ++ [c]) (parenthesesLevel st).

Definition advanceString (record : bool) (st : t) : t :=
  let res := peek st in
  let st' := advance st in
  if record then addBuffer res st' else st'.

Definition subtractBufferForThreeQuoteString (st : t) : t :=
  if 3 <=? length (lexemeBuffer st)
  then mk (source st) (tokens st) (start st) (current st) (line st) (col st)
          (indentStack st)
          (take (length (lexemeBuffer st) - 3) (lexemeBuffer st))
          (parenthesesLevel st)
  else st.

Definition with_tokens (tokens' : list Token.t) (st : t) : t :=
  mk (source st) tokens' (start st) (current st) (line st) (col st)
     (indentStack st) (lexemeBuffer st) (parenthesesLevel st).

Definition with_position (line' col' : nat) (st : t) : t :=
  mk (source st) (tokens st) (start st) (current st) line' col'
     (indentStack st) (lexemeBuffer st) (parenthesesLevel st).

Definition with_indentStack (stack : list nat) (st : t) : t :=
  mk (source st) (tokens st) (start st) (current st) (line st) (col st)
     stack (lexemeBuffer st) (parenthesesLevel st).

Definition with_parenthesesLevel (n : nat) (st : t) : t :=
  mk (source st) (tokens st) (start st) (current st) (line st) (col st)
     (indentStack st) (lexemeBuffer st) n.

Definition with_start (st : t) : t :=
  mk (source st) (tokens st) (current st) (current st) (line st) (col st)
     (indentStack st) (lexemeBuffer st) (parenthesesLevel st).

(** [source.slice(i, j)] *)
Definition slice (st : t) (i j : nat) : list ascii :=
  take (j - i) (drop i (source st)).

Definition addToken (type : TokenType.t) (st : t) : t :=
  let lexeme := slice st (start st) (current st) in
  with_tokens
    (tokens st ++ [Token.mk type (text lexeme) (line st) (col st)
                     (current st - length lexeme)])
    st.

Definition overwriteToken (type : TokenType.t) (st : t) : t :=
  match last (tokens st) with
  | Some previousToken =>
      let lexeme :=
        slice st (Token.indexInSource previousToken) (current st) in
      with_tokens
        (take (length (tokens st) - 1) (tokens st)
           ++ [Token.mk type (text lexeme) (Token.line previousToken)
                 (Token.col previousToken)
                 (Token.indexInSource previousToken)])
        st
  | None => st
  end.

Definition clear_buffer (st : t) : t :=
  mk (source st) (tokens st) (start st) (current st) (line st) (col st)
     (indentStack st) [] (parenthesesLevel st).

(** [addStringToken] ([quotes = 1]) and [addMultiLineStringToken]
    ([quotes = 3]). *)
Definition addQuotedToken (quotes : nat) (type : TokenType.t) (st : t) : t :=
  let lexeme := slice st (start st + quotes) (current st - quotes) in
  clear_buffer
    (with_tokens
       (tokens st ++ [Token.mk type (text (lexemeBuffer st)) (line st)
                        (col st) (current st - length lexeme)])
       st).

(** [matches(pattern)]: the updated tokenizer when the character is
    consumed. *)
Definition matches (pattern : ascii) (st : t) : option t :=
  if isAtEnd st then None
  else if is_char (peek st) pattern
  then Some (mk (source st) (tokens st) (start st) (S (current st))
               (line st) (S (col st)) (indentStack st) (lexemeBuffer st)
               (parenthesesLevel st))
  else None.

(** *** Character classes

    A character is one code unit below 256.  [isDelimiter] is the test
    for the Unicode categories P and S and [isSpace] is [\s], both on
    that range; the only decimal digits ([\p{Nd}]) there are [0]-[9]. *)

Definition code (c : ascii) : nat := nat_of_ascii c.

Definition between (lo hi : nat) (c : ascii) : bool :=
  (lo <=? code c) && (code c <=? hi).

Definition isAlpha (c : ascii) : bool := between 65 90 c || between 97 122 c.
Definition isDigit (c : ascii) : bool := between 48 57 c.
Definition isHexa (c : ascii) : bool :=
  isDigit c || between 65 70 c || between 97 102 c.
Definition isOcta (c : ascii) : bool := between 48 55 c.
Definition isBinary (c : ascii) : bool := between 48 49 c.

Definition isSpace (c : ascii) : bool :=
  between 9 13 c || (code c =? 32) || (code c =? 160).

Definition isDelimiter (c : ascii) : bool :=
  between 33 47 c || between 58 64 c || between 91 96 c
  || between 123 126 c
  || existsb (Nat.eqb (code c))
       [161; 162; 163; 164; 165; 166; 167; 168; 169; 171; 172; 174; 175;
        176; 177; 180; 182; 183; 184; 187; 191; 215; 247].

Definition isLegalUnicode (c : ascii) : bool :=
  negb (isDelimiter c) && negb (isDigit c).

Definition isIdentifier (c : ascii) : bool :=
  negb (isSpace c)
  && (is_char c "_"%char || isAlpha c || isDigit c || isLegalUnicode c).

(** [while (p(peek())) advance()] for a test [p] that fails on the
    character that [peek] returns at the end of the source. *)
Definition advance_while (p : ascii -> bool) (st : t) : t :=
  Nat.iter (length (take_while p (rest st))) advance st.

Definition InvalidNumberError : Exception :=
  FrontEndError "InvalidNumberError".
Definition UnterminatedStringError : Exception :=
  FrontEndError "UnterminatedStringError".
Definition invalid_escape : Exception :=
  JsError "SyntaxWarning: invalid escape sequence".

(** *** Numbers *)

(** The loop over digits and underscores of [number]; [rest] is the
    unread part of the source. *)
Fixpoint digits_run (rest : list ascii) (st : t) : Scan t :=
  match rest with
  | c :: rest' =>
      if isDigit c then digits_run rest' (advance st)
      else if is_char c "_"%char then
        if isDigit (hd NUL rest') then digits_run rest' (advance st)
        else Fails (JsError "Invalid use of underscore in number")
      else Scanned st
  | [] => Scanned st
  end.

Definition is_j (c : ascii) : bool := is_char c "j"%char || is_char c "J"%char.

(** The end of a literal: a [j] or [J] makes it a COMPLEX token. *)
Definition finish_number (otherwise : TokenType.t) (st : t) : t :=
  if is_j (peek st) then addToken TokenType.COMPLEX (advance st)
  else addToken otherwise st.

(** The exponent part; [digits] is the loop over its digits. *)
Definition exponent (digits : t -> Scan t) (st : t) : Scan t :=
  if is_char (peek st) "e"%char then
    let st1 := advance st in
    let st2 := if is_char (peek st1) "-"%char then advance st1 else st1 in
    let st3 := if is_char (peek st2) "+"%char then advance st2 else st2 in
    if isDigit (peek st3) then digits st3 else Fails InvalidNumberError
  else Scanned st.

Definition number (c : ascii) (st : t) : Scan t :=
  let dot := is_char c "."%char in
  and_then (if dot then Scanned st else digits_run (rest st) st) (fun st1 =>
  if negb (is_char (peek st1) "."%char) && negb (is_char (peek st1) "e"%char)
     && negb dot
  then Scanned (finish_number TokenType.BIGINT st1)
  else
    and_then
      (if (is_char (peek st1) "."%char && negb dot)
          || (negb (is_char (peek st1) "."%char) && dot)
       then
         let st2 := advance st1 in
         if is_char (peek st2) "_"%char then Fails (JsError "_ after .")
         else digits_run (rest st2) st2
       else Scanned st1) (fun st3 =>
    and_then (exponent (fun st4 => digits_run (rest st4) st4) st3)
      (fun st5 => Scanned (finish_number TokenType.NUMBER st5)))).

(** A literal with one of the prefixes [0x], [0o], [0b]. *)
Definition prefixed (p : ascii -> bool) (st : t) : Scan t :=
  let st1 := advance st in
  if p (peek st1)
  then Scanned (addToken TokenType.BIGINT (advance_while p st1))
  else Fails InvalidNumberError.

Definition baseNumber (st : t) : Scan t :=
  if is_char (peek st) "x"%char then prefixed isHexa st
  else if is_char (peek st) "o"%char then prefixed isOcta st
  else if is_char (peek st) "b"%char then prefixed isBinary st
  else
    let st1 := advance_while isDigit st in
    if negb (is_char (peek st1) "."%char)
       && negb (is_char (peek st1) "e"%char)
    then Scanned (finish_number TokenType.BIGINT st1)
    else
      and_then
        (if is_char (peek st1) "."%char then
           let st2 := advance st1 in
           if is_char (peek st2) "_"%char then Fails (JsError "_ after .")
           else Scanned (advance_while isDigit st2)
         else Scanned st1) (fun st3 =>
      let st4 := if is_char (peek st3) "_"%char then advance st3 else st3 in
      and_then (exponent (fun st5 => Scanned (advance_while isDigit st5)) st4)
        (fun st6 => Scanned (finish_number TokenType.NUMBER st6))).

(** *** Names and keywords *)

Definition specialIdentifiers : list (string * TokenType.t) :=
  [("and", TokenType.AND); ("or", TokenType.OR);
   ("while", TokenType.WHILE); ("for", TokenType.FOR);
   ("None", TokenType.NONE); ("is", TokenType.IS); ("not", TokenType.NOT);
   ("pass", TokenType.PASS); ("def", TokenType.DEF);
   ("lambda", TokenType.LAMBDA); ("from", TokenType.FROM);
   ("True", TokenType.TRUE); ("False", TokenType.FALSE);
   ("break", TokenType.BREAK); ("continue", TokenType.CONTINUE);
   ("return", TokenType.RETURN); ("assert", TokenType.ASSERT);
   ("import", TokenType.IMPORT); ("global", TokenType.GLOBAL);
   ("nonlocal", TokenType.NONLOCAL); ("if", TokenType.IF);
   ("elif", TokenType.ELIF); ("else", TokenType.ELSE);
   ("in", TokenType.IN)].

Definition forbiddenIdentifiers : list string :=
  ["async"; "await"; "yield"; "with"; "del"; "try"; "except"; "finally";
   "raise"].

Fixpoint assoc {A} (key : string) (l : list (string * A)) : option A :=
  match l with
  | [] => None
  | (k, v) :: l' => if String.eqb k key then Some v else assoc key l'
  end.

(** [name]: every character of the unread source may be an identifier
    character, and so is the character that [peek] returns at the end of
    the source; the loop of the source then advances for ever. *)
Definition name (st : t) : Scan t :=
  let run := take_while isIdentifier (rest st) in
  if length run =? length (rest st) then Hangs
  else
    let st1 := Nat.iter (length run) advance st in
    let identifier := text (slice st1 (start st1) (current st1)) in
    if existsb (String.eqb identifier) forbiddenIdentifiers
    then Fails (FrontEndError "ForbiddenIdentifierError")
    else
      match assoc identifier specialIdentifiers with
      | Some TokenType.NOT =>
          match last (tokens st1) with
          | Some previousToken =>
              if TokenType.eqb (Token.type previousToken) TokenType.IS
              then Scanned (overwriteToken TokenType.ISNOT st1)
              else Scanned (addToken TokenType.NOT st1)
          | None => Scanned (addToken TokenType.NOT st1)
          end
      | Some TokenType.IN =>
          match last (tokens st1) with
          | Some previousToken =>
              if TokenType.eqb (Token.type previousToken) TokenType.NOT
              then Scanned (overwriteToken TokenType.NOTIN st1)
              else Scanned (addToken TokenType.IN st1)
          | None => Fails EngineTypeError
          end
      | Some specialIdent => Scanned (addToken specialIdent st1)
      | None => Scanned (addToken TokenType.NAME st1)
      end.

(** *** Strings *)

(** The character that an escape sequence adds to the buffer: [Some None]
    for a backslash at the end of a line, [None] for an escape that is
    not recognised. *)
Definition escaped (c : ascii) : option (option ascii) :=
  if is_char c LF then Some None
  else if is_char c "\"%char then Some (Some "\"%char)
  else if is_char c "'"%char then Some (Some "'"%char)
  else if is_char c (ascii_of_nat 34) then Some (Some (ascii_of_nat 34))
  else if is_char c "a"%char then Some (Some "a"%char)
  else if is_char c "b"%char then Some (Some (ascii_of_nat 8))
  else if is_char c "f"%char then Some (Some (ascii_of_nat 12))
  else if is_char c "n"%char then Some (Some LF)
  else if is_char c "r"%char then Some (Some CR)
  else if is_char c "t"%char then Some (Some (ascii_of_nat 9))
  else if is_char c "v"%char then Some (Some (ascii_of_nat 11))
  else None.

(** The two steps around an escape: the backslash is skipped, the buffer
    gets the escaped character, the character after the backslash is
    skipped. *)
Definition escape_step (c : ascii) (st : t) : Scan t :=
  match escaped c with
  | Some added =>
      let st1 := advanceString false st in
      let st2 := match added with
                 | Some a => addBuffer a st1
                 | None => st1
                 end in
      Scanned (advanceString false st2)
  | None => Fails invalid_escape
  end.

(** The loop of a single-line string up to its closing quote. *)
Fixpoint single_line (quote : ascii) (rest : list ascii) (st : t)
    : Scan t :=
  match rest with
  | [] => Scanned st
  | c :: rest' =>
      if is_char c quote || is_char c LF then Scanned st
      else if is_char c "\"%char then
        match rest' with
        | [] => Fails invalid_escape
        | e :: rest'' =>
            and_then (escape_step e st) (single_line quote rest'')
        end
      else single_line quote rest' (advanceString true st)
  end.

(** The loops of a triple-quoted string after its opening quotes. *)
Fixpoint multi_line (quote : ascii) (rest : list ascii) (quote_sum : nat)
    (st : t) : Scan t :=
  match rest with
  | [] => Fails UnterminatedStringError
  | c :: rest' =>
      if is_char c quote then
        let st1 := advanceString true st in
        if S quote_sum =? 3
        then Scanned (subtractBufferForThreeQuoteString st1)
        else multi_line quote rest' (S quote_sum) st1
      else if is_char c "\"%char then
        match rest' with
        | [] => Fails invalid_escape
        | e :: rest'' =>
            and_then (escape_step e st) (multi_line quote rest'' 0)
        end
      else multi_line quote rest' 0 (advanceString true st)
  end.

Definition string_literal (quote : ascii) (st : t) : Scan t :=
  if is_char (peek st) quote then
    let st1 := advance st in
    if negb (is_char (peek st1) quote)
    then Scanned (addQuotedToken 1 TokenType.STRING st1)
    else
      let st2 := advance st1 in
      and_then (multi_line quote (rest st2) 0 st2) (fun st3 =>
        Scanned (addQuotedToken 3 TokenType.STRING st3))
  else
    and_then (single_line quote (rest st) st) (fun st1 =>
      if is_char (peek st1) LF || isAtEnd st1
      then Fails UnterminatedStringError
      else Scanned (addQuotedToken 1 TokenType.STRING (advance st1))).

(** *** Layout *)

(** [while (peek() === " " && !isAtEnd())]: the number of spaces and the
    tokenizer after them. *)
Definition leading_spaces (st : t) : nat * t :=
  let n := length (take_while (fun c => is_char c SPACE) (rest st)) in
  (n, Nat.iter n advance st).

(** The skip of a comment up to the end of its line. *)
Definition skip_comment (st : t) : t :=
  advance_while (fun c => negb (is_char c LF) && negb (is_char c CR)) st.

Definition next_line (st : t) : t := with_position (S (line st)) 0 st.

(** The loop over blank lines after a NEWLINE: each turn consumes a line
    break, starts a line and counts its leading spaces.  [counting] says
    that the spaces of a line are being counted; [rest] is the unread part
    of the source and [acc] is [accLeadingWhiteSpace]. *)
Fixpoint blank_lines (counting : bool) (rest : list ascii) (acc : nat)
    (st : t) : nat * t :=
  match rest with
  | [] => (acc, st)
  | c :: rest' =>
      if counting && is_char c SPACE
      then blank_lines true rest' (S acc) (advance st)
      else if is_char c LF
      then blank_lines true rest' 0 (next_line (advance st))
      else if is_char c CR then
        match rest' with
        | c' :: rest'' =>
            if is_char c' LF
            then blank_lines true rest'' 0 (next_line (advance (advance st)))
            else blank_lines true rest' 0 (next_line (advance st))
        | [] => (0, next_line (advance st))
        end
      else (acc, st)
  end.

(** The comparison of the indentation with the top of the indent stack.
    On an increase the new width is pushed once and one INDENT is added per
    four columns; on a decrease one entry is popped and one DEDENT is added
    per four columns. *)
Definition pop_indent (st : t) : t :=
  addToken TokenType.DEDENT (with_indentStack (tl (indentStack st)) st).

Definition indentation (accLeadingWhiteSpace : nat) (st : t) : Scan t :=
  if negb (accLeadingWhiteSpace mod 4 =? 0)
  then Fails (FrontEndError "NonFourIndentError")
  else
    match indentStack st with
    | [] => Scanned st
    | tos :: _ =>
        if tos <? accLeadingWhiteSpace then
          Scanned
            (Nat.iter ((accLeadingWhiteSpace - tos) / 4)
               (addToken TokenType.INDENT)
               (with_indentStack (accLeadingWhiteSpace :: indentStack st) st))
        else if accLeadingWhiteSpace <? tos then
          Scanned (Nat.iter ((tos - accLeadingWhiteSpace) / 4) pop_indent st)
        else Scanned st
    end.

(** The case of a line break in [scanToken]. *)
Definition newline (st : t) : Scan t :=
  if 0 <? parenthesesLevel st then Scanned (next_line st)
  else
    let st1 := next_line (addToken TokenType.NEWLINE st) in
    let '(acc, st2) := leading_spaces st1 in
    let st3 := if is_char (peek st2) "#"%char then skip_comment st2 else st2 in
    let '(acc', st4) := blank_lines false (rest st3) acc st3 in
    indentation acc' st4.

(** *** Single tokens *)

Definition ForbiddenOperatorError : Exception :=
  FrontEndError "ForbiddenOperatorError".

(** [addToken(matches(pattern) ? yes : no)] *)
Definition either (pattern : ascii) (yes no : TokenType.t) (st : t) : t :=
  match matches pattern st with
  | Some st' => addToken yes st'
  | None => addToken no st
  end.

(** An operator whose augmented assignment is forbidden. *)
Definition operator (k : t -> t) (st : t) : Scan t :=
  match matches "="%char st with
  | Some _ => Fails ForbiddenOperatorError
  | None => Scanned (k st)
  end.

Definition is_forbidden_operator (ch : ascii) : bool :=
  is_char ch "@"%char || is_char ch "|"%char || is_char ch "&"%char
  || is_char ch "~"%char || is_char ch "^"%char.

Definition scanToken (st0 : t) : Scan t :=
  let c := peek st0 in
  let st := advance st0 in
  if is_char c "#"%char then Scanned (skip_comment st)
  else if is_char c ":"%char
  then Scanned (either ":"%char TokenType.DOUBLECOLON TokenType.COLON st)
  else if is_char c SPACE then Scanned st
  else if is_char c CR then
    match matches LF st with
    | Some st' => newline st'
    | None => Scanned st
    end
  else if is_char c LF then newline st
  else if is_char c (ascii_of_nat 34) || is_char c "'"%char
  then string_literal c st
  else if is_char c "0"%char then baseNumber st
  else if between 49 57 c || is_char c "."%char then number c st
  else if is_char c "("%char then
    let st1 := addToken TokenType.LPAR st in
    Scanned (with_parenthesesLevel (S (parenthesesLevel st1)) st1)
  else if is_char c ")"%char then
    let st1 := addToken TokenType.RPAR st in
    if parenthesesLevel st1 =? 0
    then Fails (FrontEndError "NonMatchingParenthesesError")
    else Scanned (with_parenthesesLevel (parenthesesLevel st1 - 1) st1)
  else if is_char c ","%char then Scanned (addToken TokenType.COMMA st)
  else if is_char c "-"%char then operator (addToken TokenType.MINUS) st
  else if is_char c "+"%char then operator (addToken TokenType.PLUS) st
  else if is_char c "*"%char
  then operator (either "*"%char TokenType.DOUBLESTAR TokenType.STAR) st
  else if is_char c "/"%char
  then operator (either "/"%char TokenType.DOUBLESLASH TokenType.SLASH) st
  else if is_char c "%"%char then operator (addToken TokenType.PERCENT) st
  else if is_char c "!"%char
  then Scanned (either "="%char TokenType.NOTEQUAL TokenType.BANG st)
  else if is_char c "="%char
  then Scanned (either "="%char TokenType.DOUBLEEQUAL TokenType.EQUAL st)
  else if is_char c "<"%char
  then Scanned (either "="%char TokenType.LESSEQUAL TokenType.LESS st)
  else if is_char c ">"%char
  then Scanned (either "="%char TokenType.GREATEREQUAL TokenType.GREATER st)
  else if is_char c "_"%char || isAlpha c || isLegalUnicode c then name st
  else if is_forbidden_operator c then Fails ForbiddenOperatorError
  else Fails (FrontEndError "UnknownTokenError").

(** *** The whole source *)

(** The loop of [scanEverything] over the source.  A call of [scanToken]
    consumes at least one character, so the loop takes at most as many
    turns as the source has characters, which is the fuel it is given. *)
Fixpoint scan_loop (fuel : nat) (st : t) : Scan t :=
  if isAtEnd st then Scanned st
  else
    match fuel with
    | O => Hangs
    | S fuel' => and_then (scanToken (with_start st)) (scan_loop fuel')
    end.

(** The loop that unravels the indent stack at the end of the source: it
    stops at an entry [0].  On the empty stack the top is [undefined],
    which is not [0], and popping changes nothing: the loop adds DEDENT
    tokens for ever. *)
Fixpoint unravel (stack : list nat) (st : t) : Scan t :=
  match stack with
  | [] => Hangs
  | O :: _ => Scanned (with_indentStack stack st)
  | S _ :: stack' => unravel stack' (addToken TokenType.DEDENT st)
  end.

Definition scanEverything (st : t) : Scan (list Token.t) :=
  and_then (scan_loop (length (source st)) st) (fun st1 =>
  and_then (unravel (indentStack st1) st1) (fun st2 =>
    Scanned (tokens st2
               ++ [Token.mk TokenType.ENDMARKER "" (line st2) (col st2)
                     (current st2)]))).

(** [new Tokenizer(source).scanEverything()] *)
Definition tokenize (source : string) : Scan (list Token.t) :=
  scanEverything (new source).

Definition count (type : TokenType.t) (tokens : list Token.t) : nat :=
  length (filter (fun tok => TokenType.eqb (Token.type tok) type = true) tokens).

(** *** Layout invariants

    The predicates used to state when INDENT and DEDENT tokens balance.
    [levels] holds of an indent stack whose entries are the multiples of
    four from its top down to [0]; [balanced] says that the tokenizer has
    one INDENT without its DEDENT per entry above [0]. *)

Definition is_layout (type : TokenType.t) : bool :=
  TokenType.eqb type TokenType.INDENT || TokenType.eqb type TokenType.DEDENT.

Inductive levels : list nat -> Prop :=
  | levels_base : levels [0]
  | levels_step n stack : levels (n :: stack) -> levels (n + 4 :: n :: stack).

Definition balanced (st : t) : Prop :=
  levels (indentStack st)
  /\ count TokenType.INDENT (tokens st)
     = count TokenType.DEDENT (tokens st) + (length (indentStack st) - 1).

Definition same_layout (st st' : t) : Prop :=
  indentStack st' = indentStack st
  /\ count TokenType.INDENT (tokens st') = count TokenType.INDENT (tokens st)
  /\ count TokenType.DEDENT (tokens st') = count TokenType.DEDENT (tokens st).

Definition keeps_layout (st : t) (s : Scan t) : Prop :=
  forall st', s = Scanned st' -> same_layout st st'.

(** Every turn of the loop of [scanEverything] adds at most one INDENT:
    no line is indented by more than one level more than the line before
    it.  The fuel is that of [scan_loop]. *)
Fixpoint single_level_increases (fuel : nat) (st : t) : bool :=
  if isAtEnd st then true
  else
    match fuel with
    | O => true
    | S fuel' =>
        match scanToken (with_start st) with
        | Scanned st' =>
            (count TokenType.INDENT (tokens st')
               <=? count TokenType.INDENT (tokens st) + 1)
            && single_level_increases fuel' st'
        | _ => true
        end
    end.

End Tokenizer.

(** ** The chunk driver *)

Section Driver.

Context (host : Host).

(** The parser, the resolver and the module loader are not part of this
    development: [parse script tokens] is [new Parser(script, tokens).parse()],
    [resolve code ast] is the error that [new Resolver(code, ast).resolve(ast)]
    raises, if any, and [preloadModules context ast] is the context with
    the modules bound in its global frame. *)
Context (parse : string -> list Token.t -> Exception + Stmt).
Context (resolve : string -> Stmt -> option Exception).
Context (preloadModules : PyContext.t -> Stmt -> Exception + PyContext.t).

Definition runPyAST (code : string) (doValidate : bool)
    : Tokenizer.Scan Stmt :=
  let script := code +:+ newline in
  Tokenizer.and_then (Tokenizer.tokenize script) (fun tokens =>
    match parse script tokens with
    | inl e => Tokenizer.Fails e
    | inr ast =>
        if doValidate then
          match resolve code ast with
          | Some e => Tokenizer.Fails e
          | None => Tokenizer.Scanned ast
          end
        else Tokenizer.Scanned ast
    end).

(** How the promise of [PyRunInContext] settles. *)
Inductive Settled : Type :=
  | Resolved (result : Finished) (ctx : PyContext.t)
  | Rejected (e : Exception) (ctx : PyContext.t)
  | Pending.

Definition PyRunInContext (fuel : nat) (code : string)
    (context : PyContext.t) (options : IOptions) : option Settled :=
  match runPyAST code true with
  | Tokenizer.Fails e => Some (Rejected e context)
  | Tokenizer.Hangs => Some Pending
  | Tokenizer.Scanned ast =>
      match preloadModules context ast with
      | inl e => Some (Rejected e context)
      | inr loaded =>
          match PyRunCSEMachine host fuel code ast loaded options with
          | Some (Returns result ctx') => Some (Resolved result ctx')
          | Some NeverReturns => Some Pending
          | None => None
          end
      end
  end.

Definition defaultOptions : IOptions := mkOptions false 100000 100000.

(** [error instanceof Error]: the runtime error classes of the evaluator do
    not extend [Error]. *)
Definition instanceof_Error (e : Exception) : bool :=
  match e with
  | UnsupportedOperandTypeError _ _ _ | ZeroDivisionError
  | UnboundLocalError _ | NameError _ => false
  | _ => true
  end.

(** [PyEvaluator.evaluateChunk]: the line passed to [conductor.sendOutput]
    and the context that the evaluator keeps for the next chunk. *)
Definition evaluateChunk (fuel : nat) (chunk : string)
    (context : PyContext.t) : option (Returned string) :=
  match PyRunInContext fuel chunk context defaultOptions with
  | Some (Resolved result ctx') => Some (Returns (representation result) ctx')
  | Some (Rejected e ctx') =>
      Some (Returns
              ("Error: " +:+ (if instanceof_Error e then message_of host chunk e
                              else "[object Object]"))
              ctx')
  | Some Pending => Some NeverReturns
  | None => None
  end.

End Driver.

(** ** Sample inputs

    A host whose approximate functions return [NaN] and whose conversions
    between numbers and text are trivial; it serves to run the machine on
    programs over integers, booleans and strings, where none of them is
    called. *)
Definition integer_host : Host :=
  {| Math_pow := fun _ _ => JsNumber.NaN;
     Math_atan2 := fun _ _ => JsNumber.NaN;
     Math_log := fun _ => JsNumber.NaN;
     Math_log10 := fun _ => JsNumber.NaN;
     Math_exp := fun _ => JsNumber.NaN;
     Math_cos := fun _ => JsNumber.NaN;
     Math_sin := fun _ => JsNumber.NaN;
     Number_toString := fun _ => "NaN";
     Number_toExponential := fun _ _ => "NaN";
     Number_toFixed := fun _ _ => "NaN";
     Number_ofString := fun _ => JsNumber.NaN;
     String_localeCompare := fun a b =>
       match String.compare a b with Lt => (-1)%Z | Eq => 0%Z | Gt => 1%Z end;
     Diagnostics_message := fun _ e =>
       match e with
       | UnsupportedOperandTypeError _ _ _ => "TypeError"
       | ZeroDivisionError => "ZeroDivisionError"
       | UnboundLocalError _ => "UnboundLocalError"
       | NameError _ => "NameError"
       | JsError message => message
       | EngineTypeError => "TypeError"
       | EngineRangeError => "RangeError"
       | EngineSyntaxError => "SyntaxError"
       | FrontEndError name => name
       end |}.

(** A token of a given type and text, at the start of the source. *)
Definition token (type : TokenType.t) (lexeme : string) : Token.t :=
  Token.mk type lexeme 0 0 0.

(** ** Name resolution, as the specification words it

    The frames reached from a frame by following [tail] pointers up to
    [null], and the first of them that binds a name. *)
Inductive chain (store : list PyEnvironment.t)
    : option addr -> list (addr * PyEnvironment.t) -> Prop :=
  | chain_end : chain store None []
  | chain_step a env frames :
      store !! a = Some env ->
      chain store (PyEnvironment.tail env) frames ->
      chain store (Some a) ((a, env) :: frames).

Fixpoint first_binding (frames : list (addr * PyEnvironment.t))
    (name : string) : option Value :=
  match frames with
  | [] => None
  | (_, env) :: frames' =>
      match PyEnvironment.head env !! name with
      | Some v => Some v
      | None => first_binding frames' name
      end
  end.

(** The result of a [BoolOp] as the specification words it: [left] if the
    operator is [or] and [left] is truthy, or the operator is [and] and
    [left] is falsy; [right] otherwise. *)
Definition BoolOp_result (operator : TokenType.t) (left right : Value)
    : Value :=
  if (TokenType.eqb operator TokenType.OR && negb (isFalsy left))
     || (TokenType.eqb operator TokenType.AND && isFalsy left)
  then left else right.

(** The integer part of a finite number, rounded toward zero. *)
Definition truncation (x : float) : Z :=
  Z.quot (JsNumber.numerator x) (JsNumber.denominator x).

(** The operands that the numeric branch is specified for. *)
Definition is_numeric (v : Value) : bool :=
  match v with
  | VBigint _ | VNumber _ | VBool _ => true
  | _ => false
  end.

(** Sample programs: [x = 3; y = 4; x + y], [print('a')] and
    [True or 1]. *)
Definition variable (s : string) : Expr :=
  VariableExpr (token TokenType.NAME s).

Definition sum_program : Stmt :=
  FileInput
    [Assign (token TokenType.NAME "x") (BigIntLiteral "3");
     Assign (token TokenType.NAME "y") (BigIntLiteral "4");
     SimpleExpr (Binary (variable "x") (token TokenType.PLUS "+")
                   (variable "y"))]
    [].

Definition print_program : Stmt :=
  FileInput [SimpleExpr (Call (variable "print") [Literal (LitString "a")])] [].

Definition or_expression : Expr :=
  BoolOp (Literal (LitBoolean true)) (token TokenType.OR "or")
    (BigIntLiteral "1").

(** A host function that ignores its arguments and returns the bigint 1,
    wrapped as a foreign closure. *)
Definition constant_one : JsClosure.t :=
  JsClosure.mk "0" (fun _ => HostReturn (JsBigInt 1)).

(** A conditional whose body is indented by eight columns. *)
Definition jump_source : string :=
  "if x:" +:+ newline +:+ "        1".

(** A conditional whose branches are indented by four columns. *)
Definition if_else_source : string :=
  "if x:" +:+ newline +:+ "    1" +:+ newline
  +:+ "else:" +:+ newline +:+ "    2" +:+ newline.

(** A context inside a call of a function that assigns [x] later: the
    frame of the call does not bind [x] yet, the global frame binds [x]
    and [y]. *)
Definition later_closure : PyClosure.t :=
  PyClosure.mk "0"
    (FunctionDefNode (token TokenType.NAME "g") []
       [SimpleExpr (variable "x");
        Assign (token TokenType.NAME "x") (BigIntLiteral "5")] [])
    (Some 0) false {[ "x" ]}.

Definition global_frame : PyEnvironment.t :=
  PyEnvironment.mk "global" None
    (<["x" := VBigint 1]> (<["y" := VBigint 2]> ∅)) "-1" None None.

Definition later_frame : PyEnvironment.t :=
  PyEnvironment.mk "g" (Some 0) ∅ "1" None (Some later_closure).

Definition later_context : PyContext.t :=
  PyContext.mk [] [] "" [] [1; 0] [global_frame; later_frame] 2 [] true 0.

(** The types of argument on which [_int] returns an error value: any
    value but a Float, a BigInt and the JavaScript [undefined]. *)
Definition rejected_by_int (arg : Value) : bool :=
  match arg with
  | VNumber _ | VBigint _ | VJsUndefined => false
  | _ => true
  end.

(** The front end used for the sample chunks: the parser returns the given
    program, the resolver accepts it and no module is loaded. *)
Definition parses_to (program : Stmt)
    : string -> list Token.t -> Exception + Stmt :=
  fun _ _ => inr program.

Definition accepts : string -> Stmt -> option Exception := fun _ _ => None.

Definition loads_nothing : PyContext.t -> Stmt -> Exception + PyContext.t :=
  fun context _ => inr context.

(** ** Notions used in the properties of the operators and the machine *)

(** Whether a call ends normally. *)
Definition completes {A} (c : Completion A) : bool :=
  match c with Normal _ => true | _ => false end.

(** The values that cross the border to host functions unchanged: BigInt,
    Float, String and Bool. *)
Definition is_primitive (v : Value) : bool :=
  match v with
  | VBigint _ | VNumber _ | VString _ | VBool _ => true
  | _ => false
  end.

Definition is_primitive_js (j : JsValue) : bool :=
  match j with
  | JsBigInt _ | JsNumber _ | JsString _ | JsBoolean _ => true
  | _ => false
  end.

(** The outcome of a lookup, apart from the context. *)
Definition outcome {A} (r : Result A) : Exception + option A :=
  match r with
  | Ok a _ => inr (Some a)
  | Raise e _ => inl e
  | Loops => inr None
  end.

(** The result of a call that ends normally. *)
Definition normal {A} (c : Completion A) : option A :=
  match c with Normal a => Some a | _ => None end.

(** The value of an expression without calls and function definitions, by
    recursion on the expression: the operands of an operator are the values
    of its operand expressions and the result is what the operator function
    of the evaluator returns on them; a conditional expression has the value
    of the branch that its condition selects.  The value is [None] when an
    operator function or a lookup raises, or when an operand is the
    JavaScript [undefined]. *)
Fixpoint value_of_expression (host : Host) (ctx : PyContext.t) (e : Expr)
    : option Value :=
  match e with
  | NoneExpr => Some VUndefined
  | Literal (LitNumber x) => Some (VNumber x)
  | Literal (LitBoolean b) => Some (VBool b)
  | Literal (LitString s) => Some (VString s)
  | Literal LitNull => Some VUndefined
  | BigIntLiteral s => VBigint <$> BigInt_ofString s
  | Complex c => Some (VComplex c)
  | Grouping e' => value_of_expression host ctx e'
  | VariableExpr name =>
      match pyGetVariable (Token.lexeme name) ctx with
      | Ok v _ => Some v
      | _ => None
      end
  | Unary operator operand =>
      v ← value_of_expression host ctx operand;
      if truthy v then normal (evaluateUnaryExpression (Token.type operator) v)
      else None
  | Binary lhs operator rhs | Compare lhs operator rhs =>
      vl ← value_of_expression host ctx lhs;
      vr ← value_of_expression host ctx rhs;
      if truthy vl && truthy vr
      then normal (evaluateBinaryExpression host (Token.type operator) vl vr)
      else None
  | BoolOp lhs operator rhs =>
      vl ← value_of_expression host ctx lhs;
      vr ← value_of_expression host ctx rhs;
      if truthy vl && truthy vr
      then normal (evaluateBoolExpression (Token.type operator) vl vr)
      else None
  | Ternary predicate consequent alternative =>
      vp ← value_of_expression host ctx predicate;
      if truthy vp then
        if isFalsy vp then value_of_expression host ctx alternative
        else value_of_expression host ctx consequent
      else None
  | _ => None
  end.

(** Two contexts that differ at most in the Control, the Stash, the list
    of visited nodes and the step counter. *)
Definition same_memory (ctx ctx' : PyContext.t) : Prop :=
  PyContext.output ctx' = PyContext.output ctx
  /\ PyContext.errors ctx' = PyContext.errors ctx
  /\ PyContext.environments ctx' = PyContext.environments ctx
  /\ PyContext.store ctx' = PyContext.store ctx
  /\ PyContext.objectCount ctx' = PyContext.objectCount ctx
  /\ PyContext.isRunning ctx' = PyContext.isRunning ctx.

(** A run of some turns from [ctx] that ends in a context with the
    property [P]. *)
Definition lands (host : Host) (isPrelude : bool) (steps : nat)
    (ctx : PyContext.t) (P : PyContext.t -> Prop) : Prop :=
  exists n ctx',
    turns host n isPrelude steps ctx = Ok (steps + n) ctx' /\ P ctx'.

(** An expression whose evaluation, from any context with the memory of
    [ctx0] and the expression on top of the Control, leaves the rest of the
    Control, the value [v] pushed on the Stash and the memory of [ctx0]. *)
Definition evaluates (host : Host) (isPrelude : bool) (ctx0 : PyContext.t)
    (e : Expr) (v : Value) : Prop :=
  forall (ctx : PyContext.t) (rest : list ControlItem) (steps : nat),
    same_memory ctx0 ctx ->
    PyContext.control ctx = expression e :: rest ->
    lands host isPrelude steps ctx
      (fun ctx' =>
         PyContext.control ctx' = rest
         /\ PyContext.stash ctx' = v :: PyContext.stash ctx
         /\ same_memory ctx0 ctx').

(** The Control items that a branch target puts on the Control. *)
Definition target_items (target : option BranchTarget) : list ControlItem :=
  match target with
  | Some (StatementSequence body) => statements body
  | Some (BranchNode n) => [CNode n]
  | None => []
  end.

Definition else_target (elseBlock : ElseBlock) : option BranchTarget :=
  match elseBlock with
  | ElseNull => None
  | ElseArray l => Some (StatementSequence l)
  | ElseNode s => Some (BranchNode (StmtNode s))
  end.

(** The values of the argument expressions of a call, in the order of the
    call. *)
Fixpoint values_of_expressions (host : Host) (ctx : PyContext.t)
    (args : list Expr) : option (list Value) :=
  match args with
  | [] => Some []
  | e :: args' =>
      v ← value_of_expression host ctx e;
      vs ← values_of_expressions host ctx args';
      Some (v :: vs)
  end.

(** The Control items of the body of a closure: the statements of a [def]
    followed by the end-of-body marker, or the expression of a [lambda]. *)
Definition body_items (n : FunctionNode) (srcNode : Node)
    : list ControlItem :=
  match n with
  | FunctionDefNode _ _ body _ =>
      statements body ++ [CInstr (endOfFunctionBodyInstr srcNode)]
  | LambdaNode _ body => [expression body]
  end.

Definition frame_name (n : FunctionNode) : string :=
  match n with
  | FunctionDefNode name _ _ _ => Token.lexeme name
  | LambdaNode _ _ => "lambda"
  end.

(** The frame that the call of a closure creates. *)
Definition call_frame (closure : PyClosure.t) (args : list Value)
    (callExpression : Node) (objectCount : nat) : PyEnvironment.t :=
  PyEnvironment.mk (frame_name (PyClosure.node closure))
    (PyClosure.environment closure)
    (bind_parameters ∅ (parameters_of (PyClosure.node closure)) args)
    (nat_toString objectCount) (Some callExpression) (Some closure).

(** The context after [pyHandleRuntimeError] has recorded an error. *)
Definition with_error (e : Exception) (ctx : PyContext.t) : PyContext.t :=
  PyContext.mk (PyContext.control ctx) (PyContext.stash ctx)
    (PyContext.output ctx) (PyContext.errors ctx ++ [e])
    (PyContext.environments ctx) (PyContext.store ctx)
    (PyContext.objectCount ctx) (PyContext.nodes ctx)
    (PyContext.isRunning ctx) (PyContext.envStepsTotal ctx).

(** A frame of the store and what it has become after some steps: the
    same frame with at least the bindings it had. *)
Definition frame_kept (env env' : PyEnvironment.t) : Prop :=
  PyEnvironment.name env' = PyEnvironment.name env
  /\ PyEnvironment.tail env' = PyEnvironment.tail env
  /\ PyEnvironment.id env' = PyEnvironment.id env
  /\ PyEnvironment.callExpression env' = PyEnvironment.callExpression env
  /\ PyEnvironment.closure env' = PyEnvironment.closure env
  /\ forall x, is_Some (PyEnvironment.head env !! x) ->
               is_Some (PyEnvironment.head env' !! x).

Definition frames_kept (ctx ctx' : PyContext.t) : Prop :=
  PyContext.objectCount ctx <= PyContext.objectCount ctx'
  /\ forall a env,
       PyContext.store ctx !! a = Some env ->
       exists env',
         PyContext.store ctx' !! a = Some env' /\ frame_kept env env'.

(** A computation all of whose runs are in the relations [Rok] and
    [Rraise]: [Rok] relates the context before the computation to the
    context after it when it ends normally, [Rraise e] the context before
    it to the context when it raises [e]. *)
Definition keeps_relations (Rok : PyContext.t -> PyContext.t -> Prop)
    (Rraise : Exception -> PyContext.t -> PyContext.t -> Prop)
    {A} (m : M A) : Prop :=
  forall ctx,
    match m ctx with
    | Ok _ ctx' => Rok ctx ctx'
    | Raise e ctx' => Rraise e ctx ctx'
    | Loops => True
    end.

(** ** Well-formed contexts

    In a store of [n] frames, a closure is valid when the environment in
    which it was created is one of the frames, and a frame at address [i]
    is valid when its parent has a smaller address and the closures that
    it binds are valid.  A context is well formed when its frames, the
    closures on its Stash and the addresses of [environments] are valid. *)

Definition valid_address (n : nat) (a : option addr) : Prop :=
  match a with
  | Some j => j < n
  | None => True
  end.

Definition valid_value (n : nat) (v : Value) : Prop :=
  match v with
  | VPyClosure c => valid_address n (PyClosure.environment c)
  | _ => True
  end.

Definition valid_frame (n i : nat) (env : PyEnvironment.t) : Prop :=
  valid_address i (PyEnvironment.tail env)
  /\ map_Forall (fun _ v => valid_value n v) (PyEnvironment.head env).

Definition well_formed (ctx : PyContext.t) : Prop :=
  let n := length (PyContext.store ctx) in
  Forall (fun a => a < n) (PyContext.environments ctx)
  /\ (forall i env, PyContext.store ctx !! i = Some env -> valid_frame n i env)
  /\ Forall (valid_value n) (PyContext.stash ctx).

(** A computation that, on a well-formed context with [n] frames, ends
    with a well-formed context, does not loop, and whose result and number
    of frames satisfy [Q] when it ends normally. *)
Definition spec {A} (n : nat) (m : M A) (Q : A -> nat -> Prop) : Prop :=
  forall ctx,
    well_formed ctx ->
    length (PyContext.store ctx) = n ->
    match m ctx with
    | Ok a ctx' => well_formed ctx' /\ Q a (length (PyContext.store ctx'))
    | Raise _ ctx' => well_formed ctx'
    | Loops => False
    end.

(** ** Progress of the tokenizer

    [forward st st'] says that [st'] reads the source of [st] at the same
    position or further, and [proceeds st s] that the scanning method whose
    outcome is [s] ends, and ends further in the same source when it
    returns. *)

Definition forward (st st' : Tokenizer.t) : Prop :=
  Tokenizer.source st' = Tokenizer.source st
  /\ Tokenizer.current st <= Tokenizer.current st'.

Definition proceeds (st : Tokenizer.t) (s : Tokenizer.Scan Tokenizer.t)
    : Prop :=
  match s with
  | Tokenizer.Scanned st' => forward st st'
  | Tokenizer.Fails _ => True
  | Tokenizer.Hangs => False
  end.

(** The characters on which [scanToken] calls [name]: those that no case
    of its [switch] takes and that may start an identifier. *)
Definition starts_name (c : ascii) : bool :=
  negb (Tokenizer.is_char c Tokenizer.SPACE)
  && negb (Tokenizer.is_char c Tokenizer.CR)
  && negb (Tokenizer.is_char c Tokenizer.LF)
  && (Tokenizer.is_char c "_"%char || Tokenizer.isAlpha c
      || Tokenizer.isLegalUnicode c).

(** ** Further sample inputs *)

(** [(1 + 2) * 3 < 10 if True else None] *)
Definition sample_expression : Expr :=
  Ternary (Literal (LitBoolean true))
    (Compare
       (Binary
          (Grouping
             (Binary (BigIntLiteral "1") (token TokenType.PLUS "+")
                (BigIntLiteral "2")))
          (token TokenType.STAR "*") (BigIntLiteral "3"))
       (token TokenType.LESS "<") (BigIntLiteral "10"))
    NoneExpr.

(** The closure of [def f(x): return x], created in the global frame, a
    context whose global frame binds [f] to it and whose Control holds the
    call [f(1)], and the program that defines and calls [f]. *)
Definition identity_closure : PyClosure.t :=
  PyClosure.mk "0"
    (FunctionDefNode (token TokenType.NAME "f") [token TokenType.NAME "x"]
       [Return (Some (variable "x"))] [])
    (Some 0) false ∅.

Definition identity_call : Expr := Call (variable "f") [BigIntLiteral "1"].

Definition call_context : PyContext.t :=
  PyContext.mk [expression identity_call] [] "" [] [0]
    [PyEnvironment.mk "global" None
       (<["f" := VPyClosure identity_closure]> ∅) "-1" None None]
    1 [] true 0.

Definition call_program : Stmt :=
  FileInput
    [FunctionDef (token TokenType.NAME "f") [token TokenType.NAME "x"]
       [Return (Some (variable "x"))] [];
     SimpleExpr identity_call]
    [].

(** [if False: 1] and [x = 3] *)
Definition if_statement : Stmt :=
  If (Literal (LitBoolean false)) [SimpleExpr (BigIntLiteral "1")] ElseNull.

Definition assign_statement : Stmt :=
  Assign (token TokenType.NAME "x") (BigIntLiteral "3").

(** A new context in which [a] has been printed. *)
Definition printed_context : PyContext.t :=
  set_output ("a" +:+ newline) PyContext_new.

(** The closure that a [def] statement or a [lambda] expression creates in
    a context, and the context [uniqueId] leaves. *)
Definition closure_of (node : FunctionNode) (ctx : PyContext.t)
    : PyClosure.t :=
  PyClosure.mk (nat_toString (PyContext.objectCount ctx)) node
    (currentEnvironment ctx) false
    match node with
    | FunctionDefNode _ _ body _ => scanForAssignments_array body
    | LambdaNode _ body => scanForAssignments_expr body
    end.

(** The context of the call [f(1)] of [identity_closure] from
    [call_context]: the frame of the call is the current one. *)
Definition called_context : PyContext.t :=
  set_environments [1; 0]
    (set_store
       (PyContext.store call_context
          ++ [call_frame identity_closure [VBigint 1] (ExprNode identity_call)
                1])
       call_context).

(** [def f(x): return x] *)
Definition identity_definition : Stmt :=
  FunctionDef (token TokenType.NAME "f") [token TokenType.NAME "x"]
    [Return (Some (variable "x"))] [].

(** The expression whose value a closure returns first: the body of a
    [lambda], or the expression of a [return] statement that opens the body
    of a [def]. *)
Definition returned_expression (n : FunctionNode) : option Expr :=
  match n with
  | FunctionDefNode _ _ (Return (Some e) :: _) _ => Some e
  | LambdaNode _ e => Some e
  | _ => None
  end.

(** The memory of a context once the frame of a call has been created and
    pushed. *)
Definition called (closure : PyClosure.t) (args : list Value)
    (callExpression : Node) (ctx : PyContext.t) : PyContext.t :=
  set_objectCount (S (PyContext.objectCount ctx))
    (set_environments
       (length (PyContext.store ctx) :: PyContext.environments ctx)
       (set_store
          (PyContext.store ctx
             ++ [call_frame closure args callExpression
                   (PyContext.objectCount ctx)])
          ctx)).

(** ** The source line of an error

    [getFullLine$1] (for the errors of the evaluator) and [getFullLine]
    (for those of the tokenizer, the parser and the resolver) search the
    source backwards and forwards from a position for line breaks;
    [createErrorIndicator$1] draws the line of tildes with a caret under
    the position of the error.  The source is a list of characters and a
    position is a natural number. *)

(** [source[i] == '\n'] *)
Definition is_line_break_at (source : list ascii) (i : nat) : bool :=
  match source !! i with
  | Some c => Tokenizer.is_char c Tokenizer.LF
  | None => false
  end.

(** [while (back > 0 && source[back] != '\n') back--] *)
Fixpoint line_start (source : list ascii) (back : nat) : nat :=
  match back with
  | O => O
  | S back' =>
      if is_line_break_at source back then back else line_start source back'
  end.

(** [while (forward < source.length && source[forward] != '\n') forward++] *)
Definition line_end (source : list ascii) (forward : nat) : nat :=
  forward
  + length (take_while (fun c => negb (Tokenizer.is_char c Tokenizer.LF))
              (drop forward source)).

(** [text.split('\n').length] *)
Definition lines_of (l : list ascii) : nat :=
  S (count_occ Ascii.ascii_dec l Tokenizer.LF).

(** The end of both functions, from the value of [back] after its loop. *)
Definition line_from (source : list ascii) (back forward : nat)
    : nat * list ascii :=
  let back := if is_line_break_at source back then S back else back in
  (lines_of (take back source), take (forward - back) (drop back source)).

(** [getFullLine$1(source, current)] *)
Definition getFullLine_1 (source : list ascii) (current : nat)
    : nat * list ascii :=
  line_from source (line_start source current) (line_end source current).

(** [getFullLine(source, current)]: on a line break, the search backwards
    starts one character earlier.  At position [0] that is the position
    [-1]: the loop and the test that follow it do nothing, and [slice]
    counts a negative position from the end of the source. *)
Definition getFullLine (source : list ascii) (current : nat)
    : nat * list ascii :=
  if is_line_break_at source current then
    match current with
    | O => (lines_of (take (length source - 1) source), [])
    | S back => line_from source (line_start source back)
                  (line_end source current)
    end
  else getFullLine_1 source current.

(** [createErrorIndicator$1(snippet, errorPos)]; [i] is the loop counter
    and [n] the number of turns that are left. *)
Fixpoint indicator_from (i : nat) (n : nat) (errorPos : Z) : list ascii :=
  match n with
  | O => []
  | S n' =>
      (if (Z.of_nat i =? errorPos)%Z then "^"%char else "~"%char)
        :: indicator_from (S i) n' errorPos
  end.

Definition createErrorIndicator_1 (snippet : list ascii) (errorPos : Z)
    : list ascii :=
  indicator_from 0 (length snippet) errorPos.

(** * Properties *)

(** ** Floor division and modulo on integers *)

Section Arithmetic.

Local Open Scope Z_scope.

Lemma pythonMod_bigint_modulo (a b : Z) :
  b <> 0 -> pythonMod_bigint a b = a mod b.
Proof.
  intros Hb. unfold pythonMod_bigint.
  pose proof (Z.quot_rem' a b) as Hqr.
  assert (Hbound :
    (0 < b -> 0 <= a -> 0 <= Z.rem a b < b) /\
    (0 < b -> a <= 0 -> - b < Z.rem a b <= 0) /\
    (b < 0 -> 0 <= a -> 0 <= Z.rem a b < - b) /\
    (b < 0 -> a <= 0 -> b < Z.rem a b <= 0)).
  { split; [ intros; apply Z.rem_bound_pos_pos; lia | ].
    split; [ intros; apply Z.rem_bound_pos_neg; lia | ].
    split; [ intros; apply Z.rem_bound_neg_pos; lia | ].
    intros; apply Z.rem_bound_neg_neg; lia. }
  destruct Hbound as (Hpp & Hpn & Hnp & Hnn).
  destruct (Z.ltb_spec (Z.rem a b) 0), (Z.ltb_spec 0 b),
           (Z.ltb_spec 0 (Z.rem a b)), (Z.ltb_spec b 0); simpl;
    try lia;
    first [ apply Z.mod_unique with (q := Z.quot a b); lia
          | apply Z.mod_unique with (q := Z.quot a b - 1); lia ].
Qed.

Lemma floor_quotient (a b : Z) :
  b <> 0 -> Z.quot (a - pythonMod_bigint a b) b = a / b.
Proof.
  intros Hb. rewrite pythonMod_bigint_modulo by assumption.
  replace (a - a mod b) with (a / b * b)
    by (pose proof (Z.div_mod a b Hb); lia).
  now apply Z.quot_mul.
Qed.

End Arithmetic.

(** C2: for all integers [a] and [b] with [b <> 0], the floor division and
    the modulo of the machine return integers [q] and [m] such that the
    machine evaluates [a == q * b + m] to [True], that is [a = q * b + m],
    and the sign of [m] is [0] or the sign of the divisor [b]. *)
Theorem floor_division_identity (host : Host) (a b : Z) :
  b <> 0%Z ->
  exists q m : Z,
    evaluateBinaryExpression host TokenType.DOUBLESLASH (VBigint a) (VBigint b)
      = Normal (VBigint q)
    /\ evaluateBinaryExpression host TokenType.PERCENT (VBigint a) (VBigint b)
       = Normal (VBigint m)
    /\ (exists p s : Z,
          evaluateBinaryExpression host TokenType.STAR (VBigint q) (VBigint b)
            = Normal (VBigint p)
          /\ evaluateBinaryExpression host TokenType.PLUS (VBigint p) (VBigint m)
             = Normal (VBigint s)
          /\ evaluateBinaryExpression host TokenType.DOUBLEEQUAL (VBigint a)
               (VBigint s)
             = Normal (VBool true))
    /\ a = (q * b + m)%Z
    /\ (Z.sgn m = 0 \/ Z.sgn m = Z.sgn b)%Z.
Proof.
  intros Hb.
  exists (a / b)%Z, (a mod b)%Z.
  assert (Hid : a = (a / b * b + a mod b)%Z)
    by (pose proof (Z.div_mod a b Hb); lia).
  cbn -[Z.quot Z.rem Z.div Z.modulo Z.mul Z.add Z.sub].
  unfold binary_numeric, arithmetic_bigint; cbn -[Z.quot Z.div Z.modulo Z.mul Z.add Z.sub pythonMod_bigint].
  destruct (Z.eqb_spec b 0) as [? | _]; [contradiction | ].
  rewrite floor_quotient, pythonMod_bigint_modulo by assumption.
  repeat split.
  - exists (a / b * b)%Z, (a / b * b + a mod b)%Z.
    repeat split. cbn -[Z.div Z.modulo Z.mul Z.add].
    rewrite <- Hid, Z.ltb_irrefl, Z.eqb_refl. reflexivity.
  - exact Hid.
  - destruct (Z.lt_trichotomy b 0) as [Hneg | [Hz | Hpos]]; [ | lia | ].
    + pose proof (Z.mod_neg_bound a b Hneg). lia.
    + pose proof (Z.mod_pos_bound a b Hpos). lia.
Qed.

Lemma floor_division_identity_witness :
  (-3 <> 0)%Z
  /\ exists q m : Z,
       evaluateBinaryExpression integer_host TokenType.DOUBLESLASH
         (VBigint 10) (VBigint (-3)) = Normal (VBigint q)
       /\ evaluateBinaryExpression integer_host TokenType.PERCENT
            (VBigint 10) (VBigint (-3)) = Normal (VBigint m)
       /\ (exists p s : Z,
             evaluateBinaryExpression integer_host TokenType.STAR (VBigint q)
               (VBigint (-3)) = Normal (VBigint p)
             /\ evaluateBinaryExpression integer_host TokenType.PLUS
                  (VBigint p) (VBigint m) = Normal (VBigint s)
             /\ evaluateBinaryExpression integer_host TokenType.DOUBLEEQUAL
                  (VBigint 10) (VBigint s) = Normal (VBool true))
       /\ 10%Z = (q * -3 + m)%Z
       /\ (Z.sgn m = 0 \/ Z.sgn m = Z.sgn (-3))%Z.
Proof.
  split; [ lia | apply (floor_division_identity integer_host 10 (-3)); lia ].
Defined.

(** The fourth scenario of the specification: [10 // -3] is [-4] and
    [10 % -3] is [-2]. *)
Example floor_division_scenario :
  evaluateBinaryExpression integer_host TokenType.DOUBLESLASH
    (VBigint 10) (VBigint (-3)) = Normal (VBigint (-4))
  /\ evaluateBinaryExpression integer_host TokenType.PERCENT
       (VBigint 10) (VBigint (-3)) = Normal (VBigint (-2)).
Proof. split; reflexivity. Qed.

(** ** The numeric branch of binary expressions *)

(** What the numeric branch does by type: with a Float or a Bool operand
    the result of an arithmetic operator is a Float, or the zero-division
    error is raised. *)
Lemma number_operand_gives_number (host : Host) (operator : TokenType.t)
    (left right : Value) :
  is_arithmetic operator = true ->
  is_numeric left = true -> is_numeric right = true ->
  (forall a b, (left, right) <> (VBigint a, VBigint b)) ->
  (exists x, evaluateBinaryExpression host operator left right
             = Normal (VNumber x))
  \/ evaluateBinaryExpression host operator left right
     = Handled ZeroDivisionError.
Proof.
  intros Hop Hl Hr Hmixed.
  destruct left; try discriminate Hl; destruct right; try discriminate Hr;
    try (exfalso; eapply Hmixed; reflexivity);
    destruct operator; try discriminate Hop;
    cbn -[JsNumber.add JsNumber.sub JsNumber.mul JsNumber.div JsNumber.floor
          JsNumber.eqb JsNumber.ltb JsNumber.of_Z pythonMod_number];
    unfold binary_numeric, arithmetic_number;
    cbn -[JsNumber.add JsNumber.sub JsNumber.mul JsNumber.div JsNumber.floor
          JsNumber.eqb JsNumber.ltb JsNumber.of_Z pythonMod_number];
    repeat match goal with
           | |- context [if ?c then _ else _] => destruct c
           end;
    eauto.
Qed.

(** With two BigInt operands the result is a BigInt, except that [/] gives
    a Float, that [**] with a negative exponent gives a Float, and that a
    zero divisor (or a zero base with a negative exponent) raises the
    zero-division error. *)
Lemma bigint_operands_give_bigint (host : Host) (operator : TokenType.t)
    (a b : Z) :
  is_arithmetic operator = true ->
  match evaluateBinaryExpression host operator (VBigint a) (VBigint b) with
  | Normal (VBigint _) =>
      operator <> TokenType.SLASH
      /\ (operator = TokenType.DOUBLESTAR -> (0 <= b)%Z)
  | Normal (VNumber _) =>
      operator = TokenType.SLASH
      \/ (operator = TokenType.DOUBLESTAR /\ (b < 0)%Z)
  | Handled ZeroDivisionError =>
      (b = 0%Z /\ operator <> TokenType.DOUBLESTAR)
      \/ (operator = TokenType.DOUBLESTAR /\ a = 0%Z /\ (b < 0)%Z)
  | _ => False
  end.
Proof.
  intros Hop.
  destruct operator; try discriminate Hop;
    cbn -[Z.quot Z.pow Z.mul Z.add Z.sub pythonMod_bigint JsNumber.div
          JsNumber.of_Z];
    unfold binary_numeric, arithmetic_bigint;
    cbn -[Z.quot Z.pow Z.mul Z.add Z.sub pythonMod_bigint JsNumber.div
          JsNumber.of_Z];
    repeat match goal with
           | |- context [(?x =? ?y)%Z] => destruct (Z.eqb_spec x y)
           | |- context [(?x <? ?y)%Z] => destruct (Z.ltb_spec x y)
           end;
    cbn; intuition (try discriminate; try lia; auto).
Qed.

(** C1: with a Bool operand the claim does not hold on the code.  The
    binary operators coerce a Bool to the number 1 or 0 with type
    ['number'], not to an integer: [True + 1] is the Float [2.0] where the
    claim has the BigInt [2], although the unary operators of the same file
    coerce [True] to the BigInt [1]. *)
Theorem bool_operand_becomes_float (host : Host) :
  evaluateBinaryExpression host TokenType.PLUS (VBool true) (VBigint 1)
    = Normal (VNumber (JsNumber.of_Z 2))
  /\ evaluateUnaryExpression TokenType.PLUS (VBool true)
     = Normal (VBigint 1).
Proof. split; reflexivity. Qed.

(** C9: for numeric operands (BigInt, Float or Bool) and one of the
    operators [is], [is not], [in], [not in], [evaluateBinaryExpression]
    returns the value [{type: 'error', message: 'todo error'}]; the handler
    of the instruction pushes it onto the Stash in place of the operands
    and leaves [context.errors] as it was, and no error is raised; the
    [Compare] node is what puts that instruction on the Control. *)
Theorem identity_membership_todo_error (host : Host)
    (operator : TokenType.t) (left right : Value) :
  operator = TokenType.IS \/ operator = TokenType.ISNOT
  \/ operator = TokenType.IN \/ operator = TokenType.NOTIN ->
  is_numeric left = true ->
  is_numeric right = true ->
  evaluateBinaryExpression host operator left right
    = Normal (VError "todo error")
  /\ (forall (ctx : PyContext.t) (srcNode : Node) (stash : list Value),
        PyContext.stash ctx = right :: left :: stash ->
        exists ctx',
          step host (CInstr (binOpInstr operator srcNode)) ctx = Ok tt ctx'
          /\ PyContext.stash ctx' = VError "todo error" :: stash
          /\ PyContext.errors ctx' = PyContext.errors ctx
          /\ PyContext.control ctx' = tl (PyContext.control ctx))
  /\ (forall (ctx : PyContext.t) (lhs rhs : Expr) (tok : Token.t),
        Token.type tok = operator ->
        exists ctx',
          step host (expression (Compare lhs tok rhs)) ctx = Ok tt ctx'
          /\ PyContext.control ctx'
             = expression lhs :: expression rhs
               :: CInstr (binOpInstr operator (ExprNode (Compare lhs tok rhs)))
               :: tl (PyContext.control ctx)
          /\ PyContext.stash ctx' = PyContext.stash ctx
          /\ PyContext.errors ctx' = PyContext.errors ctx).
Proof.
  intros Hop Hl Hr.
  assert (Heval : evaluateBinaryExpression host operator left right
                  = Normal (VError "todo error")).
  { destruct left; try discriminate Hl; destruct right; try discriminate Hr;
      destruct Hop as [-> | [-> | [-> | ->]]]; reflexivity. }
  split; [ exact Heval | split ].
  - intros ctx srcNode stash Hstash.
    destruct ctx as [c s o errs envs st oc ns r t]. cbn in Hstash. subst s.
    eexists. unfold step, bind, modify, evaluate_instr, stash_pop, bind.
    cbn -[evaluateBinaryExpression].
    assert (Htruthy : truthy left && truthy right = true)
      by (destruct left; try discriminate Hl;
          destruct right; try discriminate Hr; reflexivity).
    rewrite Htruthy, Heval. cbn. repeat split.
  - intros ctx lhs rhs tok Htok.
    destruct ctx as [c s o errs envs st oc ns r t].
    eexists. cbn. rewrite Htok. repeat split.
Qed.

Lemma identity_membership_todo_error_witness :
  (TokenType.IS = TokenType.IS \/ TokenType.IS = TokenType.ISNOT
   \/ TokenType.IS = TokenType.IN \/ TokenType.IS = TokenType.NOTIN)
  /\ is_numeric (VBigint 1) = true
  /\ is_numeric (VBool true) = true
  /\ evaluateBinaryExpression integer_host TokenType.IS (VBigint 1)
       (VBool true) = Normal (VError "todo error").
Proof.
  split; [ left; reflexivity | ].
  split; [ reflexivity | ].
  split; [ reflexivity | ].
  apply (identity_membership_todo_error integer_host TokenType.IS
           (VBigint 1) (VBool true));
    [ left; reflexivity | reflexivity | reflexivity ].
Defined.

(** ** The built-in [_int] *)

Section IntBuiltIn.

Local Open Scope Z_scope.

Lemma to_BigInt_trunc (x : float) :
  JsNumber.is_finite x = true ->
  JsNumber.to_BigInt (JsNumber.trunc x) = Some (truncation x).
Proof.
  destruct x as [s | s | | s m e]; try discriminate; intros _.
  - reflexivity.
  - unfold truncation, JsNumber.trunc, JsNumber.to_BigInt,
      JsNumber.numerator, JsNumber.denominator.
    destruct (Z.leb_spec 0 e) as [He | He].
    + rewrite (proj2 (Z.leb_le 0 e) He).
      rewrite Z.max_l, Z.max_r by lia.
      now rewrite Z.pow_0_r, Z.quot_1_r.
    + rewrite Z.max_r, Z.max_l by lia. rewrite Z.pow_0_r, Z.mul_1_r.
      set (d := 2 ^ (- e)).
      assert (Hd : 0 < d) by (apply Z.pow_pos_nonneg; lia).
      pose proof (Z.mod_pos_bound (Z.pos m) d Hd) as Hmod.
      pose proof (Z.div_mod (Z.pos m) d ltac:(lia)) as Hdm.
      assert (Hquot : Z.quot (cond_Zopp s (Z.pos m)) d
                      = cond_Zopp s (Z.pos m / d)).
      { destruct s; cbn [cond_Zopp].
        - rewrite Z.quot_opp_l by lia.
          now rewrite Z.quot_div_nonneg by lia.
        - now rewrite Z.quot_div_nonneg by lia. }
      rewrite Hquot.
      pose proof (Z.div_pos (Z.pos m) d ltac:(lia) Hd) as Hk.
      assert (Hprod : 0 <= d * (Z.pos m / d))
        by (apply Z.mul_nonneg_nonneg; lia).
      destruct (Z.eqb_spec (Z.pos m - Z.pos m mod d) 0) as [Hz | Hnz].
      * assert (Hsmall : Z.pos m / d = 0)
          by (apply Z.div_small; lia).
        cbn. rewrite Hsmall. now destruct s.
      * assert (Hpos : 0 < Z.pos m - Z.pos m mod d) by lia.
        rewrite (proj2 (Z.leb_gt 0 e) He).
        rewrite Z2Pos.id by assumption.
        replace (Z.pos m - Z.pos m mod d) with (Z.pos m / d * d) by lia.
        rewrite Z.mod_mul, Z.div_mul by lia. reflexivity.
Qed.

End IntBuiltIn.




(** ** Calls of foreign closures *)

Lemma pop_args_spec (args acc stash : list Value) (ctx : PyContext.t) :
  PyContext.stash ctx = rev args ++ stash ->
  pop_args (length args) acc ctx = Ok (args ++ acc) (set_stash stash ctx).
Proof.
  revert acc ctx. induction args as [ | a args IH] using rev_ind;
    intros acc ctx Hstash.
  - destruct ctx; cbn in *; subst; reflexivity.
  - rewrite length_app, Nat.add_comm. cbn [length Nat.add pop_args].
    rewrite rev_app_distr in Hstash. cbn in Hstash.
    unfold bind at 1. unfold stash_pop. rewrite Hstash.
    rewrite IH by (destruct ctx; reflexivity).
    rewrite <- app_assoc. destruct ctx; reflexivity.
Qed.

(** What [JsClosure.call] returns is a tagged object, which the second
    marshalling of the handler refuses. *)
Lemma marshalled_twice (j : JsValue) (v : Value) :
  marshalToPy j = Normal v ->
  marshalToPy (as_JsValue v)
  = Thrown (JsError "Marshalling of Javascript type 'object is not implemented.").
Proof.
  destruct j; cbn; intros H; inversion H; subst; reflexivity.
Qed.

(** The handler of an application never pushes the result of a foreign
    closure: every such call ends with an exception. *)
Lemma foreign_call_always_raises (host : Host) (c : JsClosure.t)
    (args stash : list Value) (srcNode : Node) (ctx : PyContext.t) :
  PyContext.stash ctx = rev args ++ VJsClosure c :: stash ->
  exists e ctx',
    step host (CInstr (appInstr (length args) srcNode)) ctx = Raise e ctx'.
Proof.
  intros Hstash.
  unfold step, evaluate_instr.
  unfold bind at 1. cbn [modify].
  unfold bind at 1.
  rewrite (pop_args_spec args [] (VJsClosure c :: stash))
    by (destruct ctx; exact Hstash).
  rewrite app_nil_r.
  unfold bind at 1. unfold stash_pop at 1.
  destruct ctx as [ct s o errs envs st oc ns r t]. cbn.
  unfold bind at 1.
  unfold JsClosure_call.
  destruct (unmarshal_all args) as [js | e | e]; cbn; eauto.
  destruct (JsClosure.func c js) as [j | e]; cbn; eauto.
  destruct (marshalToPy j) as [v | e | e] eqn:Hm; cbn; eauto.
  unfold bind. cbn. rewrite (marshalled_twice j v Hm). cbn. eauto.
Qed.


(** ** The step limit *)

(** The loop does not read [envSteps] and [stepLimit]. *)
Lemma loop_ignores_limits (host : Host) (fuel : nat)
    (envSteps stepLimit envSteps' stepLimit' : Z) (isPrelude : bool)
    (steps : nat) (ctx : PyContext.t) :
  loop host fuel envSteps stepLimit isPrelude steps ctx
  = loop host fuel envSteps' stepLimit' isPrelude steps ctx.
Proof.
  revert steps ctx. induction fuel as [ | fuel IH]; intros steps ctx.
  - reflexivity.
  - cbn [loop]. destruct (PyContext.control ctx) as [ | command rest];
      [ reflexivity | ].
    destruct (turn host isPrelude steps command ctx); auto.
Qed.

(** C8: the claim does not hold on the code.  With [envSteps] and
    [stepLimit] both 1, the program [x = 3; y = 4; x + y] runs to its end
    in 12 steps, leaves 7 on the Stash and records 12 in
    [envStepsTotal]. *)
Theorem step_limit_not_enforced :
  exists ctx',
    pyGenerateCSEMachineStateStream integer_host 12 1 1 false
      (set_control [CNode (StmtNode sum_program)] PyContext_new)
    = Some (Ok 12 ctx')
    /\ PyContext.control ctx' = []
    /\ PyContext.stash ctx' = [VBigint 7]
    /\ PyContext.envStepsTotal ctx' = 12.
Proof. eexists. vm_compute. repeat split. Qed.

(** ** Indentation tokens *)

(** C7: the claim does not hold on the code.  On a conditional whose body
    is indented by eight columns, an increase of two levels, the tokenizer
    pushes one entry on the indent stack and emits two INDENT tokens; at
    the end of the source it pops that entry and emits one DEDENT.  When
    the same source ends with a line break, the dedent to column 0 pops two
    entries, the stack is empty, and the loop that unravels it at the end
    of the source does not end.  The counts are equal when every increase
    is one level ([single_levels_balanced] below). *)
Theorem indent_jump_unbalanced :
  (exists tokens,
     Tokenizer.tokenize jump_source = Tokenizer.Scanned tokens
     /\ Tokenizer.count TokenType.INDENT tokens = 2
     /\ Tokenizer.count TokenType.DEDENT tokens = 1)
  /\ Tokenizer.tokenize (jump_source +:+ newline) = Tokenizer.Hangs.
Proof.
  split; [ eexists; split; [ vm_compute; reflexivity | ] | ];
    vm_compute; auto.
Qed.

Section Layout.

Import Tokenizer.

Lemma count_app type l1 l2 :
  count type (l1 ++ l2) = count type l1 + count type l2.
Proof. unfold count. now rewrite filter_app, length_app. Qed.

Lemma count_single type tok :
  count type [tok] = if TokenType.eqb (Token.type tok) type then 1 else 0.
Proof.
  unfold count. rewrite filter_cons, filter_nil.
  destruct (decide _) as [H | H];
    destruct (TokenType.eqb (Token.type tok) type); simpl; congruence.
Qed.

Lemma same_layout_refl st : same_layout st st.
Proof. now repeat split. Qed.

Lemma same_layout_trans a b c :
  same_layout a b -> same_layout b c -> same_layout a c.
Proof.
  intros (H1 & H2 & H3) (H4 & H5 & H6). repeat split; congruence.
Qed.

Lemma same_layout_fields st x x' :
  indentStack x' = indentStack x -> tokens x' = tokens x ->
  same_layout st x -> same_layout st x'.
Proof.
  intros H1 H2 (H3 & H4 & H5). unfold same_layout.
  rewrite H1, H2. now repeat split.
Qed.

Lemma advance_layout st x : same_layout st x -> same_layout st (advance x).
Proof. now apply same_layout_fields. Qed.

Lemma addBuffer_layout c st x :
  same_layout st x -> same_layout st (addBuffer c x).
Proof. now apply same_layout_fields. Qed.

Lemma advanceString_layout b st x :
  same_layout st x -> same_layout st (advanceString b x).
Proof. unfold advanceString. destruct b; now apply same_layout_fields. Qed.

Lemma subtractBuffer_layout st x :
  same_layout st x -> same_layout st (subtractBufferForThreeQuoteString x).
Proof.
  unfold subtractBufferForThreeQuoteString.
  destruct (_ <=? _); [ now apply same_layout_fields | auto ].
Qed.

Lemma with_position_layout l c st x :
  same_layout st x -> same_layout st (with_position l c x).
Proof. now apply same_layout_fields. Qed.

Lemma next_line_layout st x : same_layout st x -> same_layout st (next_line x).
Proof. now apply same_layout_fields. Qed.

Lemma with_parenthesesLevel_layout n st x :
  same_layout st x -> same_layout st (with_parenthesesLevel n x).
Proof. now apply same_layout_fields. Qed.

Lemma with_start_layout st x :
  same_layout st x -> same_layout st (with_start x).
Proof. now apply same_layout_fields. Qed.

Lemma clear_buffer_layout st x :
  same_layout st x -> same_layout st (clear_buffer x).
Proof. now apply same_layout_fields. Qed.

Lemma iter_advance_layout n st x :
  same_layout st x -> same_layout st (Nat.iter n advance x).
Proof.
  intros H. induction n as [ | n IH]; simpl; [ | apply advance_layout ]; auto.
Qed.

Lemma advance_while_layout p st x :
  same_layout st x -> same_layout st (advance_while p x).
Proof. apply iter_advance_layout. Qed.

Lemma skip_comment_layout st x :
  same_layout st x -> same_layout st (skip_comment x).
Proof. apply advance_while_layout. Qed.

Lemma count_addToken type type' st :
  count type (tokens (addToken type' st))
  = count type (tokens st) + (if TokenType.eqb type' type then 1 else 0).
Proof. unfold addToken. simpl. now rewrite count_app, count_single. Qed.

Lemma addToken_layout type st x :
  is_layout type = false ->
  same_layout st x -> same_layout st (addToken type x).
Proof.
  unfold is_layout. intros Hty (H1 & H2 & H3).
  apply orb_false_iff in Hty as [Hi Hd].
  repeat split; [ assumption | | ]; rewrite count_addToken.
  - rewrite Hi. lia.
  - rewrite Hd. lia.
Qed.

Lemma addQuotedToken_layout quotes type st x :
  is_layout type = false ->
  same_layout st x -> same_layout st (addQuotedToken quotes type x).
Proof.
  unfold is_layout. intros Hty (H1 & H2 & H3).
  apply orb_false_iff in Hty as [Hi Hd].
  repeat split; [ assumption | | ]; unfold addQuotedToken; simpl;
    rewrite count_app, count_single; simpl.
  - rewrite Hi. lia.
  - rewrite Hd. lia.
Qed.

Lemma overwriteToken_layout type st x previousToken :
  is_layout type = false ->
  last (tokens x) = Some previousToken ->
  is_layout (Token.type previousToken) = false ->
  same_layout st x -> same_layout st (overwriteToken type x).
Proof.
  unfold is_layout. intros Hty Hlast Hprev (H1 & H2 & H3).
  apply orb_false_iff in Hty as [Hi Hd].
  apply orb_false_iff in Hprev as [Hpi Hpd].
  unfold overwriteToken. rewrite Hlast.
  apply last_Some in Hlast as [l' Hl'].
  assert (Htake : take (length (tokens x) - 1) (tokens x) = l').
  { rewrite Hl', length_app. simpl.
    replace (length l' + 1 - 1) with (length l') by lia.
    now rewrite take_app_length. }
  repeat split; [ assumption | | ]; simpl; rewrite Htake.
  - rewrite <- H2, Hl', !count_app, !count_single. simpl.
    rewrite Hi, Hpi. reflexivity.
  - rewrite <- H3, Hl', !count_app, !count_single. simpl.
    rewrite Hd, Hpd. reflexivity.
Qed.

Lemma matches_layout pattern st x x' :
  matches pattern x = Some x' -> same_layout st x -> same_layout st x'.
Proof.
  unfold matches. intros H Hx.
  destruct (isAtEnd x); [ discriminate | ].
  destruct (is_char _ _); [ | discriminate ].
  injection H as <-. now apply same_layout_fields with x.
Qed.

Lemma either_layout pattern yes no st x :
  is_layout yes = false -> is_layout no = false ->
  same_layout st x -> same_layout st (either pattern yes no x).
Proof.
  intros Hy Hn Hx. unfold either.
  destruct (matches pattern x) eqn:E.
  - apply addToken_layout; [ assumption | ].
    eapply matches_layout; eassumption.
  - now apply addToken_layout.
Qed.

Lemma keeps_Scanned st x : same_layout st x -> keeps_layout st (Scanned x).
Proof. intros H st' [= <-]. assumption. Qed.

Lemma keeps_Fails st e : keeps_layout st (Fails e).
Proof. intros st' [=]. Qed.

Lemma keeps_Hangs st : keeps_layout st Hangs.
Proof. intros st' [=]. Qed.

Lemma keeps_and_then st s k :
  keeps_layout st s ->
  (forall x, same_layout st x -> keeps_layout st (k x)) ->
  keeps_layout st (and_then s k).
Proof.
  intros Hs Hk st'. destruct s as [x | e | ]; simpl; [ | intros [=].. ].
  apply Hk, Hs. reflexivity.
Qed.

Lemma keeps_if (b : bool) st s1 s2 :
  keeps_layout st s1 -> keeps_layout st s2 ->
  keeps_layout st (if b then s1 else s2).
Proof. now destruct b. Qed.

Create HintDb layout.

Hint Resolve same_layout_refl advance_layout addBuffer_layout
  advanceString_layout subtractBuffer_layout with_position_layout
  next_line_layout with_parenthesesLevel_layout with_start_layout
  clear_buffer_layout iter_advance_layout advance_while_layout
  skip_comment_layout addToken_layout addQuotedToken_layout either_layout
  keeps_Scanned keeps_Fails keeps_Hangs : layout.

Ltac layout :=
  repeat first
    [ progress intros
    | solve [ auto 12 with layout ]
    | match goal with
      | |- keeps_layout _ (and_then _ _) => apply keeps_and_then
      | |- keeps_layout _ (if ?b then _ else _) => destruct b
      | |- same_layout _ (if ?b then _ else _) => destruct b
      | |- same_layout _ (advance (if ?b then _ else _)) => destruct b
      | |- keeps_layout _ (Scanned (if ?b then _ else _)) => destruct b
      end ].

Lemma digits_run_layout rest st x :
  same_layout st x -> keeps_layout st (digits_run rest x).
Proof.
  revert x. induction rest as [ | c rest IH]; intros x Hx; simpl.
  - layout.
  - destruct (isDigit c); [ apply IH; layout | ].
    destruct (is_char c "_"); [ | layout ].
    destruct (isDigit _); [ apply IH | ]; layout.
Qed.

Lemma finish_number_layout otherwise st x :
  is_layout otherwise = false ->
  same_layout st x -> same_layout st (finish_number otherwise x).
Proof. intros. unfold finish_number. layout. Qed.

Lemma exponent_layout digits st x :
  (forall y, same_layout st y -> keeps_layout st (digits y)) ->
  same_layout st x -> keeps_layout st (exponent digits x).
Proof.
  intros Hd Hx. unfold exponent. cbv zeta.
  destruct (is_char (peek x) "e"); [ | layout ].
  destruct (isDigit _); [ apply Hd | ]; layout.
Qed.

Hint Resolve digits_run_layout finish_number_layout : layout.

Lemma number_layout c st x :
  same_layout st x -> keeps_layout st (number c x).
Proof.
  intros Hx. unfold number. cbv zeta. layout.
  all: try (apply exponent_layout; layout).
  all: layout.
Qed.

Lemma prefixed_layout p st x :
  same_layout st x -> keeps_layout st (prefixed p x).
Proof. intros Hx. unfold prefixed. cbv zeta. layout. Qed.

Lemma baseNumber_layout st x :
  same_layout st x -> keeps_layout st (baseNumber x).
Proof.
  intros Hx. unfold baseNumber. cbv zeta.
  repeat (destruct (is_char (peek x) _); [ now apply prefixed_layout | ]).
  layout.
  all: try (apply exponent_layout; layout).
  all: layout.
Qed.

Hint Resolve number_layout prefixed_layout baseNumber_layout : layout.

Lemma name_layout st x : same_layout st x -> keeps_layout st (name x).
Proof.
  intros Hx. unfold name. cbv zeta.
  destruct (_ =? _); [ layout | ].
  destruct (existsb _ _); [ layout | ].
  set (x1 := Nat.iter _ advance x).
  assert (Hx1 : same_layout st x1) by (subst x1; layout).
  destruct (assoc _ specialIdentifiers) as [special | ] eqn:Hspecial;
    [ | layout ].
  assert (Hsp : is_layout special = false).
  { clear -Hspecial. unfold specialIdentifiers in Hspecial. simpl in Hspecial.
    repeat match type of Hspecial with
           | (if ?b then _ else _) = _ => destruct b
           end; try discriminate; injection Hspecial as <-; reflexivity. }
  destruct special; try discriminate Hsp; try solve [ layout ].
  - destruct (last (tokens x1)) as [previousToken | ] eqn:Hlast; [ | layout ].
    destruct (TokenType.eqb _ TokenType.IS) eqn:His; [ | layout ].
    apply keeps_Scanned.
    eapply overwriteToken_layout; [ reflexivity | eassumption | | assumption ].
    destruct (Token.type previousToken); try discriminate His; reflexivity.
  - destruct (last (tokens x1)) as [previousToken | ] eqn:Hlast; [ | layout ].
    destruct (TokenType.eqb _ TokenType.NOT) eqn:Hnot; [ | layout ].
    apply keeps_Scanned.
    eapply overwriteToken_layout; [ reflexivity | eassumption | | assumption ].
    destruct (Token.type previousToken); try discriminate Hnot; reflexivity.
Qed.

Lemma escape_step_layout c st x :
  same_layout st x -> keeps_layout st (escape_step c x).
Proof.
  intros Hx. unfold escape_step. cbv zeta.
  destruct (escaped c) as [[a | ] | ]; layout.
Qed.

Lemma single_line_layout quote rest st x :
  same_layout st x -> keeps_layout st (single_line quote rest x).
Proof.
  remember (length rest) as n eqn:Hn. revert rest Hn x.
  induction n as [n IH] using lt_wf_ind. intros rest Hn x Hx.
  destruct rest as [ | c rest']; simpl; [ layout | ].
  destruct (_ || _); [ layout | ].
  destruct (is_char c _).
  - destruct rest' as [ | e rest'']; [ layout | ].
    apply keeps_and_then; [ now apply escape_step_layout | ].
    intros y Hy. eapply IH; [ | reflexivity | assumption ].
    subst n. simpl. lia.
  - eapply IH; [ | reflexivity | layout ]. subst n. simpl. lia.
Qed.

Lemma multi_line_layout quote rest quote_sum st x :
  same_layout st x -> keeps_layout st (multi_line quote rest quote_sum x).
Proof.
  remember (length rest) as n eqn:Hn. revert rest Hn quote_sum x.
  induction n as [n IH] using lt_wf_ind. intros rest Hn quote_sum x Hx.
  destruct rest as [ | c rest']; simpl; [ layout | ].
  destruct (is_char c quote).
  - match goal with
    | |- context [if ?b then _ else _] => destruct b
    end; [ layout | ].
    eapply IH; [ | reflexivity | layout ]. subst n. simpl. lia.
  - destruct (is_char c _).
    + destruct rest' as [ | e rest'']; [ layout | ].
      apply keeps_and_then; [ now apply escape_step_layout | ].
      intros y Hy. eapply IH; [ | reflexivity | assumption ].
      subst n. simpl. lia.
    + eapply IH; [ | reflexivity | layout ]. subst n. simpl. lia.
Qed.

Lemma string_literal_layout quote st x :
  same_layout st x -> keeps_layout st (string_literal quote x).
Proof.
  intros Hx. unfold string_literal. cbv zeta.
  destruct (is_char (peek x) quote).
  - destruct (negb _); [ layout | ].
    apply keeps_and_then; [ apply multi_line_layout | ]; layout.
  - apply keeps_and_then; [ now apply single_line_layout | ]. layout.
Qed.

Lemma operator_layout k st x :
  (forall y, same_layout st y -> same_layout st (k y)) ->
  same_layout st x -> keeps_layout st (operator k x).
Proof.
  intros Hk Hx. unfold operator. destruct (matches _ x); layout.
Qed.

Lemma blank_lines_layout counting rest acc st x :
  same_layout st x -> same_layout st (blank_lines counting rest acc x).2.
Proof.
  remember (length rest) as n eqn:Hn. revert rest Hn counting acc x.
  induction n as [n IH] using lt_wf_ind. intros rest Hn counting acc x Hx.
  destruct rest as [ | c rest']; simpl; [ assumption | ].
  destruct (_ && _).
  { eapply IH; [ | reflexivity | layout ]. subst n. simpl. lia. }
  destruct (is_char c LF).
  { eapply IH; [ | reflexivity | layout ]. subst n. simpl. lia. }
  destruct (is_char c CR); [ | assumption ].
  destruct rest' as [ | c' rest'']; [ simpl; layout | ].
  destruct (is_char c' LF);
    (eapply IH; [ | reflexivity | layout ]; subst n; simpl; lia).
Qed.

Hint Resolve name_layout string_literal_layout operator_layout : layout.

Lemma balanced_same_layout st st' :
  balanced st -> same_layout st st' -> balanced st'.
Proof.
  intros [Hl Hc] (H1 & H2 & H3). unfold balanced.
  rewrite H1, H2, H3. now split.
Qed.

Lemma levels_top stack :
  levels stack -> hd 0 stack = 4 * (length stack - 1).
Proof.
  induction 1 as [ | n stack _ IH]; [ reflexivity | ].
  simpl in *. lia.
Qed.

Lemma levels_iter_tl k stack :
  levels stack -> k <= length stack - 1 ->
  levels (Nat.iter k tl stack)
  /\ length (Nat.iter k tl stack) = length stack - k.
Proof.
  intros Hl. induction k as [ | k IH]; intros Hk; simpl.
  - split; [ assumption | lia ].
  - destruct IH as [IHl IHn]; [ lia | ].
    destruct IHl as [ | n rest Hrest]; simpl in *; [ lia | ].
    split; [ assumption | lia ].
Qed.

Lemma iter_addToken type k st :
  indentStack (Nat.iter k (addToken type) st) = indentStack st
  /\ forall type',
       count type' (tokens (Nat.iter k (addToken type) st))
       = count type' (tokens st)
         + (if TokenType.eqb type type' then k else 0).
Proof.
  induction k as [ | k [IH1 IH2]].
  - simpl. split; [ reflexivity | ].
    intros type'. destruct (TokenType.eqb _ _); lia.
  - rewrite !Nat.iter_succ. split; [ assumption | ]. intros type'.
    rewrite count_addToken, IH2. destruct (TokenType.eqb _ _); lia.
Qed.

Lemma pop_indent_fields st :
  indentStack (pop_indent st) = tl (indentStack st)
  /\ forall type,
       count type (tokens (pop_indent st))
       = count type (tokens st)
         + (if TokenType.eqb TokenType.DEDENT type then 1 else 0).
Proof.
  unfold pop_indent. split; [ reflexivity | ].
  intros type. now rewrite count_addToken.
Qed.

Lemma iter_pop_indent k st :
  indentStack (Nat.iter k pop_indent st) = Nat.iter k tl (indentStack st)
  /\ count TokenType.INDENT (tokens (Nat.iter k pop_indent st))
     = count TokenType.INDENT (tokens st)
  /\ count TokenType.DEDENT (tokens (Nat.iter k pop_indent st))
     = count TokenType.DEDENT (tokens st) + k.
Proof.
  induction k as [ | k (IH1 & IH2 & IH3)].
  - simpl. repeat split; lia.
  - rewrite !Nat.iter_succ.
    destruct (pop_indent_fields (Nat.iter k pop_indent st)) as [H1 H2].
    rewrite H1, !H2, IH1, IH2, IH3. simpl. repeat split; lia.
Qed.

(** A change of indentation that adds at most one INDENT keeps the
    balance. *)
Lemma indentation_balanced acc st st' :
  balanced st ->
  indentation acc st = Scanned st' ->
  count TokenType.INDENT (tokens st')
    <= count TokenType.INDENT (tokens st) + 1 ->
  balanced st'.
Proof.
  intros [Hl Hc] Hi Hle. unfold indentation in Hi.
  destruct (acc mod 4 =? 0) eqn:Hmod; [ cbn [negb] in Hi | discriminate ].
  apply Nat.eqb_eq in Hmod. apply Nat.Div0.div_exact in Hmod.
  pose proof (levels_top _ Hl) as Htop.
  destruct (indentStack st) as [ | tos stack] eqn:Hstack;
    [ inversion Hl | ].
  cbn [hd length] in Htop, Hc.
  remember ((acc - tos) / 4) as up eqn:Hup.
  remember ((tos - acc) / 4) as down eqn:Hdown.
  destruct (tos <? acc) eqn:Hlt; [ | destruct (acc <? tos) eqn:Hgt ].
  - apply Nat.ltb_lt in Hlt. injection Hi as <-.
    destruct (iter_addToken TokenType.INDENT up
                (with_indentStack (acc :: tos :: stack) st)) as [H1 H2].
    rewrite (H2 TokenType.INDENT) in Hle.
    change (count TokenType.INDENT (tokens st) + up
              <= count TokenType.INDENT (tokens st) + 1) in Hle.
    assert (Hacc : acc = tos + 4).
    { pose proof (Nat.div_mod_eq (acc - tos) 4) as Hdiv.
      pose proof (Nat.mod_upper_bound (acc - tos) 4) as Hbound.
      rewrite <- Hup in Hdiv. lia. }
    assert (Hone : up = 1).
    { rewrite Hup, Hacc. replace (tos + 4 - tos) with 4 by lia. reflexivity. }
    split.
    + rewrite H1. cbn [with_indentStack indentStack]. subst acc.
      now constructor.
    + rewrite H1, (H2 TokenType.INDENT), (H2 TokenType.DEDENT), Hone.
      change (count TokenType.INDENT (tokens st) + 1
              = count TokenType.DEDENT (tokens st) + 0
                + (length (acc :: tos :: stack) - 1)).
      cbn [length]. lia.
  - apply Nat.ltb_lt in Hgt. injection Hi as <-.
    destruct (iter_pop_indent down st) as (H1 & H2 & H3).
    assert (Hk : down <= length (tos :: stack) - 1).
    { cbn [length]. rewrite Hdown. apply Nat.Div0.div_le_upper_bound. lia. }
    destruct (levels_iter_tl _ _ Hl Hk) as [H4 H5].
    split.
    + now rewrite H1, Hstack.
    + rewrite H1, H2, H3, Hstack, H5. cbn [length] in *. lia.
  - injection Hi as <-. split; now rewrite Hstack.
Qed.

Lemma newline_balanced st x st' :
  balanced st -> same_layout st x ->
  newline x = Scanned st' ->
  count TokenType.INDENT (tokens st')
    <= count TokenType.INDENT (tokens st) + 1 ->
  balanced st'.
Proof.
  intros Hb Hx Hn Hle. unfold newline in Hn.
  destruct (0 <? parenthesesLevel x).
  { injection Hn as <-. eapply balanced_same_layout; [ eassumption | ].
    layout. }
  cbv zeta in Hn. unfold leading_spaces in Hn.
  match type of Hn with
  | (let '(_, _) := blank_lines ?c ?r ?a ?y in _) = _ =>
      pose proof (blank_lines_layout c r a st y) as Hblank;
      destruct (blank_lines c r a y) as [acc' st4]
  end.
  simpl in Hblank.
  assert (H4 : same_layout st st4) by (apply Hblank; layout).
  eapply indentation_balanced; [ | eassumption | ].
  - eapply balanced_same_layout; eassumption.
  - destruct H4 as (_ & -> & _). assumption.
Qed.

(** A call of [scanToken] that adds at most one INDENT keeps the balance. *)
Lemma scanToken_balanced st st' :
  balanced st ->
  scanToken st = Scanned st' ->
  count TokenType.INDENT (tokens st')
    <= count TokenType.INDENT (tokens st) + 1 ->
  balanced st'.
Proof.
  intros Hb Hs Hle.
  assert (Hother : keeps_layout st (scanToken st) -> balanced st').
  { intros Hk. eapply balanced_same_layout; [ eassumption | now apply Hk ]. }
  unfold scanToken in Hs, Hother. cbv zeta in Hs, Hother.
  repeat match type of Hs with
         | (if is_char (peek st) CR then _ else _) = _ =>
             destruct (is_char (peek st) CR)
         | (if is_char (peek st) LF then _ else _) = _ =>
             destruct (is_char (peek st) LF)
         | (if ?b then _ else _) = _ =>
             destruct b; [ apply Hother; layout | ]
         end.
  - destruct (matches LF (advance st)) as [x | ] eqn:Hm.
    + eapply newline_balanced; [ eassumption | | eassumption | assumption ].
      eapply matches_layout; [ eassumption | layout ].
    + apply Hother. layout.
  - eapply newline_balanced; [ eassumption | | eassumption | assumption ].
    layout.
  - apply Hother. layout.
Qed.

(** At the end of the source the indent stack is unravelled with one
    DEDENT per entry above the entry [0]. *)
Lemma unravel_levels stack st :
  levels stack ->
  exists st',
    unravel stack st = Scanned st'
    /\ count TokenType.INDENT (tokens st') = count TokenType.INDENT (tokens st)
    /\ count TokenType.DEDENT (tokens st')
       = count TokenType.DEDENT (tokens st) + (length stack - 1).
Proof.
  intros Hl. revert st.
  induction Hl as [ | n stack Hl IH]; intros st.
  - eexists. split; [ reflexivity | ]. simpl. split; lia.
  - replace (n + 4) with (S (n + 3)) by lia. cbn [unravel].
    destruct (IH (addToken TokenType.DEDENT st)) as (st' & H1 & H2 & H3).
    exists st'. split; [ assumption | ].
    rewrite H2, H3, !count_addToken. simpl in *. split; lia.
Qed.

Lemma scan_loop_balanced fuel st st' :
  balanced st ->
  single_level_increases fuel st = true ->
  scan_loop fuel st = Scanned st' ->
  balanced st'.
Proof.
  revert st. induction fuel as [ | fuel IH]; intros st Hb Hsingle Hscan;
    simpl in Hsingle, Hscan; destruct (isAtEnd st);
    try (injection Hscan as <-; assumption); try discriminate.
  destruct (scanToken (with_start st)) as [x | e | ] eqn:Hx;
    try discriminate.
  simpl in Hscan. apply andb_true_iff in Hsingle as [Hle Hrest].
  apply Nat.leb_le in Hle.
  apply (IH x); [ | assumption.. ].
  apply (scanToken_balanced (with_start st)); [ | assumption.. ].
  eapply balanced_same_layout; [ eassumption | layout ].
Qed.

(** X1: when every call of [scanToken] adds at most one INDENT, which is
    the case when every increase of indentation is one level of four
    columns, the tokens of the source have as many INDENT as DEDENT
    tokens. *)
Theorem single_levels_balanced (src : string) (toks : list Token.t) :
  single_level_increases (length (chars src)) (new src) = true ->
  tokenize src = Scanned toks ->
  count TokenType.INDENT toks = count TokenType.DEDENT toks.
Proof.
  intros Hsingle Htok. unfold tokenize, scanEverything in Htok.
  change (source (new src)) with (chars src) in Htok.
  destruct (scan_loop _ _) as [st1 | e | ] eqn:Hloop; try discriminate.
  simpl in Htok.
  assert (Hb : balanced st1).
  { eapply scan_loop_balanced; [ | eassumption.. ].
    split; [ constructor | reflexivity ]. }
  destruct Hb as [Hl Hc].
  destruct (unravel_levels _ st1 Hl) as (st2 & Hu & H1 & H2).
  rewrite Hu in Htok. simpl in Htok. injection Htok as <-.
  rewrite !count_app, !count_single. simpl. lia.
Qed.

End Layout.

(** The conditional with branches of one level satisfies the hypothesis
    of [single_levels_balanced]. *)
Example if_else_balanced :
  exists tokens,
    Tokenizer.tokenize if_else_source = Tokenizer.Scanned tokens
    /\ Tokenizer.count TokenType.INDENT tokens
       = Tokenizer.count TokenType.DEDENT tokens.
Proof.
  eexists. split; [ vm_compute; reflexivity | ].
  apply (single_levels_balanced if_else_source); vm_compute; reflexivity.
Defined.

(** ** Name resolution *)

Lemma chain_functional (store : list PyEnvironment.t) (x : option addr)
    (l1 l2 : list (addr * PyEnvironment.t)) :
  chain store x l1 -> chain store x l2 -> l1 = l2.
Proof.
  intros H1. revert l2. induction H1 as [ | a env frames Ha _ IH];
    intros l2 H2; inversion H2; subst.
  - reflexivity.
  - match goal with
    | H : store !! a = Some ?env' |- _ =>
        rewrite Ha in H; injection H as <-
    end.
    f_equal. now apply IH.
Qed.

(** From a frame of a chain on, the rest of the chain is the chain of that
    frame. *)
Lemma chain_from_member (store : list PyEnvironment.t) (x : option addr)
    (frames : list (addr * PyEnvironment.t)) (b : addr) :
  chain store x frames ->
  b ∈ map fst frames ->
  exists pre suf, frames = pre ++ suf /\ chain store (Some b) suf.
Proof.
  induction 1 as [ | a env frames Ha Hchain IH]; cbn; intros Hb.
  - now apply elem_of_nil in Hb.
  - apply elem_of_cons in Hb as [-> | Hb].
    + exists [], ((a, env) :: frames). split; [ reflexivity | ].
      now constructor.
    + destruct (IH Hb) as (pre & suf & -> & Hsuf).
      exists ((a, env) :: pre), suf. split; [ reflexivity | assumption ].
Qed.

Lemma chain_NoDup (store : list PyEnvironment.t) (x : option addr)
    (frames : list (addr * PyEnvironment.t)) :
  chain store x frames -> NoDup (map fst frames).
Proof.
  induction 1 as [ | a env frames Ha Hchain IH]; cbn.
  - constructor.
  - constructor; [ | assumption ].
    intros Hin.
    destruct (chain_from_member _ _ _ a Hchain Hin) as (pre & suf & -> & Hsuf).
    assert (Hwhole : chain store (Some a) ((a, env) :: pre ++ suf))
      by now constructor.
    pose proof (chain_functional _ _ _ _ Hsuf Hwhole) as Heq.
    apply (f_equal length) in Heq. cbn in Heq.
    rewrite length_app in Heq. lia.
Qed.

Lemma chain_in_store (store : list PyEnvironment.t) (x : option addr)
    (frames : list (addr * PyEnvironment.t)) :
  chain store x frames ->
  forall b, b ∈ map fst frames -> b ∈ seq 0 (length store).
Proof.
  induction 1 as [ | a env frames Ha Hchain IH]; cbn; intros b Hb.
  - now apply elem_of_nil in Hb.
  - apply elem_of_cons in Hb as [-> | Hb]; [ | now apply IH ].
    apply elem_of_seq. apply lookup_lt_Some in Ha. lia.
Qed.

(** A chain has at most as many frames as the store. *)
Lemma chain_length (store : list PyEnvironment.t) (x : option addr)
    (frames : list (addr * PyEnvironment.t)) :
  chain store x frames -> length frames <= length store.
Proof.
  intros Hchain.
  pose proof (NoDup_submseteq _ _ (chain_NoDup _ _ _ Hchain)
                (chain_in_store _ _ _ Hchain)) as Hsub.
  apply submseteq_length in Hsub.
  now rewrite length_map, length_seq in Hsub.
Qed.

Lemma lookup_chain_first_binding (store : list PyEnvironment.t)
    (x : option addr) (frames : list (addr * PyEnvironment.t))
    (name : string) (fuel : nat) :
  chain store x frames ->
  length frames <= fuel ->
  lookup_chain fuel store x name
  = match first_binding frames name with
    | Some v => Found v
    | None => NotFound
    end.
Proof.
  intros Hchain. revert fuel.
  induction Hchain as [ | a env frames Ha Hchain IH]; intros fuel Hfuel.
  - destruct fuel; reflexivity.
  - destruct fuel as [ | fuel]; [ cbn in Hfuel; lia | ].
    cbn [lookup_chain first_binding]. rewrite Ha.
    destruct (PyEnvironment.head env !! name); [ reflexivity | ].
    apply IH. cbn in Hfuel. lia.
Qed.



(** The seventh scenario of the specification: in [def g(): print(x); x = 5]
    the use of [x] in the call [g()] fails with [UnboundLocalError]. *)
Example unbound_local_scenario :
  match
    PyEvaluate integer_host 20 ""
      (FileInput
         [FunctionDef (token TokenType.NAME "g") []
            [SimpleExpr (Call (variable "print") [variable "x"]);
             Assign (token TokenType.NAME "x") (BigIntLiteral "5")] [];
          SimpleExpr (Call (variable "g") [])] [])
      PyContext_new (mkOptions false 100000 100000)
  with
  | Some (Returns v _) => v = VError "UnboundLocalError"
  | _ => False
  end.
Proof. vm_compute. reflexivity. Qed.

(** ** Boolean operators *)

Lemma turns_empty (host : Host) (n : nat) (isPrelude : bool) (steps : nat)
    (ctx : PyContext.t) :
  PyContext.control ctx = [] -> turns host n isPrelude steps ctx = Ok steps ctx.
Proof. intros H. destruct n; cbn; rewrite ?H; reflexivity. Qed.

Lemma turns_add (host : Host) (n m : nat) (isPrelude : bool)
    (steps steps1 : nat) (ctx ctx1 : PyContext.t) :
  turns host n isPrelude steps ctx = Ok steps1 ctx1 ->
  turns host (n + m) isPrelude steps ctx = turns host m isPrelude steps1 ctx1.
Proof.
  revert steps ctx. induction n as [ | n IH]; intros steps ctx Hn.
  - cbn in Hn. injection Hn as <- <-. reflexivity.
  - cbn [Nat.add turns] in *.
    destruct (PyContext.control ctx) as [ | command rest] eqn:Hc.
    + injection Hn as <- <-. symmetry. now apply turns_empty.
    + destruct (turn host isPrelude steps command ctx) as [s' c' | e c' | ];
        try discriminate Hn.
      now apply IH.
Qed.

Lemma evaluateBoolExpression_spec (operator : TokenType.t)
    (left right : Value) :
  operator = TokenType.AND \/ operator = TokenType.OR ->
  truthy left = true ->
  evaluateBoolExpression operator left right
  = Normal (BoolOp_result operator left right).
Proof.
  intros [-> | ->] Hl; unfold evaluateBoolExpression, BoolOp_result;
    rewrite Hl; cbn; destruct (isFalsy left); reflexivity.
Qed.



(** ** The result of a chunk *)

(** C6, amended: when the front end (tokenizer, parser, resolver, module
    loader) accepts the chunk and the machine runs to the end, the line
    sent is the accumulated [context.output] when it is not empty, and
    otherwise the string representation of the value on top of the Stash
    after evaluation ([None] on an empty Stash); an error raised by the
    machine is sent as its bare message; an error of the front end is sent
    as ['Error: <message>']. *)
Theorem chunk_result (host : Host)
    (parse : string -> list Token.t -> Exception + Stmt)
    (resolve : string -> Stmt -> option Exception)
    (preloadModules : PyContext.t -> Stmt -> Exception + PyContext.t)
    (fuel : nat) (chunk : string) (context : PyContext.t) :
  (forall ast loaded,
     runPyAST parse resolve chunk true = Tokenizer.Scanned ast ->
     preloadModules context ast = inr loaded ->
     let started :=
       set_control [CNode (StmtNode ast)] (set_isRunning true loaded) in
     (forall steps ctx',
        pyGenerateCSEMachineStateStream host fuel 100000 100000 false started
        = Some (Ok steps ctx') ->
        evaluateChunk host parse resolve preloadModules fuel chunk context
        = Some (Returns
                  (if bool_decide (PyContext.output ctx' = "")
                   then toPythonString host (top_of_stash ctx')
                   else PyContext.output ctx')
                  (set_isRunning false ctx')))
     /\ (forall e ctx',
           pyGenerateCSEMachineStateStream host fuel 100000 100000 false
             started
           = Some (Raise e ctx') ->
           evaluateChunk host parse resolve preloadModules fuel chunk context
           = Some (Returns (message_of host chunk e)
                     (set_isRunning false ctx'))))
  /\ (forall e,
        instanceof_Error e = true ->
        runPyAST parse resolve chunk true = Tokenizer.Fails e
        \/ (exists ast,
              runPyAST parse resolve chunk true = Tokenizer.Scanned ast
              /\ preloadModules context ast = inl e) ->
        evaluateChunk host parse resolve preloadModules fuel chunk context
        = Some (Returns ("Error: " +:+ message_of host chunk e) context)).
Proof.
  split.
  - intros ast loaded Hast Hload started. split.
    + intros steps ctx' Hrun.
      unfold evaluateChunk, PyRunInContext, PyRunCSEMachine, PyEvaluate,
        pyRunCSEMachine.
      rewrite Hast, Hload. cbn [defaultOptions envSteps stepLimit isPrelude].
      fold started. rewrite Hrun.
      destruct (bool_decide (PyContext.output ctx' = "")); cbn.
      * unfold PyCSEResultPromise.
        destruct (top_of_stash ctx'); reflexivity.
      * reflexivity.
    + intros e ctx' Hrun.
      unfold evaluateChunk, PyRunInContext, PyRunCSEMachine, PyEvaluate,
        pyRunCSEMachine.
      rewrite Hast, Hload. cbn [defaultOptions envSteps stepLimit isPrelude].
      fold started. rewrite Hrun. reflexivity.
  - intros e He [Hfail | (ast & Hast & Hload)];
      unfold evaluateChunk, PyRunInContext.
    + rewrite Hfail, He. reflexivity.
    + rewrite Hast, Hload, He. reflexivity.
Qed.

(** The chunk [x = 3; y = 4; x + y] prints nothing: the line sent is the
    representation of the top of the Stash. *)
Lemma chunk_result_witness :
  runPyAST (parses_to sum_program) accepts "x + y" true
    = Tokenizer.Scanned sum_program
  /\ exists ctx',
       evaluateChunk integer_host (parses_to sum_program) accepts
         loads_nothing 12 "x + y" PyContext_new
       = Some (Returns "7" ctx')
       /\ PyContext.output ctx' = ""
       /\ top_of_stash ctx' = VBigint 7.
Proof.
  split; [ reflexivity | ].
  destruct (chunk_result integer_host (parses_to sum_program) accepts
              loads_nothing 12 "x + y" PyContext_new) as [Hok _].
  destruct (Hok sum_program PyContext_new eq_refl eq_refl) as [Hend _].
  eexists. split.
  - etransitivity; [ eapply Hend; vm_compute; reflexivity | ].
    vm_compute. reflexivity.
  - split; reflexivity.
Defined.

(** C6 as stated fails on a chunk that prints: for [print('a')] the value
    on top of the Stash after evaluation is [None], and the line sent is
    the printed text. *)
Lemma print_chunk_sends_output :
  exists ctx',
    evaluateChunk integer_host (parses_to print_program) accepts
      loads_nothing 6 "print('a')" PyContext_new
    = Some (Returns ("a" +:+ newline) ctx')
    /\ toPythonString integer_host (top_of_stash ctx') = "None"
    /\ "a" +:+ newline <> toPythonString integer_host (top_of_stash ctx').
Proof.
  eexists. split; [ vm_compute; reflexivity | ].
  split; [ reflexivity | ].
  vm_compute. discriminate.
Qed.

(** An error of the machine is sent without the prefix: the eighth
    scenario of the specification, [1 / 0]. *)
Example division_by_zero_chunk :
  match
    evaluateChunk integer_host
      (parses_to
         (FileInput
            [SimpleExpr (Binary (BigIntLiteral "1") (token TokenType.SLASH "/")
                           (BigIntLiteral "0"))] []))
      accepts loads_nothing 6 "1 / 0" PyContext_new
  with
  | Some (Returns line ctx') =>
      line = "ZeroDivisionError"
      /\ PyContext.errors ctx' = [ZeroDivisionError]
  | _ => False
  end.
Proof. vm_compute. split; reflexivity. Qed.

(** ** Operators on values *)

Section OperatorLaws.

Local Open Scope Z_scope.

(** X2: on two Int operands the six comparison operators return the Bool
    of the comparison of the two integers, whatever their size. *)
Theorem bigint_comparisons_exact (host : Host) (a b : Z) :
  evaluateBinaryExpression host TokenType.LESS (VBigint a) (VBigint b)
    = Normal (VBool (a <? b))
  /\ evaluateBinaryExpression host TokenType.LESSEQUAL (VBigint a) (VBigint b)
     = Normal (VBool (a <=? b))
  /\ evaluateBinaryExpression host TokenType.GREATER (VBigint a) (VBigint b)
     = Normal (VBool (b <? a))
  /\ evaluateBinaryExpression host TokenType.GREATEREQUAL (VBigint a)
       (VBigint b)
     = Normal (VBool (b <=? a))
  /\ evaluateBinaryExpression host TokenType.DOUBLEEQUAL (VBigint a)
       (VBigint b)
     = Normal (VBool (a =? b))
  /\ evaluateBinaryExpression host TokenType.NOTEQUAL (VBigint a) (VBigint b)
     = Normal (VBool (negb (a =? b))).
Proof.
  cbn. destruct (Z.ltb_spec a b), (Z.ltb_spec b a); cbn;
    repeat split; repeat f_equal; try lia;
    repeat match goal with
    | |- context [?x <=? ?y] => destruct (Z.leb_spec x y)
    | |- context [?x =? ?y] => destruct (Z.eqb_spec x y)
    end; cbn; try reflexivity; lia.
Qed.

(** X3: on any two operands, [==] and [!=] either both raise or both
    return a Bool, and then each result is the negation of the other. *)
Theorem equality_operators_complementary (host : Host) (left right : Value) :
  (exists b,
     evaluateBinaryExpression host TokenType.DOUBLEEQUAL left right
       = Normal (VBool b)
     /\ evaluateBinaryExpression host TokenType.NOTEQUAL left right
        = Normal (VBool (negb b)))
  \/ (completes (evaluateBinaryExpression host TokenType.DOUBLEEQUAL left right)
        = false
      /\ completes (evaluateBinaryExpression host TokenType.NOTEQUAL left right)
         = false).
Proof.
  unfold evaluateBinaryExpression.
  destruct (negb (truthy left && truthy right)); [ right; now split | ].
  destruct (has_type T_complex left right).
  { unfold binary_complex.
    destruct (type_of right); try (right; now split);
      (destruct (fromValue host (value_of left)); [ | right; now split.. ];
       destruct (fromValue host (value_of right)); [ | right; now split.. ];
       left; eexists; split; reflexivity). }
  destruct (has_type T_undefined left right).
  { left. eexists. split; reflexivity. }
  destruct (has_type T_string left right).
  { unfold binary_string. destruct left; try (right; now split);
      destruct right; try (right; now split).
    left. eexists. split; reflexivity. }
  left. cbn. eexists. split; reflexivity.
Qed.

(** X4: [/], [//] and [%] on numeric operands (Int, Float or Bool) whose
    right operand is zero ([0], [0.0], [-0.0] or [False]) raise a
    [ZeroDivisionError]: the turn of the BINARY_OP instruction pops both
    operands, appends the error to [context.errors] and pushes nothing. *)
Theorem division_by_zero_raises (host : Host) (operator : TokenType.t)
    (left right : Value) :
  operator = TokenType.SLASH \/ operator = TokenType.DOUBLESLASH
  \/ operator = TokenType.PERCENT ->
  is_numeric left = true ->
  is_numeric right = true ->
  isFalsy right = true ->
  evaluateBinaryExpression host operator left right
    = Handled ZeroDivisionError
  /\ forall (ctx : PyContext.t) (srcNode : Node) (stash : list Value),
       PyContext.stash ctx = right :: left :: stash ->
       exists ctx',
         step host (CInstr (binOpInstr operator srcNode)) ctx
         = Raise ZeroDivisionError ctx'
         /\ PyContext.errors ctx' = PyContext.errors ctx ++ [ZeroDivisionError]
         /\ PyContext.stash ctx' = stash.
Proof.
  intros Hop Hl Hr Hz.
  assert (H : evaluateBinaryExpression host operator left right
              = Handled ZeroDivisionError).
  { destruct left; try discriminate Hl; destruct right; try discriminate Hr;
      cbn in Hz;
      repeat match goal with
      | b : bool |- _ => destruct b
      end; try discriminate Hz;
      destruct Hop as [-> | [-> | ->]]; cbn;
      rewrite ?Hz; try reflexivity;
      apply Z.eqb_eq in Hz; subst; reflexivity. }
  split; [ exact H | ].
  intros ctx srcNode stash Hstash.
  assert (Ht : truthy left && truthy right = true)
    by (destruct left; try discriminate Hl; destruct right;
        try discriminate Hr; reflexivity).
  destruct ctx as [c s o errs envs st oc ns r t]. cbn in Hstash. subst s.
  eexists. unfold step, bind, modify, evaluate_instr, stash_pop, bind. cbn.
  rewrite Ht, H. cbn. repeat split.
Qed.

Lemma division_by_zero_raises_witness :
  (TokenType.DOUBLESLASH = TokenType.SLASH
   \/ TokenType.DOUBLESLASH = TokenType.DOUBLESLASH
   \/ TokenType.DOUBLESLASH = TokenType.PERCENT)
  /\ is_numeric (VBool true) = true
  /\ is_numeric (VNumber (JsNumber.neg JsNumber.zero)) = true
  /\ isFalsy (VNumber (JsNumber.neg JsNumber.zero)) = true
  /\ evaluateBinaryExpression integer_host TokenType.DOUBLESLASH (VBool true)
       (VNumber (JsNumber.neg JsNumber.zero))
     = Handled ZeroDivisionError.
Proof.
  split; [ right; left; reflexivity | ].
  split; [ reflexivity | ].
  split; [ reflexivity | ].
  split; [ reflexivity | ].
  apply (division_by_zero_raises integer_host TokenType.DOUBLESLASH
           (VBool true) (VNumber (JsNumber.neg JsNumber.zero)));
    [ right; left; reflexivity | reflexivity.. ].
Defined.



(** X6: a comparison of two numeric operands of which one is a Bool takes
    them for equal, whatever their values: [==], [<=] and [>=] return
    [True], and [!=], [<] and [>] return [False]. *)
Theorem bool_operand_compares_equal (host : Host) (left right : Value) :
  is_numeric left = true ->
  is_numeric right = true ->
  type_of left = T_bool \/ type_of right = T_bool ->
  evaluateBinaryExpression host TokenType.DOUBLEEQUAL left right
    = Normal (VBool true)
  /\ evaluateBinaryExpression host TokenType.NOTEQUAL left right
     = Normal (VBool false)
  /\ evaluateBinaryExpression host TokenType.LESS left right
     = Normal (VBool false)
  /\ evaluateBinaryExpression host TokenType.GREATER left right
     = Normal (VBool false)
  /\ evaluateBinaryExpression host TokenType.LESSEQUAL left right
     = Normal (VBool true)
  /\ evaluateBinaryExpression host TokenType.GREATEREQUAL left right
     = Normal (VBool true).
Proof.
  intros Hl Hr Hb.
  destruct left; try discriminate Hl; destruct right; try discriminate Hr;
    destruct Hb as [Hb | Hb]; try discriminate Hb; repeat split.
Qed.

Lemma bool_operand_compares_equal_witness :
  is_numeric (VBool true) = true
  /\ is_numeric (VBool false) = true
  /\ (type_of (VBool true) = T_bool \/ type_of (VBool false) = T_bool)
  /\ evaluateBinaryExpression integer_host TokenType.DOUBLEEQUAL (VBool true)
       (VBool false)
     = Normal (VBool true).
Proof.
  split; [ reflexivity | ].
  split; [ reflexivity | ].
  split; [ left; reflexivity | ].
  exact (proj1 (bool_operand_compares_equal integer_host (VBool true)
                  (VBool false) eq_refl eq_refl (or_introl eq_refl))).
Defined.



End OperatorLaws.

(** ** Marshalling *)

(** X8: marshalling and unmarshalling are inverse to each other on Int,
    Float, String and Bool; [null] and [undefined] are marshalled to
    [None], which cannot be unmarshalled. *)
Theorem marshal_round_trip (v : Value) (j : JsValue) :
  (is_primitive v = true ->
   Completion_bind (unmarshalFromPy v) marshalToPy = Normal v)
  /\ (is_primitive_js j = true ->
      Completion_bind (marshalToPy j) unmarshalFromPy = Normal j)
  /\ (j = JsNull \/ j = JsUndefined ->
      marshalToPy j = Normal VUndefined
      /\ completes (Completion_bind (marshalToPy j) unmarshalFromPy) = false).
Proof.
  repeat split.
  - destruct v; try discriminate; reflexivity.
  - destruct j; try discriminate; reflexivity.
  - destruct H as [-> | ->]; reflexivity.
  - destruct H as [-> | ->]; reflexivity.
Qed.

Lemma marshal_round_trip_witness :
  is_primitive (VBigint 1) = true
  /\ Completion_bind (unmarshalFromPy (VBigint 1)) marshalToPy
     = Normal (VBigint 1).
Proof.
  split; [ reflexivity | ].
  exact (proj1 (marshal_round_trip (VBigint 1) JsNull) eq_refl).
Defined.

Lemma unmarshal_all_primitive (args : list Value) :
  forallb is_primitive args = true ->
  exists js,
    unmarshal_all args = Normal js
    /\ Forall2 (fun v j => marshalToPy j = Normal v) args js.
Proof.
  induction args as [ | v args IH]; intros H.
  - exists []. split; [ reflexivity | constructor ].
  - cbn in H. apply andb_true_iff in H as [Hv Hargs].
    destruct (IH Hargs) as (js & Hjs & Hall).
    destruct v; try discriminate Hv; cbn; rewrite Hjs; cbn;
      eexists; (split; [ reflexivity | ]); constructor; auto.
Qed.

(** X9: a foreign closure called on Int, Float, String and Bool arguments
    passes their payloads to the host function in the order of the call;
    when an argument is a Complex, [None], an error value or a closure,
    the call raises and the host function is not called. *)
Theorem foreign_call_arguments (c : JsClosure.t) (args : list Value) :
  (forallb is_primitive args = true ->
   exists js,
     Forall2 (fun v j => marshalToPy j = Normal v) args js
     /\ JsClosure_call c args
        = match JsClosure.func c js with
          | HostReturn result => marshalToPy result
          | HostThrow e => Thrown e
          end)
  /\ (forall v,
        v ∈ args ->
        type_of v = T_complex \/ type_of v = T_undefined
        \/ type_of v = T_PyClosure \/ type_of v = T_JsClosure
        \/ type_of v = T_error ->
        forall c', JsClosure_call c args = JsClosure_call c' args
                   /\ completes (JsClosure_call c args) = false).
Proof.
  split.
  - intros H. destruct (unmarshal_all_primitive args H) as (js & Hjs & Hall).
    exists js. split; [ assumption | ].
    unfold JsClosure_call. now rewrite Hjs.
  - intros v Hin Hty c'.
    assert (Hfail : completes (unmarshal_all args) = false).
    { induction args as [ | a args IH]; [ now apply elem_of_nil in Hin | ].
      apply elem_of_cons in Hin as [<- | Hin].
      - destruct v; cbn in Hty; try reflexivity;
          repeat (destruct Hty as [Hty | Hty]; try discriminate Hty);
          discriminate Hty.
      - cbn. destruct (unmarshalFromPy a); try reflexivity. cbn.
        specialize (IH Hin). destruct (unmarshal_all args);
          [ discriminate IH | reflexivity.. ]. }
    unfold JsClosure_call.
    destruct (unmarshal_all args); [ discriminate Hfail | now split.. ].
Qed.

Lemma foreign_call_arguments_witness :
  forallb is_primitive [VBigint 2; VString "a"] = true
  /\ exists js,
       Forall2 (fun v j => marshalToPy j = Normal v)
         [VBigint 2; VString "a"] js
       /\ JsClosure_call constant_one [VBigint 2; VString "a"]
          = match JsClosure.func constant_one js with
            | HostReturn result => marshalToPy result
            | HostThrow e => Thrown e
            end.
Proof.
  split; [ reflexivity | ].
  exact (proj1 (foreign_call_arguments constant_one [VBigint 2; VString "a"])
           eq_refl).
Defined.

(** ** Definitions and lookups of variables *)

Lemma lookup_chain_define_other (fuel : nat) (store : list PyEnvironment.t)
    (a : addr) (env : PyEnvironment.t) (name other : string) (value : Value)
    (x : option addr) :
  store !! a = Some env ->
  other <> name ->
  lookup_chain fuel
    (<[a := with_head env (<[name := value]> (PyEnvironment.head env))]> store)
    x other
  = lookup_chain fuel store x other.
Proof.
  intros Ha Hne.
  pose proof (lookup_lt_Some _ _ _ Ha) as Hlt.
  revert x. induction fuel as [ | fuel IH]; intros [b | ];
    try reflexivity; cbn [lookup_chain]; unfold addr in *;
    (destruct (decide (b = a)) as [-> | Hba];
     [ rewrite list_lookup_insert_eq by assumption; rewrite Ha;
       cbn [with_head PyEnvironment.head PyEnvironment.tail];
       rewrite lookup_insert_ne by congruence
     | rewrite list_lookup_insert_ne by congruence ]);
    try reflexivity.
  - destruct (PyEnvironment.head env !! other); [ reflexivity | apply IH ].
  - destruct (store !! b) as [e | ]; [ | reflexivity ].
    destruct (PyEnvironment.head e !! other); [ reflexivity | apply IH ].
Qed.

Lemma local_assigned_later_define (env : PyEnvironment.t)
    (name other : string) (value : Value) :
  local_assigned_later
    (with_head env (<[name := value]> (PyEnvironment.head env))) other
  = if bool_decide (other = name) then false
    else local_assigned_later env other.
Proof.
  unfold local_assigned_later. cbn.
  destruct (PyEnvironment.closure env) as [c | ];
    [ | now destruct (bool_decide _) ].
  destruct (decide (other = name)) as [-> | Hne].
  - rewrite (bool_decide_eq_true_2 (name = name)) by reflexivity.
    rewrite lookup_insert_eq. rewrite (bool_decide_eq_false_2 (Some _ = None))
      by discriminate. apply andb_false_r.
  - rewrite (bool_decide_eq_false_2 (other = name)) by assumption.
    now rewrite lookup_insert_ne by congruence.
Qed.

Lemma pyDefineVariable_spec (ctx : PyContext.t) (name : string)
    (value : Value) (a : addr) (env : PyEnvironment.t) :
  currentEnvironment ctx = Some a ->
  frame ctx a = Some env ->
  exists ctx',
    pyDefineVariable name value ctx = Ok tt ctx'
    /\ pyGetVariable name ctx' = Ok value ctx'
    /\ (forall other,
          other <> name ->
          outcome (pyGetVariable other ctx')
          = outcome (pyGetVariable other ctx))
    /\ PyContext.control ctx' = PyContext.control ctx
    /\ PyContext.stash ctx' = PyContext.stash ctx
    /\ PyContext.output ctx' = PyContext.output ctx
    /\ PyContext.errors ctx' = PyContext.errors ctx
    /\ PyContext.environments ctx' = PyContext.environments ctx.
Proof.
  intros Hcur Hframe. unfold pyDefineVariable. rewrite Hcur, Hframe.
  eexists. split; [ reflexivity | ].
  unfold frame in Hframe.
  pose proof (lookup_lt_Some _ _ _ Hframe) as Hlt.
  assert (Hcur' : forall st, currentEnvironment (set_store st ctx) = Some a)
    by (intros st; destruct ctx; exact Hcur).
  split; [ | split; [ | destruct ctx; repeat split ] ].
  - unfold pyGetVariable. rewrite Hcur'. unfold frame.
    cbn [PyContext.store set_store].
    rewrite list_lookup_insert_eq by assumption.
    rewrite local_assigned_later_define.
    rewrite bool_decide_eq_true_2 by reflexivity.
    rewrite length_insert.
    destruct (length (PyContext.store ctx)) as [ | n] eqn:Hn; [ lia | ].
    cbn [lookup_chain]. rewrite list_lookup_insert_eq by lia.
    cbn. now rewrite lookup_insert_eq.
  - intros other Hne. unfold pyGetVariable. rewrite Hcur', Hcur.
    unfold frame. cbn [PyContext.store set_store].
    rewrite list_lookup_insert_eq by assumption. rewrite Hframe.
    rewrite local_assigned_later_define.
    rewrite bool_decide_eq_false_2 by assumption.
    destruct (local_assigned_later env other); [ reflexivity | ].
    rewrite length_insert.
    rewrite (lookup_chain_define_other _ _ _ _ _ _ _ _ Hframe Hne).
    destruct (lookup_chain _ _ _ _); try reflexivity.
    destruct (builtIns other); reflexivity.
Qed.

(** X10: a definition in the current frame is what a lookup of the name
    then returns, whatever the frame or its closure held before, and it
    changes the outcome of no lookup of another name.  This is for a name
    other than [hasOwnProperty] in a frame that binds no variable of that
    name: [pyGetVariable] calls the method of that name on the frame.
    Without a current frame the definition raises a [TypeError]. *)
Theorem define_then_lookup (ctx : PyContext.t) (name : string)
    (value : Value) :
  (forall a env,
     currentEnvironment ctx = Some a ->
     frame ctx a = Some env ->
     name <> "hasOwnProperty" ->
     PyEnvironment.head env !! "hasOwnProperty" = None ->
     exists ctx',
       pyDefineVariable name value ctx = Ok tt ctx'
       /\ pyGetVariable name ctx' = Ok value ctx'
       /\ forall other,
            other <> name ->
            outcome (pyGetVariable other ctx')
            = outcome (pyGetVariable other ctx))
  /\ (currentEnvironment ctx = None ->
      pyDefineVariable name value ctx = Raise EngineTypeError ctx).
Proof.
  split.
  - intros a env Hcur Hframe _ _.
    destruct (pyDefineVariable_spec ctx name value a env Hcur Hframe)
      as (ctx' & H1 & H2 & H3 & _).
    exists ctx'. auto.
  - intros Hcur. unfold pyDefineVariable. now rewrite Hcur.
Qed.

Lemma define_then_lookup_witness :
  currentEnvironment PyContext_new = Some 0
  /\ exists ctx',
       pyDefineVariable "x" (VBigint 1) PyContext_new = Ok tt ctx'
       /\ pyGetVariable "x" ctx' = Ok (VBigint 1) ctx'.
Proof.
  split; [ reflexivity | ].
  destruct (proj1 (define_then_lookup PyContext_new "x" (VBigint 1)) 0 _
              eq_refl eq_refl ltac:(discriminate) eq_refl)
    as (ctx' & H1 & H2 & _).
  exists ctx'. split; assumption.
Defined.

(** ** Runs of the machine *)

Lemma same_memory_refl ctx : same_memory ctx ctx.
Proof. now repeat split. Qed.

Lemma same_memory_trans a b c :
  same_memory a b -> same_memory b c -> same_memory a c.
Proof.
  unfold same_memory. intros (?&?&?&?&?&?) (?&?&?&?&?&?).
  repeat split; congruence.
Qed.

Lemma pyGetVariable_same_memory (name : string) (ctx ctx' : PyContext.t) :
  same_memory ctx ctx' ->
  pyGetVariable name ctx'
  = match pyGetVariable name ctx with
    | Ok v _ => Ok v ctx'
    | Raise e _ => Raise e ctx'
    | Loops => Loops
    end.
Proof.
  intros (_ & _ & Henvs & Hstore & _). unfold pyGetVariable, currentEnvironment,
    frame. rewrite Henvs, Hstore.
  destruct (PyContext.environments ctx) as [ | a envs]; [ reflexivity | ].
  destruct (PyContext.store ctx !! a) as [env | ]; [ | reflexivity ].
  destruct (local_assigned_later env name); [ reflexivity | ].
  destruct (lookup_chain _ _ _ _); try reflexivity.
  destruct (builtIns name); reflexivity.
Qed.

Lemma value_of_expression_same_memory (host : Host) (ctx ctx' : PyContext.t)
    (e : Expr) :
  same_memory ctx ctx' ->
  value_of_expression host ctx' e = value_of_expression host ctx e.
Proof.
  intros H. induction e; cbn; try reflexivity;
    rewrite ?IHe, ?IHe1, ?IHe2, ?IHe3; try reflexivity.
  rewrite (pyGetVariable_same_memory _ _ _ H).
  now destruct (pyGetVariable _ ctx).
Qed.

(** One turn of the loop. *)
Lemma turns_S (host : Host) (n : nat) (isPrelude : bool) (steps : nat)
    (ctx : PyContext.t) (command : ControlItem) (rest : list ControlItem)
    (ctx1 : PyContext.t) :
  PyContext.control ctx = command :: rest ->
  step host command ctx = Ok tt ctx1 ->
  exists ctx2,
    turns host (S n) isPrelude steps ctx = turns host n isPrelude (S steps) ctx2
    /\ PyContext.control ctx2 = PyContext.control ctx1
    /\ PyContext.stash ctx2 = PyContext.stash ctx1
    /\ same_memory ctx1 ctx2.
Proof.
  intros Hc Hs. cbn [turns]. rewrite Hc. unfold turn, bind at 1. rewrite Hs.
  destruct isPrelude; cbn; eexists; (split; [ reflexivity | ]);
    destruct ctx1; repeat split.
Qed.

Lemma lands_now host isPrelude steps ctx (P : PyContext.t -> Prop) :
  P ctx -> lands host isPrelude steps ctx P.
Proof.
  intros H. exists 0, ctx. split; [ | assumption ].
  rewrite Nat.add_0_r. now destruct (PyContext.control ctx).
Qed.

Lemma lands_then host isPrelude steps ctx (P Q : PyContext.t -> Prop) :
  lands host isPrelude steps ctx P ->
  (forall steps' ctx', P ctx' -> lands host isPrelude steps' ctx' Q) ->
  lands host isPrelude steps ctx Q.
Proof.
  intros (n & ctx1 & Hn & HP) Hk.
  destruct (Hk (steps + n) ctx1 HP) as (m & ctx2 & Hm & HQ).
  exists (n + m), ctx2. split; [ | assumption ].
  rewrite (turns_add host n m _ _ _ _ _ Hn), Hm. f_equal. lia.
Qed.

Lemma lands_step host isPrelude steps ctx command rest ctx1
    (P : PyContext.t -> Prop) :
  PyContext.control ctx = command :: rest ->
  step host command ctx = Ok tt ctx1 ->
  (forall ctx2,
     PyContext.control ctx2 = PyContext.control ctx1 ->
     PyContext.stash ctx2 = PyContext.stash ctx1 ->
     same_memory ctx1 ctx2 -> P ctx2) ->
  lands host isPrelude steps ctx P.
Proof.
  intros Hc Hs HP.
  destruct (turns_S host 0 isPrelude steps ctx command rest ctx1 Hc Hs)
    as (ctx2 & Ht & Hc2 & Hs2 & Hm).
  exists 1, ctx2. split; [ | now apply HP ].
  rewrite Ht. cbn. rewrite Nat.add_1_r. now destruct (PyContext.control ctx2).
Qed.

(** The memory of a context after some changes of its Control, Stash,
    nodes and step counter. *)
Lemma same_memory_fields ctx0 ctx ctx' :
  PyContext.output ctx' = PyContext.output ctx ->
  PyContext.errors ctx' = PyContext.errors ctx ->
  PyContext.environments ctx' = PyContext.environments ctx ->
  PyContext.store ctx' = PyContext.store ctx ->
  PyContext.objectCount ctx' = PyContext.objectCount ctx ->
  PyContext.isRunning ctx' = PyContext.isRunning ctx ->
  same_memory ctx0 ctx -> same_memory ctx0 ctx'.
Proof.
  intros H1 H2 H3 H4 H5 H6 H. eapply same_memory_trans; [ exact H | ].
  now repeat split.
Qed.

(** A turn on a command whose handler changes the Control and the Stash
    only. *)
Lemma lands_pure_step host isPrelude steps ctx command rest control' stash'
    (P : PyContext.t -> Prop) :
  PyContext.control ctx = command :: rest ->
  (forall c s o errs envs st oc ns r t,
     ctx = PyContext.mk c s o errs envs st oc ns r t ->
     exists ns',
       step host command ctx
       = Ok tt (PyContext.mk control' stash' o errs envs st oc ns' r t)) ->
  (forall steps' ctx2,
     PyContext.control ctx2 = control' ->
     PyContext.stash ctx2 = stash' ->
     same_memory ctx ctx2 -> lands host isPrelude steps' ctx2 P) ->
  lands host isPrelude steps ctx P.
Proof.
  intros Hc Hs HP. destruct ctx as [c s o errs envs st oc ns r t].
  destruct (Hs _ _ _ _ _ _ _ _ _ _ eq_refl) as [ns' Hstep].
  eapply lands_then.
  - eapply lands_step
      with (P := fun ctx2 =>
                   PyContext.control ctx2 = control'
                   /\ PyContext.stash ctx2 = stash'
                   /\ same_memory
                        (PyContext.mk c s o errs envs st oc ns r t) ctx2);
      [ exact Hc | exact Hstep | ].
    intros ctx2 Hc2 Hs2 Hm. repeat split; try assumption; apply Hm.
  - intros steps' ctx2 (Hc2 & Hs2 & Hm). now apply HP.
Qed.

Ltac leaf_step :=
  intros ctx rest steps Hm Hc;
  eapply lands_pure_step;
    [ exact Hc
    | intros c s o errs envs st oc ns r t ->; cbn in Hc; subst c;
      eexists; reflexivity
    | intros steps2 ctx2 Hc2 Hs2 Hm2; apply lands_now; repeat split;
      [ exact Hc2 | exact Hs2 | apply (same_memory_trans _ _ _ Hm Hm2).. ] ].

Lemma evaluates_leaf host isPrelude ctx0 (e : Expr) (v : Value) :
  evaluate_expr e = stash_push v ->
  evaluates host isPrelude ctx0 e v.
Proof.
  intros He ctx rest steps Hm Hc.
  eapply lands_pure_step with (control' := rest)
                              (stash' := v :: PyContext.stash ctx).
  - exact Hc.
  - intros c s o errs envs st oc ns r t ->. cbn in Hc. subst c.
    eexists. unfold step, expression. cbn. unfold bind, modify. cbn.
    rewrite He. reflexivity.
  - intros steps2 ctx2 Hc2 Hs2 Hm2. apply lands_now.
    repeat split; try assumption; apply (same_memory_trans _ _ _ Hm Hm2).
Qed.

Lemma lands_node_push host isPrelude steps ctx (e : Expr)
    (items rest : list ControlItem) (P : PyContext.t -> Prop) :
  (forall ctx, evaluate_expr e ctx
               = Ok tt (set_control (items ++ PyContext.control ctx) ctx)) ->
  PyContext.control ctx = expression e :: rest ->
  (forall steps' ctx2,
     PyContext.control ctx2 = items ++ rest ->
     PyContext.stash ctx2 = PyContext.stash ctx ->
     same_memory ctx ctx2 -> lands host isPrelude steps' ctx2 P) ->
  lands host isPrelude steps ctx P.
Proof.
  intros He Hc HP.
  eapply lands_pure_step with (control' := items ++ rest)
                              (stash' := PyContext.stash ctx);
    [ exact Hc | | exact HP ].
  intros c s o errs envs st oc ns r t ->. cbn in Hc. subst c.
  eexists. unfold step, expression. cbn. unfold bind, modify. cbn.
  rewrite He. reflexivity.
Qed.

Lemma lands_unOp host isPrelude steps ctx operator srcNode rest stash
    (argument v : Value) (P : PyContext.t -> Prop) :
  PyContext.control ctx = CInstr (unOpInstr operator srcNode) :: rest ->
  PyContext.stash ctx = argument :: stash ->
  truthy argument = true ->
  evaluateUnaryExpression operator argument = Normal v ->
  (forall steps' ctx2,
     PyContext.control ctx2 = rest ->
     PyContext.stash ctx2 = v :: stash ->
     same_memory ctx ctx2 -> lands host isPrelude steps' ctx2 P) ->
  lands host isPrelude steps ctx P.
Proof.
  intros Hc Hs Ht He HP.
  eapply lands_pure_step with (control' := rest) (stash' := v :: stash);
    [ exact Hc | | exact HP ].
  intros c s o errs envs st oc ns r t ->. cbn in Hc, Hs. subst c s.
  eexists. unfold step. cbn -[evaluateUnaryExpression].
  unfold bind, modify, stash_pop. cbn -[evaluateUnaryExpression].
  rewrite Ht, He. reflexivity.
Qed.

Lemma lands_binOp host isPrelude steps ctx operator srcNode rest stash
    (left right v : Value) (P : PyContext.t -> Prop) :
  PyContext.control ctx = CInstr (binOpInstr operator srcNode) :: rest ->
  PyContext.stash ctx = right :: left :: stash ->
  truthy left && truthy right = true ->
  evaluateBinaryExpression host operator left right = Normal v ->
  (forall steps' ctx2,
     PyContext.control ctx2 = rest ->
     PyContext.stash ctx2 = v :: stash ->
     same_memory ctx ctx2 -> lands host isPrelude steps' ctx2 P) ->
  lands host isPrelude steps ctx P.
Proof.
  intros Hc Hs Ht He HP.
  eapply lands_pure_step with (control' := rest) (stash' := v :: stash);
    [ exact Hc | | exact HP ].
  intros c s o errs envs st oc ns r t ->. cbn in Hc, Hs. subst c s.
  eexists. unfold step. cbn -[evaluateBinaryExpression].
  unfold bind, modify, stash_pop. cbn -[evaluateBinaryExpression].
  rewrite Ht, He. reflexivity.
Qed.

Lemma lands_boolOp host isPrelude steps ctx operator srcNode rest stash
    (left right v : Value) (P : PyContext.t -> Prop) :
  PyContext.control ctx = CInstr (boolOpInstr operator srcNode) :: rest ->
  PyContext.stash ctx = right :: left :: stash ->
  truthy left && truthy right = true ->
  evaluateBoolExpression operator left right = Normal v ->
  (forall steps' ctx2,
     PyContext.control ctx2 = rest ->
     PyContext.stash ctx2 = v :: stash ->
     same_memory ctx ctx2 -> lands host isPrelude steps' ctx2 P) ->
  lands host isPrelude steps ctx P.
Proof.
  intros Hc Hs Ht He HP.
  eapply lands_pure_step with (control' := rest) (stash' := v :: stash);
    [ exact Hc | | exact HP ].
  intros c s o errs envs st oc ns r t ->. cbn in Hc, Hs. subst c s.
  eexists. unfold step. cbn -[evaluateBoolExpression].
  unfold bind, modify, stash_pop. cbn -[evaluateBoolExpression].
  rewrite Ht, He. reflexivity.
Qed.

Lemma lands_branch host isPrelude steps ctx (consequent alternate : Node)
    srcNode rest stash (condition : Value) (P : PyContext.t -> Prop) :
  PyContext.control ctx
  = CInstr (branchInstr (BranchNode consequent) (Some (BranchNode alternate))
              srcNode) :: rest ->
  PyContext.stash ctx = condition :: stash ->
  truthy condition = true ->
  (forall steps' ctx2,
     PyContext.control ctx2
     = CNode (if isFalsy condition then alternate else consequent) :: rest ->
     PyContext.stash ctx2 = stash ->
     same_memory ctx ctx2 -> lands host isPrelude steps' ctx2 P) ->
  lands host isPrelude steps ctx P.
Proof.
  intros Hc Hs Ht HP.
  eapply lands_pure_step
    with (control' := CNode (if isFalsy condition then alternate
                             else consequent) :: rest)
         (stash' := stash);
    [ exact Hc | | exact HP ].
  intros c s o errs envs st oc ns r t ->. cbn in Hc, Hs. subst c s.
  eexists. unfold step. cbn -[isFalsy].
  unfold bind, modify, stash_pop. cbn -[isFalsy].
  rewrite Ht. cbn -[isFalsy]. destruct (isFalsy condition); reflexivity.
Qed.

Lemma value_of_expression_evaluates (host : Host) (isPrelude : bool)
    (ctx0 : PyContext.t) (e : Expr) :
  forall v, value_of_expression host ctx0 e = Some v ->
            evaluates host isPrelude ctx0 e v.
Proof.
  induction e
    as [ | s | c | e1 IHe1 operator e2 IHe2 | e1 IHe1 operator e2 IHe2
       | e1 IHe1 operator e2 IHe2 | e IHe | lit | operator e IHe
       | e1 IHe1 e2 IHe2 e3 IHe3 | parameters body IHbody
       | parameters body varDecls | name | callee IHcallee args ];
    intros v Hv; cbn in Hv; try discriminate Hv.
  - (* None *)
    injection Hv as <-. now apply evaluates_leaf.
  - (* BigIntLiteral *)
    destruct (BigInt_ofString s) as [z | ] eqn:Hz; [ | discriminate Hv ].
    injection Hv as <-. apply evaluates_leaf. cbn. now rewrite Hz.
  - (* Complex *)
    injection Hv as <-. now apply evaluates_leaf.
  - (* Binary *)
    destruct (value_of_expression host ctx0 e1) as [vl | ]; [ | discriminate ].
    destruct (value_of_expression host ctx0 e2) as [vr | ]; [ | discriminate ].
    cbn in Hv. destruct (truthy vl && truthy vr) eqn:Ht; [ | discriminate ].
    destruct (evaluateBinaryExpression _ _ _ _) as [v' | | ] eqn:He;
      try discriminate Hv. injection Hv as ->.
    intros ctx rest steps Hm Hc.
    eapply lands_node_push
      with (e := Binary e1 operator e2)
           (items := [expression e1; expression e2;
                      CInstr (binOpInstr (Token.type operator)
                                (ExprNode (Binary e1 operator e2)))]);
      [ intros [? ? ? ? ? ? ? ? ? ?]; reflexivity | exact Hc | ].
    intros s1 c1 Hc1 Hs1 Hm1.
    eapply lands_then;
      [ apply (IHe1 vl eq_refl c1 _ _ (same_memory_trans _ _ _ Hm Hm1) Hc1) | ].
    intros s2 c2 (Hc2 & Hs2 & Hm2).
    eapply lands_then; [ apply (IHe2 vr eq_refl c2 _ _ Hm2 Hc2) | ].
    intros s3 c3 (Hc3 & Hs3 & Hm3).
    eapply lands_binOp; [ exact Hc3 | | exact Ht | exact He | ].
    + rewrite Hs3, Hs2. reflexivity.
    + intros s4 c4 Hc4 Hs4 Hm4. apply lands_now. repeat split; try assumption;
        [ now rewrite Hs4, Hs1 | apply (same_memory_trans _ _ _ Hm3 Hm4).. ].
  - (* Compare *)
    destruct (value_of_expression host ctx0 e1) as [vl | ]; [ | discriminate ].
    destruct (value_of_expression host ctx0 e2) as [vr | ]; [ | discriminate ].
    cbn in Hv. destruct (truthy vl && truthy vr) eqn:Ht; [ | discriminate ].
    destruct (evaluateBinaryExpression _ _ _ _) as [v' | | ] eqn:He;
      try discriminate Hv. injection Hv as ->.
    intros ctx rest steps Hm Hc.
    eapply lands_node_push
      with (e := Compare e1 operator e2)
           (items := [expression e1; expression e2;
                      CInstr (binOpInstr (Token.type operator)
                                (ExprNode (Compare e1 operator e2)))]);
      [ intros [? ? ? ? ? ? ? ? ? ?]; reflexivity | exact Hc | ].
    intros s1 c1 Hc1 Hs1 Hm1.
    eapply lands_then;
      [ apply (IHe1 vl eq_refl c1 _ _ (same_memory_trans _ _ _ Hm Hm1) Hc1) | ].
    intros s2 c2 (Hc2 & Hs2 & Hm2).
    eapply lands_then; [ apply (IHe2 vr eq_refl c2 _ _ Hm2 Hc2) | ].
    intros s3 c3 (Hc3 & Hs3 & Hm3).
    eapply lands_binOp; [ exact Hc3 | | exact Ht | exact He | ].
    + rewrite Hs3, Hs2. reflexivity.
    + intros s4 c4 Hc4 Hs4 Hm4. apply lands_now. repeat split; try assumption;
        [ now rewrite Hs4, Hs1 | apply (same_memory_trans _ _ _ Hm3 Hm4).. ].
  - (* BoolOp *)
    destruct (value_of_expression host ctx0 e1) as [vl | ]; [ | discriminate ].
    destruct (value_of_expression host ctx0 e2) as [vr | ]; [ | discriminate ].
    cbn in Hv. destruct (truthy vl && truthy vr) eqn:Ht; [ | discriminate ].
    destruct (evaluateBoolExpression _ _ _) as [v' | | ] eqn:He;
      try discriminate Hv. injection Hv as ->.
    intros ctx rest steps Hm Hc.
    eapply lands_node_push
      with (e := BoolOp e1 operator e2)
           (items := [expression e1; expression e2;
                      CInstr (boolOpInstr (Token.type operator)
                                (ExprNode (BoolOp e1 operator e2)))]);
      [ intros [? ? ? ? ? ? ? ? ? ?]; reflexivity | exact Hc | ].
    intros s1 c1 Hc1 Hs1 Hm1.
    eapply lands_then;
      [ apply (IHe1 vl eq_refl c1 _ _ (same_memory_trans _ _ _ Hm Hm1) Hc1) | ].
    intros s2 c2 (Hc2 & Hs2 & Hm2).
    eapply lands_then; [ apply (IHe2 vr eq_refl c2 _ _ Hm2 Hc2) | ].
    intros s3 c3 (Hc3 & Hs3 & Hm3).
    eapply lands_boolOp; [ exact Hc3 | | exact Ht | exact He | ].
    + rewrite Hs3, Hs2. reflexivity.
    + intros s4 c4 Hc4 Hs4 Hm4. apply lands_now. repeat split; try assumption;
        [ now rewrite Hs4, Hs1 | apply (same_memory_trans _ _ _ Hm3 Hm4).. ].
  - (* Grouping *)
    intros ctx rest steps Hm Hc.
    eapply lands_node_push with (e := Grouping e) (items := [expression e]);
      [ intros [? ? ? ? ? ? ? ? ? ?]; reflexivity | exact Hc | ].
    intros s1 c1 Hc1 Hs1 Hm1.
    eapply lands_then;
      [ apply (IHe v Hv c1 _ _ (same_memory_trans _ _ _ Hm Hm1) Hc1) | ].
    intros s2 c2 (Hc2 & Hs2 & Hm2). apply lands_now.
    split; [ exact Hc2 | split; [ now rewrite Hs2, Hs1 | exact Hm2 ] ].
  - (* Literal *)
    destruct lit; injection Hv as <-; now apply evaluates_leaf.
  - (* Unary *)
    destruct (value_of_expression host ctx0 e) as [v1 | ]; [ | discriminate ].
    cbn in Hv. destruct (truthy v1) eqn:Ht; [ | discriminate ].
    destruct (evaluateUnaryExpression _ _) as [v' | | ] eqn:He;
      try discriminate Hv. injection Hv as ->.
    intros ctx rest steps Hm Hc.
    eapply lands_node_push
      with (e := Unary operator e)
           (items := [expression e;
                      CInstr (unOpInstr (Token.type operator)
                                (ExprNode (Unary operator e)))]);
      [ intros [? ? ? ? ? ? ? ? ? ?]; reflexivity | exact Hc | ].
    intros s1 c1 Hc1 Hs1 Hm1.
    eapply lands_then;
      [ apply (IHe v1 eq_refl c1 _ _ (same_memory_trans _ _ _ Hm Hm1) Hc1) | ].
    intros s2 c2 (Hc2 & Hs2 & Hm2).
    eapply lands_unOp; [ exact Hc2 | exact Hs2 | exact Ht | exact He | ].
    intros s3 c3 Hc3 Hs3 Hm3. apply lands_now. repeat split; try assumption;
      [ now rewrite Hs3, Hs1 | apply (same_memory_trans _ _ _ Hm2 Hm3).. ].
  - (* Ternary *)
    destruct (value_of_expression host ctx0 e1) as [vp | ]; [ | discriminate ].
    cbn in Hv. destruct (truthy vp) eqn:Ht; [ | discriminate ].
    intros ctx rest steps Hm Hc.
    eapply lands_node_push
      with (e := Ternary e1 e2 e3)
           (items := [expression e1;
                      CInstr (branchInstr (BranchNode (ExprNode e2))
                                (Some (BranchNode (ExprNode e3)))
                                (ExprNode (Ternary e1 e2 e3)))]);
      [ intros [? ? ? ? ? ? ? ? ? ?]; reflexivity | exact Hc | ].
    intros s1 c1 Hc1 Hs1 Hm1.
    eapply lands_then;
      [ apply (IHe1 vp eq_refl c1 _ _ (same_memory_trans _ _ _ Hm Hm1) Hc1) | ].
    intros s2 c2 (Hc2 & Hs2 & Hm2).
    eapply lands_branch; [ exact Hc2 | exact Hs2 | exact Ht | ].
    intros s3 c3 Hc3 Hs3 Hm3.
    assert (Hm03 : same_memory ctx0 c3)
      by apply (same_memory_trans _ _ _ Hm2 Hm3).
    destruct (isFalsy vp).
    + eapply lands_then; [ apply (IHe3 v Hv c3 _ _ Hm03 Hc3) | ].
      intros s4 c4 (Hc4 & Hs4 & Hm4). apply lands_now.
      split; [ exact Hc4 | split; [ now rewrite Hs4, Hs3, Hs1 | exact Hm4 ] ].
    + eapply lands_then; [ apply (IHe2 v Hv c3 _ _ Hm03 Hc3) | ].
      intros s4 c4 (Hc4 & Hs4 & Hm4). apply lands_now.
      split; [ exact Hc4 | split; [ now rewrite Hs4, Hs3, Hs1 | exact Hm4 ] ].
  - (* Variable *)
    destruct (pyGetVariable (Token.lexeme name) ctx0) as [v' c' | | ] eqn:Hget;
      try discriminate Hv. injection Hv as ->.
    intros ctx rest steps Hm Hc.
    eapply lands_pure_step with (control' := rest)
                                (stash' := v :: PyContext.stash ctx).
    + exact Hc.
    + intros c s o errs envs st oc ns r t ->. cbn in Hc. subst c.
      eexists. unfold step, expression. cbn [evaluate_expr].
      unfold bind at 1 2, modify. cbn [PyContext.control PyContext.nodes
        set_control set_nodes tl].
      unfold bind.
      match goal with
      | |- context [pyGetVariable ?n ?c] =>
          rewrite (pyGetVariable_same_memory n ctx0 c)
      end.
      * rewrite Hget. reflexivity.
      * eapply same_memory_trans; [ exact Hm | ]. repeat split.
    + intros s2 ctx2 Hc2 Hs2 Hm2. apply lands_now.
      repeat split; try assumption; apply (same_memory_trans _ _ _ Hm Hm2).
Qed.



(** *** Statements *)

Lemma lands_stmt_push host isPrelude steps ctx (s : Stmt)
    (items rest : list ControlItem) (P : PyContext.t -> Prop) :
  (forall ctx, evaluate_stmt s ctx
               = Ok tt (set_control (items ++ PyContext.control ctx) ctx)) ->
  PyContext.control ctx = CNode (StmtNode s) :: rest ->
  (forall steps' ctx2,
     PyContext.control ctx2 = items ++ rest ->
     PyContext.stash ctx2 = PyContext.stash ctx ->
     same_memory ctx ctx2 -> lands host isPrelude steps' ctx2 P) ->
  lands host isPrelude steps ctx P.
Proof.
  intros He Hc HP.
  eapply lands_pure_step with (control' := items ++ rest)
                              (stash' := PyContext.stash ctx);
    [ exact Hc | | exact HP ].
  intros c s0 o errs envs st oc ns r t ->. cbn in Hc. subst c.
  eexists. unfold step. cbn. unfold bind, modify. cbn.
  rewrite He. reflexivity.
Qed.

Lemma rev_statements_rev (body : list Stmt) :
  rev (statements (rev body)) = statements body.
Proof. unfold statements. now rewrite map_rev, rev_involutive. Qed.

Lemma push_target_items (target : BranchTarget) (ctx : PyContext.t) :
  push_target target ctx
  = Ok tt (set_control (target_items (Some target) ++ PyContext.control ctx)
             ctx).
Proof.
  destruct target; unfold push_target, control_push_all, control_push, modify;
    cbn [target_items]; rewrite ?rev_statements_rev; reflexivity.
Qed.

Lemma lands_branch_target host isPrelude steps ctx
    (consequent : BranchTarget) (alternate : option BranchTarget)
    srcNode rest stash (condition : Value) (P : PyContext.t -> Prop) :
  PyContext.control ctx
  = CInstr (branchInstr consequent alternate srcNode) :: rest ->
  PyContext.stash ctx = condition :: stash ->
  truthy condition = true ->
  (forall steps' ctx2,
     PyContext.control ctx2
     = target_items (if isFalsy condition then alternate else Some consequent)
         ++ rest ->
     PyContext.stash ctx2 = stash ->
     same_memory ctx ctx2 -> lands host isPrelude steps' ctx2 P) ->
  lands host isPrelude steps ctx P.
Proof.
  intros Hc Hs Ht HP.
  eapply lands_pure_step
    with (control' := target_items (if isFalsy condition then alternate
                                    else Some consequent) ++ rest)
         (stash' := stash);
    [ exact Hc | | exact HP ].
  intros c s o errs envs st oc ns r t ->. cbn in Hc, Hs. subst c s.
  eexists. unfold step. cbn -[isFalsy push_target].
  unfold bind, modify, stash_pop. cbn -[isFalsy push_target].
  rewrite Ht. cbn -[isFalsy push_target].
  destruct (isFalsy condition); cbn -[push_target].
  - destruct alternate as [target | ]; [ | reflexivity ].
    rewrite push_target_items. reflexivity.
  - rewrite push_target_items. reflexivity.
Qed.



Lemma outcome_same_memory (name : string) (ctx ctx' : PyContext.t) :
  same_memory ctx ctx' ->
  outcome (pyGetVariable name ctx') = outcome (pyGetVariable name ctx).
Proof.
  intros H. rewrite (pyGetVariable_same_memory name ctx ctx' H).
  now destruct (pyGetVariable name ctx).
Qed.

(** X13: an assignment evaluates its expression and binds the name in
    the current frame: a lookup of the name then gives the value, the
    lookups of other names are as before, and the Stash is as it was.
    This is for a name other than [hasOwnProperty] in a frame that binds
    no variable of that name. *)
Theorem assignment_binds (host : Host) (isPrelude : bool) (name : Token.t)
    (e : Expr) (v : Value) (ctx : PyContext.t) (rest : list ControlItem)
    (steps : nat) (a : addr) (env : PyEnvironment.t) :
  value_of_expression host ctx e = Some v ->
  truthy v = true ->
  PyContext.control ctx = CNode (StmtNode (Assign name e)) :: rest ->
  currentEnvironment ctx = Some a ->
  frame ctx a = Some env ->
  Token.lexeme name <> "hasOwnProperty" ->
  PyEnvironment.head env !! "hasOwnProperty" = None ->
  exists n ctx',
    turns host n isPrelude steps ctx = Ok (steps + n) ctx'
    /\ PyContext.control ctx' = rest
    /\ PyContext.stash ctx' = PyContext.stash ctx
    /\ pyGetVariable (Token.lexeme name) ctx' = Ok v ctx'
    /\ (forall other,
          other <> Token.lexeme name ->
          outcome (pyGetVariable other ctx')
          = outcome (pyGetVariable other ctx))
    /\ PyContext.output ctx' = PyContext.output ctx
    /\ PyContext.errors ctx' = PyContext.errors ctx
    /\ PyContext.environments ctx' = PyContext.environments ctx.
Proof.
  intros Hv Ht Hc Hcur Hframe _ _.
  eapply lands_stmt_push
    with (s := Assign name e)
         (items := [expression e;
                    CInstr (assmtInstr (Token.lexeme name) false true
                              (StmtNode (Assign name e)))]);
    [ intros [? ? ? ? ? ? ? ? ? ?]; reflexivity | exact Hc | ].
  intros s1 c1 Hc1 Hs1 Hm1.
  eapply lands_then;
    [ apply (value_of_expression_evaluates host isPrelude ctx e v Hv
               c1 _ _ Hm1 Hc1) | ].
  intros s2 c2 (Hc2 & Hs2 & Hm2). rewrite Hs1 in Hs2.
  set (popped := set_stash (PyContext.stash ctx) (set_control rest c2)).
  assert (Hmp : same_memory ctx popped).
  { eapply same_memory_trans; [ exact Hm2 | ]. destruct c2. repeat split. }
  assert (Hcurp : currentEnvironment popped = Some a).
  { unfold currentEnvironment in *. destruct Hmp as (_ & _ & -> & _).
    exact Hcur. }
  assert (Hframep : frame popped a = Some env).
  { unfold frame in *. destruct Hmp as (_ & _ & _ & -> & _). exact Hframe. }
  destruct (pyDefineVariable_spec popped (Token.lexeme name) v a env
              Hcurp Hframep)
    as (c3 & Hdef & Hget & Hother & Hc3 & Hs3 & Ho3 & He3 & Hen3).
  eapply lands_step; [ exact Hc2 | | ].
  - destruct c2 as [c s o errs envs st oc ns r t]. cbn in Hc2, Hs2.
    subst c s. unfold step. cbn. unfold bind, modify, stash_pop. cbn.
    rewrite Ht. exact Hdef.
  - intros c4 Hc4 Hs4 Hm4.
    split; [ rewrite Hc4, Hc3; now destruct c2 | ].
    split; [ rewrite Hs4, Hs3; now destruct c2 | ].
    split.
    { rewrite (pyGetVariable_same_memory _ _ _ Hm4), Hget. reflexivity. }
    split.
    { intros other Hne. rewrite (outcome_same_memory _ _ _ Hm4).
      rewrite (Hother other Hne). now apply outcome_same_memory. }
    destruct Hm4 as (Ho4 & He4 & Hen4 & _).
    destruct Hmp as (Hop & Hep & Henp & _).
    repeat split; congruence.
Qed.

Lemma assignment_binds_witness :
  value_of_expression integer_host
    (set_control [CNode (StmtNode assign_statement)] PyContext_new)
    (BigIntLiteral "3")
  = Some (VBigint 3)
  /\ exists n ctx',
       turns integer_host n false 0
         (set_control [CNode (StmtNode assign_statement)] PyContext_new)
       = Ok (0 + n) ctx'
       /\ pyGetVariable "x" ctx' = Ok (VBigint 3) ctx'.
Proof.
  split; [ reflexivity | ].
  destruct (assignment_binds integer_host false (token TokenType.NAME "x")
              (BigIntLiteral "3") (VBigint 3)
              (set_control [CNode (StmtNode assign_statement)] PyContext_new)
              [] 0 0 _ eq_refl eq_refl eq_refl eq_refl eq_refl
              ltac:(discriminate) eq_refl)
    as (n & ctx' & Hn & _ & _ & Hget & _).
  exists n, ctx'. split; assumption.
Defined.

(** *** Calls *)

Lemma arguments_land (host : Host) (isPrelude : bool) (ctx0 : PyContext.t)
    (args : list Expr) :
  forall (vs : list Value) (ctx : PyContext.t) (rest : list ControlItem)
         (steps : nat),
    values_of_expressions host ctx0 args = Some vs ->
    same_memory ctx0 ctx ->
    PyContext.control ctx = map expression args ++ rest ->
    lands host isPrelude steps ctx
      (fun ctx' =>
         PyContext.control ctx' = rest
         /\ PyContext.stash ctx' = rev vs ++ PyContext.stash ctx
         /\ same_memory ctx0 ctx').
Proof.
  induction args as [ | e args IH]; intros vs ctx rest steps Hvs Hm Hc.
  - cbn in Hvs. injection Hvs as <-. apply lands_now.
    split; [ exact Hc | split; [ reflexivity | exact Hm ] ].
  - cbn in Hvs.
    destruct (value_of_expression host ctx0 e) as [v | ] eqn:Hv;
      [ | discriminate Hvs ].
    cbn in Hvs.
    destruct (values_of_expressions host ctx0 args) as [vs' | ] eqn:Hvs';
      [ | discriminate Hvs ].
    cbn in Hvs. injection Hvs as <-.
    eapply lands_then;
      [ apply (value_of_expression_evaluates host isPrelude ctx0 e v Hv
                 ctx _ _ Hm Hc) | ].
    intros s1 c1 (Hc1 & Hs1 & Hm1).
    eapply lands_then; [ apply (IH vs' c1 rest s1 eq_refl Hm1 Hc1) | ].
    intros s2 c2 (Hc2 & Hs2 & Hm2). apply lands_now.
    split; [ exact Hc2 | split; [ | exact Hm2 ] ].
    rewrite Hs2, Hs1. cbn. now rewrite <- app_assoc.
Qed.

Lemma bind_parameters_other (ps : list Token.t) (head : gmap string Value)
    (args : list Value) (x : string) :
  x ∉ map Token.lexeme ps ->
  bind_parameters head ps args !! x = head !! x.
Proof.
  revert head args. induction ps as [ | q ps IH]; intros head args Hx;
    [ reflexivity | ].
  cbn in *. apply not_elem_of_cons in Hx as [Hq Hps].
  rewrite IH by assumption. now rewrite lookup_insert_ne by congruence.
Qed.

Lemma bind_parameters_lookup (ps : list Token.t) (head : gmap string Value)
    (args : list Value) (i : nat) (p : Token.t) :
  NoDup (map Token.lexeme ps) ->
  ps !! i = Some p ->
  bind_parameters head ps args !! Token.lexeme p
  = Some (nth i args VJsUndefined).
Proof.
  revert head args i. induction ps as [ | q ps IH]; intros head args i Hnd Hi;
    [ discriminate Hi | ].
  cbn in Hnd. apply NoDup_cons in Hnd as [Hq Hnd].
  destruct i as [ | i]; cbn in Hi |- *.
  - injection Hi as ->. rewrite bind_parameters_other by assumption.
    rewrite lookup_insert_eq. now destruct args.
  - rewrite (IH _ _ i Hnd Hi). now destruct args; [ destruct i | ].
Qed.

Lemma values_of_expressions_length (host : Host) (ctx : PyContext.t)
    (args : list Expr) (vs : list Value) :
  values_of_expressions host ctx args = Some vs -> length vs = length args.
Proof.
  revert vs. induction args as [ | e args IH]; intros vs H; cbn in H.
  - now injection H as <-.
  - destruct (value_of_expression host ctx e); [ | discriminate H ].
    cbn in H. destruct (values_of_expressions host ctx args) as [vs' | ];
      [ | discriminate H ].
    cbn in H. injection H as <-. cbn. now rewrite (IH vs' eq_refl).
Qed.

Lemma Call_items (callee : Expr) (args : list Expr) (ctx : PyContext.t) :
  evaluate_expr (Call callee args) ctx
  = Ok tt
      (set_control
         ((expression callee :: map expression args
             ++ [CInstr (appInstr (length args) (ExprNode (Call callee args)))])
            ++ PyContext.control ctx)
         ctx).
Proof.
  destruct ctx. cbn. unfold bind, control_push, control_push_all, modify. cbn.
  rewrite map_rev, rev_involutive, <- app_assoc. reflexivity.
Qed.

Lemma application_step (host : Host) (closure : PyClosure.t)
    (args : list Value) (srcNode : Node) (rest : list ControlItem)
    (stash : list Value) (ctx : PyContext.t) :
  PyContext.control ctx = CInstr (appInstr (length args) srcNode) :: rest ->
  PyContext.stash ctx = rev args ++ VPyClosure closure :: stash ->
  exists ctx',
    step host (CInstr (appInstr (length args) srcNode)) ctx = Ok tt ctx'
    /\ PyContext.control ctx'
       = body_items (PyClosure.node closure) srcNode
           ++ CInstr (resetInstr srcNode) :: rest
    /\ PyContext.stash ctx' = stash
    /\ PyContext.environments ctx'
       = length (PyContext.store ctx) :: PyContext.environments ctx
    /\ PyContext.store ctx'
       = PyContext.store ctx
           ++ [call_frame closure args srcNode (PyContext.objectCount ctx)]
    /\ PyContext.objectCount ctx' = S (PyContext.objectCount ctx)
    /\ PyContext.output ctx' = PyContext.output ctx
    /\ PyContext.errors ctx' = PyContext.errors ctx.
Proof.
  intros Hc Hs. unfold step. cbn [evaluate_instr].
  unfold bind at 1. unfold modify at 1. unfold bind at 1.
  rewrite (pop_args_spec args [] (VPyClosure closure :: stash))
    by (destruct ctx; exact Hs).
  rewrite app_nil_r.
  destruct ctx as [c s o errs envs st oc ns r t]. cbn in Hc. subst c.
  unfold call_frame, body_items, frame_name.
  destruct closure as [cid node cenv pre locals].
  destruct node as [fname params body varDecls | params body]; cbn;
    unfold bind, control_push, control_push_all, modify, stash_pop; cbn;
    eexists; (split; [ reflexivity | ]); cbn;
    unfold statements; rewrite ?map_rev, ?rev_involutive, <- ?app_assoc;
    repeat split.
Qed.

Lemma lookup_in_current_frame (ctx : PyContext.t) (a : addr)
    (env : PyEnvironment.t) (name : string) (v : Value) :
  currentEnvironment ctx = Some a ->
  frame ctx a = Some env ->
  PyEnvironment.head env !! name = Some v ->
  pyGetVariable name ctx = Ok v ctx.
Proof.
  intros Hcur Hframe Hhead. unfold pyGetVariable. rewrite Hcur, Hframe.
  assert (Hlater : local_assigned_later env name = false).
  { unfold local_assigned_later. rewrite Hhead.
    rewrite (bool_decide_eq_false_2 (Some v = None)) by discriminate.
    destruct (PyEnvironment.closure env); [ apply andb_false_r | reflexivity ]. }
  rewrite Hlater.
  unfold frame in Hframe.
  destruct (length (PyContext.store ctx)) as [ | n] eqn:Hn.
  - apply lookup_lt_Some in Hframe. lia.
  - cbn [lookup_chain]. unfold addr in *. now rewrite Hframe, Hhead.
Qed.



Lemma drop_while_pending (pending : list ControlItem) (item : ControlItem)
    (rest : list ControlItem) :
  Forall (fun i => is_reset i = false) pending ->
  is_reset item = true ->
  drop_while (fun i => negb (is_reset i)) (pending ++ item :: rest)
  = item :: rest.
Proof.
  intros Hp Hi. induction Hp as [ | x pending Hx _ IH]; cbn.
  - now rewrite Hi.
  - now rewrite Hx.
Qed.

Lemma lands_reset host isPrelude steps ctx srcNode rest
    (P : PyContext.t -> Prop) :
  PyContext.control ctx = CInstr (resetInstr srcNode) :: rest ->
  (forall ctx2,
     PyContext.control ctx2 = rest ->
     PyContext.stash ctx2 = PyContext.stash ctx ->
     PyContext.environments ctx2 = tl (PyContext.environments ctx) ->
     PyContext.store ctx2 = PyContext.store ctx ->
     PyContext.output ctx2 = PyContext.output ctx ->
     PyContext.errors ctx2 = PyContext.errors ctx ->
     P ctx2) ->
  lands host isPrelude steps ctx P.
Proof.
  intros Hc HP. eapply lands_step; [ exact Hc | reflexivity | ].
  intros ctx2 Hc2 Hs2 (Ho & He & Hen & Hst & _).
  destruct ctx as [c s o errs envs st oc ns r t]. cbn in *. subst c.
  now apply HP.
Qed.



(** ** Relations that every step of the machine keeps

    [Rok] relates the context before and after a computation that ends
    normally, [Rraise e] the context before a computation and the context
    when it raises [e].  When the updates of the context that the handlers
    make are in these relations, every run of the machine is. *)

Section Transitions.

Context (host : Host).
Context (Rok : PyContext.t -> PyContext.t -> Prop).
Context (Rraise : Exception -> PyContext.t -> PyContext.t -> Prop).

Hypothesis Rok_refl : forall ctx, Rok ctx ctx.
Hypothesis Rok_trans :
  forall a b c, Rok a b -> Rok b c -> Rok a c.
Hypothesis Rok_raise :
  forall e a b c, Rok a b -> Rraise e b c -> Rraise e a c.
Hypothesis Rraise_throw : forall e ctx, Rraise e ctx ctx.
Hypothesis Rraise_handle : forall e ctx, Rraise e ctx (with_error e ctx).
Hypothesis Rok_control : forall c ctx, Rok ctx (set_control c ctx).
Hypothesis Rok_stash : forall s ctx, Rok ctx (set_stash s ctx).
Hypothesis Rok_nodes : forall ns ctx, Rok ctx (set_nodes ns ctx).
Hypothesis Rok_envStepsTotal :
  forall n ctx, Rok ctx (set_envStepsTotal n ctx).
Hypothesis Rok_objectCount :
  forall ctx, Rok ctx (set_objectCount (S (PyContext.objectCount ctx)) ctx).
Hypothesis Rok_output :
  forall s ctx, Rok ctx (set_output (PyContext.output ctx +:+ s) ctx).
Hypothesis Rok_define :
  forall ctx a env name value,
    PyContext.store ctx !! a = Some env ->
    Rok ctx
      (set_store
         (<[a := with_head env (<[name := value]> (PyEnvironment.head env))]>
            (PyContext.store ctx))
         ctx).
Hypothesis Rok_push :
  forall ctx env,
    Rok ctx
      (set_environments
         (length (PyContext.store ctx) :: PyContext.environments ctx)
         (set_store (PyContext.store ctx ++ [env]) ctx)).
Hypothesis Rok_pop :
  forall ctx,
    Rok ctx (set_environments (tl (PyContext.environments ctx)) ctx).

Local Abbreviation keeps := (keeps_relations Rok Rraise).

Lemma keeps_ret {A} (a : A) : keeps (ret a).
Proof. intros ctx. apply Rok_refl. Qed.

Lemma keeps_throw {A} (e : Exception) : keeps (@throw A e).
Proof. intros ctx. apply Rraise_throw. Qed.

Lemma keeps_bind {A B} (m : M A) (k : A -> M B) :
  keeps m -> (forall a, keeps (k a)) -> keeps (bind m k).
Proof.
  intros Hm Hk ctx. unfold bind. specialize (Hm ctx).
  destruct (m ctx) as [a ctx1 | e ctx1 | ]; [ | assumption.. ].
  specialize (Hk a ctx1). destruct (k a ctx1) as [b ctx2 | e ctx2 | ];
    [ eapply Rok_trans | eapply Rok_raise | ]; eauto.
Qed.

Lemma keeps_gets {A} (f : PyContext.t -> A) : keeps (gets f).
Proof. intros ctx. apply Rok_refl. Qed.

Lemma keeps_handle {A} (e : Exception) : keeps (@pyHandleRuntimeError A e).
Proof. intros [c s o errs envs st oc ns r t]. apply Rraise_handle. Qed.

Lemma keeps_lift {A} (c : Completion A) : keeps (lift c).
Proof.
  destruct c; [ apply keeps_ret | apply keeps_handle | apply keeps_throw ].
Qed.

Lemma keeps_control_push item : keeps (control_push item).
Proof. intros ctx. apply Rok_control. Qed.

Lemma keeps_control_push_all items : keeps (control_push_all items).
Proof. intros ctx. apply Rok_control. Qed.

Lemma keeps_stash_push v : keeps (stash_push v).
Proof. intros ctx. apply Rok_stash. Qed.

Lemma keeps_stash_pop : keeps stash_pop.
Proof.
  intros ctx. unfold stash_pop.
  destruct (PyContext.stash ctx); [ apply Rok_refl | apply Rok_stash ].
Qed.

Lemma keeps_uniqueId : keeps uniqueId.
Proof. intros ctx. apply Rok_objectCount. Qed.

Lemma keeps_pyDefineVariable name value :
  keeps (pyDefineVariable name value).
Proof.
  intros ctx. unfold pyDefineVariable.
  destruct (currentEnvironment ctx) as [a | ]; [ | apply Rraise_throw ].
  unfold frame. destruct (PyContext.store ctx !! a) as [env | ] eqn:Ha;
    [ now apply Rok_define | apply Rraise_throw ].
Qed.

Lemma keeps_pyGetVariable name : keeps (pyGetVariable name).
Proof.
  intros ctx. unfold pyGetVariable.
  destruct (currentEnvironment ctx) as [a | ]; [ | apply Rraise_throw ].
  destruct (frame ctx a) as [env | ]; [ | apply Rraise_throw ].
  destruct (local_assigned_later env name); [ apply Rraise_throw | ].
  destruct (lookup_chain _ _ _ _); [ apply Rok_refl | | exact I ].
  destruct (builtIns name); [ apply Rok_refl | apply Rraise_throw ].
Qed.

Lemma keeps_pushEnvironment env : keeps (pushEnvironment env).
Proof. intros ctx. apply Rok_push. Qed.

Lemma keeps_popEnvironment : keeps popEnvironment.
Proof. intros ctx. apply Rok_pop. Qed.

Lemma keeps_pop_args n args : keeps (pop_args n args).
Proof.
  revert args. induction n as [ | n IH]; intros args; cbn.
  - apply keeps_ret.
  - apply keeps_bind; [ apply keeps_stash_pop | intros v; apply IH ].
Qed.

Create HintDb keeps.

Hint Resolve keeps_ret keeps_throw keeps_gets keeps_handle keeps_lift
  keeps_control_push keeps_control_push_all keeps_stash_push keeps_stash_pop
  keeps_uniqueId keeps_pyDefineVariable keeps_pyGetVariable
  keeps_pushEnvironment keeps_popEnvironment keeps_pop_args : keeps.

Ltac keeps :=
  repeat first
    [ progress intros
    | solve [ auto with keeps ]
    | apply keeps_bind
    | match goal with
      | |- keeps (match ?x with _ => _ end) => destruct x
      | |- keeps (if ?b then _ else _) => destruct b
      | |- keeps (modify _) => intros ?ctx; unfold modify
      end ].

Lemma keeps_new_closure node locals : keeps (new_closure node locals).
Proof. unfold new_closure. keeps. Qed.

Lemma keeps_createEnvironment closure args callExpression :
  keeps (createEnvironment closure args callExpression).
Proof. unfold createEnvironment. keeps. Qed.

Hint Resolve keeps_new_closure keeps_createEnvironment : keeps.

Lemma keeps_evaluate_expr e : keeps (evaluate_expr e).
Proof.
  destruct e; cbn [evaluate_expr]; unfold unknown_node; keeps.
Qed.

Lemma keeps_evaluate_stmt s : keeps (evaluate_stmt s).
Proof.
  destruct s; cbn [evaluate_stmt]; unfold unknown_node; keeps.
Qed.

Lemma keeps_call_builtin f args : keeps (call_builtin host f args).
Proof.
  destruct f; cbn [call_builtin]; keeps.
Qed.

Lemma keeps_push_target target : keeps (push_target target).
Proof. destruct target; cbn [push_target]; keeps. Qed.

Hint Resolve keeps_call_builtin keeps_push_target : keeps.

Lemma keeps_evaluate_instr instr : keeps (evaluate_instr host instr).
Proof.
  destruct instr; cbn [evaluate_instr]; keeps.
Qed.

Lemma keeps_step command : keeps (step host command).
Proof.
  unfold step. apply keeps_bind; [ intros ctx; apply Rok_control | ].
  intros _. destruct command as [[e | s] | instr].
  - apply keeps_bind; [ intros ctx; apply Rok_nodes | ].
    intros _. apply keeps_evaluate_expr.
  - apply keeps_bind; [ intros ctx; apply Rok_nodes | ].
    intros _. apply keeps_evaluate_stmt.
  - apply keeps_evaluate_instr.
Qed.

Lemma keeps_turn isPrelude steps command :
  keeps (turn host isPrelude steps command).
Proof.
  unfold turn. apply keeps_bind; [ apply keeps_step | intros _ ].
  apply keeps_bind; [ | intros _; apply keeps_ret ].
  destruct isPrelude; [ apply keeps_ret | ].
  intros ctx. apply Rok_envStepsTotal.
Qed.

Lemma keeps_turns n isPrelude steps : keeps (turns host n isPrelude steps).
Proof.
  revert steps. induction n as [ | n IH]; intros steps ctx; cbn.
  - destruct (PyContext.control ctx); apply Rok_refl.
  - destruct (PyContext.control ctx) as [ | command rest];
      [ apply Rok_refl | ].
    pose proof (keeps_turn isPrelude steps command ctx) as Ht.
    destruct (turn host isPrelude steps command ctx) as [s' c' | e c' | ];
      [ | assumption.. ].
    specialize (IH s' c').
    destruct (turns host n isPrelude s' c') as [s'' c'' | e c'' | ];
      [ eapply Rok_trans | eapply Rok_raise | ]; eauto.
Qed.

Lemma keeps_loop fuel envSteps stepLimit isPrelude steps ctx :
  match loop host fuel envSteps stepLimit isPrelude steps ctx with
  | Some (Ok _ ctx') => Rok ctx ctx'
  | Some (Raise e ctx') => Rraise e ctx ctx'
  | _ => True
  end.
Proof.
  revert steps ctx. induction fuel as [ | fuel IH]; intros steps ctx; cbn.
  - destruct (PyContext.control ctx); [ apply Rok_refl | exact I ].
  - destruct (PyContext.control ctx) as [ | command rest];
      [ apply Rok_refl | ].
    pose proof (keeps_turn isPrelude steps command ctx) as Ht.
    destruct (turn host isPrelude steps command ctx) as [s' c' | e c' | ];
      [ | assumption.. ].
    specialize (IH s' c').
    destruct (loop host fuel envSteps stepLimit isPrelude s' c')
      as [[s'' c'' | e c'' | ] | ];
      [ eapply Rok_trans | eapply Rok_raise | | ]; eauto.
Qed.

Lemma keeps_run fuel envSteps stepLimit isPrelude ctx :
  match pyGenerateCSEMachineStateStream host fuel envSteps stepLimit
          isPrelude ctx with
  | Some (Ok _ ctx') => Rok ctx ctx'
  | Some (Raise e ctx') => Rraise e ctx ctx'
  | _ => True
  end.
Proof.
  unfold pyGenerateCSEMachineStateStream.
  set (ctx0 := match PyContext.control ctx with
               | CNode command :: _ =>
                   set_nodes (command :: PyContext.nodes ctx) ctx
               | _ => ctx
               end).
  assert (H0 : Rok ctx ctx0).
  { subst ctx0. destruct (PyContext.control ctx) as [ | [n | i] rest];
      [ apply Rok_refl | apply Rok_nodes | apply Rok_refl ]. }
  pose proof (keeps_loop fuel envSteps stepLimit isPrelude 0 ctx0) as H.
  destruct (loop host fuel envSteps stepLimit isPrelude 0 ctx0)
    as [[s c | e c | ] | ];
    [ eapply Rok_trans | eapply Rok_raise | | ]; eauto.
Qed.

End Transitions.

(** X16: a run that ends normally leaves [context.errors] as it was, and
    a run that raises has added to it at most the error that it raises. *)
Theorem errors_recorded (host : Host) (fuel : nat) (envSteps stepLimit : Z)
    (isPrelude : bool) (ctx : PyContext.t) :
  match pyGenerateCSEMachineStateStream host fuel envSteps stepLimit
          isPrelude ctx with
  | Some (Ok _ ctx') => PyContext.errors ctx' = PyContext.errors ctx
  | Some (Raise e ctx') =>
      PyContext.errors ctx' = PyContext.errors ctx
      \/ PyContext.errors ctx' = PyContext.errors ctx ++ [e]
  | _ => True
  end.
Proof.
  apply (keeps_run host
           (fun a b => PyContext.errors b = PyContext.errors a)
           (fun e a b =>
              PyContext.errors b = PyContext.errors a
              \/ PyContext.errors b = PyContext.errors a ++ [e])).
  - reflexivity.
  - intros a b c Hab Hbc. congruence.
  - intros e a b c Hab [Hbc | Hbc]; [ left | right ]; congruence.
  - intros e c. now left.
  - intros e c. now right.
  - reflexivity.
  - reflexivity.
  - reflexivity.
  - reflexivity.
  - reflexivity.
  - reflexivity.
  - reflexivity.
  - reflexivity.
  - reflexivity.
Qed.

Lemma append_empty (s : string) : s +:+ "" = s.
Proof.
  induction s as [ | c s IH]; [ reflexivity | ].
  change (String c (s +:+ "") = String c s). now rewrite IH.
Qed.

Lemma append_append (s t u : string) : (s +:+ t) +:+ u = s +:+ (t +:+ u).
Proof.
  induction s as [ | c s IH]; [ reflexivity | ].
  change (String c ((s +:+ t) +:+ u) = String c (s +:+ (t +:+ u))).
  now rewrite IH.
Qed.

Lemma output_grows (host : Host) (fuel : nat) (envSteps stepLimit : Z)
    (isPrelude : bool) (ctx : PyContext.t) :
  match pyGenerateCSEMachineStateStream host fuel envSteps stepLimit
          isPrelude ctx with
  | Some (Ok _ ctx') | Some (Raise _ ctx') =>
      exists printed,
        PyContext.output ctx' = PyContext.output ctx +:+ printed
  | _ => True
  end.
Proof.
  pose proof
    (keeps_run host
       (fun a b => exists printed,
                     PyContext.output b = PyContext.output a +:+ printed)
       (fun _ a b => exists printed,
                       PyContext.output b = PyContext.output a +:+ printed))
    as H.
  assert (Hrefl : forall c : PyContext.t,
            exists printed, PyContext.output c = PyContext.output c +:+ printed)
    by (intros c; exists EmptyString; now rewrite append_empty).
  assert (Htrans : forall a b c : PyContext.t,
            (exists p, PyContext.output b = PyContext.output a +:+ p) ->
            (exists p, PyContext.output c = PyContext.output b +:+ p) ->
            exists p, PyContext.output c = PyContext.output a +:+ p).
  { intros a b c [p Hp] [q Hq]. exists (p +:+ q).
    now rewrite Hq, Hp, append_append. }
  specialize (H Hrefl Htrans (fun _ => Htrans) (fun _ => Hrefl)).
  specialize (H (fun e c => Hrefl (with_error e c))).
  specialize (H (fun c ctx0 => Hrefl (set_control c ctx0))
                (fun s ctx0 => Hrefl (set_stash s ctx0))
                (fun ns ctx0 => Hrefl (set_nodes ns ctx0))
                (fun n ctx0 => Hrefl (set_envStepsTotal n ctx0))
                (fun ctx0 => Hrefl (set_objectCount _ ctx0))).
  specialize (H (fun s ctx0 => ex_intro _ s eq_refl)).
  specialize (H (fun ctx0 a env name value _ => Hrefl (set_store _ ctx0))
                (fun ctx0 env => Hrefl (set_environments _ (set_store _ ctx0)))
                (fun ctx0 => Hrefl (set_environments _ ctx0))).
  specialize (H fuel envSteps stepLimit isPrelude ctx).
  destruct (pyGenerateCSEMachineStateStream _ _ _ _ _ _)
    as [[s c | e c | ] | ]; exact H.
Qed.

(** X17: [context.output] is never cleared, and [PyEvaluate] returns it
    in place of the result whenever it is not empty: once a program has
    printed, every later evaluation in the same context that ends normally
    returns the whole text printed so far, whatever its own value. *)
Theorem printed_output_persists (host : Host) (fuel : nat) (code : string)
    (program : Stmt) (context : PyContext.t) (options : IOptions)
    (result : Value) (ctx' : PyContext.t) :
  PyContext.output context <> "" ->
  pyRunCSEMachine host fuel (envSteps options) (stepLimit options)
    (isPrelude options)
    (set_control [CNode (StmtNode program)] (set_isRunning true context))
  = Some (Ok result ctx') ->
  PyEvaluate host fuel code program context options
  = Some (Returns (VString (PyContext.output ctx')) (set_isRunning false ctx'))
  /\ exists printed,
       PyContext.output ctx' = PyContext.output context +:+ printed.
Proof.
  intros Hne Hrun.
  assert (Hgrow : exists printed,
            PyContext.output ctx' = PyContext.output context +:+ printed).
  { unfold pyRunCSEMachine in Hrun.
    pose proof (output_grows host fuel (envSteps options) (stepLimit options)
                  (isPrelude options)
                  (set_control [CNode (StmtNode program)]
                     (set_isRunning true context))) as H.
    destruct (pyGenerateCSEMachineStateStream _ _ _ _ _ _)
      as [[s c | e c | ] | ]; try discriminate Hrun.
    injection Hrun as _ <-. destruct H as [p Hp]. exists p.
    rewrite Hp. now destruct context. }
  split; [ | exact Hgrow ].
  unfold PyEvaluate. rewrite Hrun.
  rewrite bool_decide_eq_false_2; [ reflexivity | ].
  destruct Hgrow as [p Hp]. rewrite Hp.
  destruct (PyContext.output context); [ now contradict Hne | discriminate ].
Qed.

Lemma printed_output_persists_witness :
  PyContext.output printed_context <> ""
  /\ exists ctx',
       PyEvaluate integer_host 20 "" sum_program printed_context defaultOptions
       = Some (Returns (VString (PyContext.output ctx'))
                 (set_isRunning false ctx')).
Proof.
  split; [ discriminate | ].
  destruct (pyRunCSEMachine integer_host 20 (envSteps defaultOptions)
              (stepLimit defaultOptions) (isPrelude defaultOptions)
              (set_control [CNode (StmtNode sum_program)]
                 (set_isRunning true printed_context)))
    as [[result ctx' | e ctx' | ] | ] eqn:Hrun;
    try (vm_compute in Hrun; discriminate Hrun).
  exists ctx'.
  exact (proj1 (printed_output_persists integer_host 20 "" sum_program
                  printed_context defaultOptions result ctx'
                  ltac:(discriminate) Hrun)).
Defined.

Lemma frame_kept_refl env : frame_kept env env.
Proof. now repeat split. Qed.

Lemma frames_kept_refl ctx : frames_kept ctx ctx.
Proof.
  split; [ reflexivity | ]. intros a env Ha. exists env.
  split; [ exact Ha | apply frame_kept_refl ].
Qed.

Lemma frames_kept_trans a b c :
  frames_kept a b -> frames_kept b c -> frames_kept a c.
Proof.
  intros [Hn1 H1] [Hn2 H2]. split; [ lia | ].
  intros i env Hi. destruct (H1 i env Hi) as (env1 & Hi1 & Hk1).
  destruct (H2 i env1 Hi1) as (env2 & Hi2 & Hk2).
  exists env2. split; [ exact Hi2 | ].
  destruct Hk1 as (?&?&?&?&?&Hh1), Hk2 as (?&?&?&?&?&Hh2).
  repeat split; try congruence. intros x Hx. auto.
Qed.

Lemma frames_kept_same_store (ctx ctx' : PyContext.t) :
  PyContext.store ctx' = PyContext.store ctx ->
  PyContext.objectCount ctx <= PyContext.objectCount ctx' ->
  frames_kept ctx ctx'.
Proof.
  intros Hs Hn. split; [ exact Hn | ]. intros a env Ha. exists env.
  rewrite Hs. split; [ exact Ha | apply frame_kept_refl ].
Qed.

(** X18: no step of the machine removes a frame from the store, changes
    the parent, the name, the identifier or the closure of a frame, or
    removes a binding from a frame; the counter of object identifiers does
    not decrease. *)
Theorem frames_are_kept (host : Host) (fuel : nat) (envSteps stepLimit : Z)
    (isPrelude : bool) (ctx : PyContext.t) :
  match pyGenerateCSEMachineStateStream host fuel envSteps stepLimit
          isPrelude ctx with
  | Some (Ok _ ctx') | Some (Raise _ ctx') => frames_kept ctx ctx'
  | _ => True
  end.
Proof.
  pose proof (keeps_run host frames_kept (fun _ => frames_kept)) as H.
  specialize (H frames_kept_refl frames_kept_trans
                (fun _ => frames_kept_trans) (fun _ => frames_kept_refl)).
  specialize (H (fun e c => frames_kept_same_store c (with_error e c)
                              eq_refl (le_n _))).
  specialize (H (fun c ctx0 => frames_kept_same_store ctx0 (set_control c ctx0)
                                 eq_refl (le_n _))
                (fun s ctx0 => frames_kept_same_store ctx0 (set_stash s ctx0)
                                 eq_refl (le_n _))
                (fun ns ctx0 => frames_kept_same_store ctx0 (set_nodes ns ctx0)
                                  eq_refl (le_n _))
                (fun n ctx0 => frames_kept_same_store ctx0
                                 (set_envStepsTotal n ctx0) eq_refl (le_n _))
                (fun ctx0 => frames_kept_same_store ctx0
                               (set_objectCount _ ctx0) eq_refl
                               (le_S _ _ (le_n _)))
                (fun s ctx0 => frames_kept_same_store ctx0 (set_output _ ctx0)
                                 eq_refl (le_n _))).
  assert (Hdefine : forall (ctx0 : PyContext.t) (a : nat)
                      (env : PyEnvironment.t) (name : string) (value : Value),
            PyContext.store ctx0 !! a = Some env ->
            frames_kept ctx0
              (set_store
                 (<[a := with_head env
                           (<[name := value]> (PyEnvironment.head env))]>
                    (PyContext.store ctx0)) ctx0)).
  { intros ctx0 a env name value Ha. split; [ now destruct ctx0 | ].
    intros i envi Hi. cbn [PyContext.store set_store].
    destruct (decide (i = a)) as [-> | Hne].
    - rewrite list_lookup_insert_eq by now apply lookup_lt_Some in Ha.
      rewrite Ha in Hi. injection Hi as <-.
      eexists. split; [ reflexivity | ]. repeat split.
      cbn. intros x Hx. destruct (decide (x = name)) as [-> | Hx'].
      + rewrite lookup_insert_eq. eauto.
      + now rewrite lookup_insert_ne by congruence.
    - rewrite list_lookup_insert_ne by congruence.
      exists envi. split; [ exact Hi | apply frame_kept_refl ]. }
  assert (Hpush : forall (ctx0 : PyContext.t) (env : PyEnvironment.t),
            frames_kept ctx0
              (set_environments
                 (length (PyContext.store ctx0) :: PyContext.environments ctx0)
                 (set_store (PyContext.store ctx0 ++ [env]) ctx0))).
  { intros ctx0 env. split; [ now destruct ctx0 | ].
    intros i envi Hi. exists envi. split; [ | apply frame_kept_refl ].
    destruct ctx0. cbn in *. rewrite lookup_app_l; [ exact Hi | ].
    now apply lookup_lt_Some in Hi. }
  specialize (H Hdefine Hpush
                (fun ctx0 => frames_kept_same_store ctx0
                               (set_environments _ ctx0) eq_refl (le_n _))).
  specialize (H fuel envSteps stepLimit isPrelude ctx).
  destruct (pyGenerateCSEMachineStateStream _ _ _ _ _ _)
    as [[s c | e c | ] | ]; exact H.
Qed.

(** ** Runs from well-formed contexts *)

Lemma valid_address_mono n n' a :
  n <= n' -> valid_address n a -> valid_address n' a.
Proof. destruct a; cbn; [ lia | auto ]. Qed.

Lemma valid_value_mono n n' v : n <= n' -> valid_value n v -> valid_value n' v.
Proof. destruct v; cbn; auto. apply valid_address_mono. Qed.

Lemma spec_weaken {A} n (m : M A) (Q Q' : A -> nat -> Prop) :
  spec n m Q -> (forall a n', Q a n' -> Q' a n') -> spec n m Q'.
Proof.
  intros H HQ ctx Hwf Hn. specialize (H ctx Hwf Hn).
  destruct (m ctx); [ destruct H; split; auto | assumption.. ].
Qed.

Lemma spec_bind {A B} n (m : M A) (k : A -> M B) Q R :
  spec n m Q -> (forall a n', Q a n' -> spec n' (k a) R) ->
  spec n (bind m k) R.
Proof.
  intros Hm Hk ctx Hwf Hn. unfold bind. specialize (Hm ctx Hwf Hn).
  destruct (m ctx) as [a ctx1 | e ctx1 | ]; [ | assumption.. ].
  destruct Hm as [Hwf1 HQ]. exact (Hk a _ HQ ctx1 Hwf1 eq_refl).
Qed.

Lemma spec_ret {A} n (a : A) : spec n (ret a) (fun a' n' => a' = a /\ n' = n).
Proof. intros ctx Hwf Hn. cbn. auto. Qed.

Lemma spec_throw {A} n e (Q : A -> nat -> Prop) : spec n (throw e) Q.
Proof. intros ctx Hwf Hn. exact Hwf. Qed.

Lemma spec_handle {A} n e (Q : A -> nat -> Prop) :
  spec n (pyHandleRuntimeError e) Q.
Proof. intros [c s o errs envs st oc ns r t] Hwf Hn. exact Hwf. Qed.

Lemma spec_lift {A} n (c : Completion A) :
  spec n (lift c) (fun a n' => n' = n /\ c = Normal a).
Proof.
  destruct c; cbn [lift]; [ | apply spec_handle | apply spec_throw ].
  intros ctx Hwf Hn. cbn. auto.
Qed.

Lemma well_formed_fields (ctx ctx' : PyContext.t) :
  well_formed ctx ->
  PyContext.store ctx' = PyContext.store ctx ->
  Forall (fun a => a < length (PyContext.store ctx))
    (PyContext.environments ctx') ->
  Forall (valid_value (length (PyContext.store ctx))) (PyContext.stash ctx') ->
  well_formed ctx'.
Proof.
  intros (He & Hf & Hs) Hst He' Hs'. unfold well_formed. rewrite Hst.
  split; [ exact He' | split; [ exact Hf | exact Hs' ] ].
Qed.

Lemma well_formed_stash (ctx : PyContext.t) :
  well_formed ctx ->
  Forall (valid_value (length (PyContext.store ctx))) (PyContext.stash ctx).
Proof. now intros (_ & _ & Hs). Qed.

Lemma well_formed_environments (ctx : PyContext.t) :
  well_formed ctx ->
  Forall (fun a => a < length (PyContext.store ctx))
    (PyContext.environments ctx).
Proof. now intros (He & _). Qed.

(** An update of the context that leaves the store, the Stash and
    [environments] as they are. *)
Lemma spec_modify n (f : PyContext.t -> PyContext.t) :
  (forall ctx,
     PyContext.store (f ctx) = PyContext.store ctx
     /\ PyContext.stash (f ctx) = PyContext.stash ctx
     /\ PyContext.environments (f ctx) = PyContext.environments ctx) ->
  spec n (modify f) (fun _ n' => n' = n).
Proof.
  intros Hf ctx Hwf Hn. destruct (Hf ctx) as (Hst & Hs & He).
  unfold modify. split; [ | now rewrite Hst ].
  apply (well_formed_fields ctx); [ assumption.. | | ].
  - rewrite He. now apply well_formed_environments.
  - rewrite Hs. now apply well_formed_stash.
Qed.

Lemma spec_control_push n item :
  spec n (control_push item) (fun _ n' => n' = n).
Proof. apply spec_modify. intros []. now cbn. Qed.

Lemma spec_control_push_all n items :
  spec n (control_push_all items) (fun _ n' => n' = n).
Proof. apply spec_modify. intros []. now cbn. Qed.

Lemma spec_stash_push n v :
  valid_value n v -> spec n (stash_push v) (fun _ n' => n' = n).
Proof.
  intros Hv ctx Hwf Hn. unfold stash_push, modify. subst n.
  split; [ | now destruct ctx ].
  apply (well_formed_fields ctx); [ assumption | now destruct ctx | | ].
  - destruct ctx; now apply well_formed_environments in Hwf.
  - apply well_formed_stash in Hwf. destruct ctx; cbn in *. now constructor.
Qed.

Lemma spec_stash_pop n :
  spec n stash_pop (fun v n' => n' = n /\ valid_value n v).
Proof.
  intros ctx Hwf Hn. unfold stash_pop. subst n.
  pose proof (well_formed_stash ctx Hwf) as Hs.
  destruct (PyContext.stash ctx) as [ | v s] eqn:Hstash.
  - split; [ assumption | split; [ reflexivity | exact I ] ].
  - apply Forall_cons in Hs as [Hv Hs].
    split; [ | split; [ now destruct ctx | now destruct ctx ] ].
    apply (well_formed_fields ctx); [ assumption | now destruct ctx | | ].
    + destruct ctx; now apply well_formed_environments in Hwf.
    + now destruct ctx.
Qed.

Lemma spec_uniqueId n : spec n uniqueId (fun _ n' => n' = n).
Proof.
  intros ctx Hwf Hn. unfold uniqueId. split; [ | now destruct ctx ].
  apply (well_formed_fields ctx); [ assumption | now destruct ctx | | ].
  - destruct ctx; now apply well_formed_environments in Hwf.
  - destruct ctx; now apply well_formed_stash in Hwf.
Qed.

Lemma spec_currentEnvironment n :
  spec n (gets currentEnvironment) (fun a n' => n' = n /\ valid_address n a).
Proof.
  intros ctx Hwf Hn. unfold gets, currentEnvironment.
  split; [ assumption | split; [ assumption | ] ].
  apply well_formed_environments in Hwf.
  destruct (PyContext.environments ctx) as [ | a envs]; [ exact I | ].
  apply Forall_cons in Hwf as [Ha _]. cbn. lia.
Qed.

Lemma spec_popEnvironment n : spec n popEnvironment (fun _ n' => n' = n).
Proof.
  intros ctx Hwf Hn. unfold popEnvironment, modify.
  split; [ | now destruct ctx ].
  apply (well_formed_fields ctx); [ assumption | now destruct ctx | | ].
  - apply well_formed_environments in Hwf. destruct ctx; cbn in *.
    destruct environments; [ constructor | ].
    now apply Forall_cons in Hwf as [_ Hwf].
  - destruct ctx; now apply well_formed_stash in Hwf.
Qed.

Lemma spec_seq {A} n (m : M unit) (k : M A) R :
  spec n m (fun _ n' => n' = n) -> spec n k R ->
  spec n (bind m (fun _ => k)) R.
Proof. intros Hm Hk. eapply spec_bind; [ exact Hm | ]. now intros _ n' ->. Qed.

(** *** Values that the operators and the built-in functions return *)

Lemma evaluateUnaryExpression_no_closure operator value c :
  evaluateUnaryExpression operator value <> Normal (VPyClosure c).
Proof.
  unfold evaluateUnaryExpression.
  destruct operator; try discriminate; destruct value; discriminate.
Qed.

Lemma evaluateBoolExpression_valid n operator left right r :
  evaluateBoolExpression operator left right = Normal r ->
  valid_value n left -> valid_value n right -> valid_value n r.
Proof.
  unfold evaluateBoolExpression. intros H Hl Hr.
  destruct operator;
    try (destruct (truthy left && truthy right); discriminate);
    destruct (truthy left); try discriminate;
    injection H as <-; destruct (isFalsy left); assumption.
Qed.

Lemma marshalToPy_no_closure j c : marshalToPy j <> Normal (VPyClosure c).
Proof. destruct j; discriminate. Qed.

Lemma JsClosure_call_no_closure f args c :
  JsClosure_call f args <> Normal (VPyClosure c).
Proof.
  unfold JsClosure_call, Completion_bind.
  destruct (unmarshal_all args); try discriminate.
  destruct (JsClosure.func f a); [ apply marshalToPy_no_closure | discriminate ].
Qed.

Lemma _int_no_closure args c : _int args <> Normal (VPyClosure c).
Proof.
  unfold _int. destruct args as [ | [] ?]; try discriminate.
  destruct (JsNumber.to_BigInt _); discriminate.
Qed.

Section OperatorResults.

Context (host : Host).

Lemma binary_complex_no_closure operator left right c :
  binary_complex host operator left right <> Normal (VPyClosure c).
Proof.
  unfold binary_complex, Completion_bind.
  destruct (type_of right); try discriminate;
    (destruct (fromValue _ (value_of left)); try discriminate;
     destruct (fromValue _ (value_of right)); try discriminate;
     destruct operator; try discriminate;
     match goal with
     | |- context [match ?x with Normal _ => _ | _ => _ end] => destruct x
     end; discriminate).
Qed.

Lemma binary_undefined_no_closure operator left right c :
  binary_undefined operator left right <> Normal (VPyClosure c).
Proof. unfold binary_undefined. destruct operator; discriminate. Qed.

Lemma binary_string_no_closure operator left right c :
  binary_string operator left right <> Normal (VPyClosure c).
Proof.
  unfold binary_string.
  destruct left; try discriminate; destruct right; try discriminate;
    destruct operator; discriminate.
Qed.

Lemma arithmetic_number_no_closure operator l r c :
  arithmetic_number host operator l r <> Normal (VPyClosure c).
Proof.
  unfold arithmetic_number, todo_error.
  destruct operator; try discriminate;
    match goal with |- context [if ?b then _ else _] => destruct b end;
    discriminate.
Qed.

Lemma arithmetic_bigint_no_closure operator l r c :
  arithmetic_bigint host operator l r <> Normal (VPyClosure c).
Proof.
  unfold arithmetic_bigint, todo_error.
  destruct operator; try discriminate;
    repeat match goal with |- context [if ?b then _ else _] => destruct b end;
    discriminate.
Qed.

Lemma comparison_no_closure operator cmp c :
  comparison operator cmp <> VPyClosure c.
Proof. unfold comparison. destruct operator; discriminate. Qed.

Lemma binary_numeric_no_closure operator left right c :
  binary_numeric host operator left right <> Normal (VPyClosure c).
Proof.
  unfold binary_numeric, todo_error.
  destruct (is_arithmetic operator).
  - destruct (_ || _); [ apply arithmetic_number_no_closure | ].
    destruct (coerced_num left); try discriminate;
      destruct (coerced_num right); try discriminate.
    apply arithmetic_bigint_no_closure.
  - destruct (is_comparison operator); [ | discriminate ].
    intros [= H]. revert H. apply comparison_no_closure.
Qed.

Lemma evaluateBinaryExpression_no_closure operator left right c :
  evaluateBinaryExpression host operator left right <> Normal (VPyClosure c).
Proof.
  unfold evaluateBinaryExpression.
  destruct (negb _); [ discriminate | ].
  destruct (has_type T_complex _ _); [ apply binary_complex_no_closure | ].
  destruct (has_type T_undefined _ _); [ apply binary_undefined_no_closure | ].
  destruct (has_type T_string _ _); [ apply binary_string_no_closure | ].
  apply binary_numeric_no_closure.
Qed.

End OperatorResults.

Lemma valid_no_closure n v :
  (forall c, v <> VPyClosure c) -> valid_value n v.
Proof. intros H. destruct v; try exact I. now destruct (H c). Qed.

(** A completion whose result is valid in a store of [n] frames. *)
Lemma spec_lift_valid n (c : Completion Value) :
  (forall r, c = Normal r -> valid_value n r) ->
  spec n (lift c) (fun r n' => n' = n /\ valid_value n r).
Proof.
  intros H. eapply spec_weaken; [ apply spec_lift | ].
  intros r n' [-> Hc]. auto.
Qed.

(** *** Environments *)

(** The walk of [pyGetVariable] ends when every parent has a smaller
    address than its child, and what it finds is a value of a frame. *)
Lemma lookup_chain_ends n (store : list PyEnvironment.t) name :
  (forall i env, store !! i = Some env -> valid_frame n i env) ->
  forall fuel a,
    a < fuel ->
    match lookup_chain fuel store (Some a) name with
    | Found v => valid_value n v
    | NotFound => True
    | Cyclic => False
    end.
Proof.
  intros Hf. induction fuel as [ | fuel IH]; intros a Ha; [ lia | ].
  cbn. unfold addr in *. destruct (store !! a) as [env | ] eqn:Henv; [ | exact I ].
  destruct (Hf a env Henv) as [Ht Hh].
  destruct (PyEnvironment.head env !! name) as [v | ] eqn:Hv.
  - exact (Hh name v Hv).
  - destruct (PyEnvironment.tail env) as [b | ]; cbn in Ht.
    + apply IH. lia.
    + destruct fuel; exact I.
Qed.

Lemma spec_pyGetVariable n name :
  spec n (pyGetVariable name) (fun v n' => n' = n /\ valid_value n v).
Proof.
  intros ctx Hwf Hn. unfold pyGetVariable.
  destruct (currentEnvironment ctx) as [a | ]; [ | exact Hwf ].
  unfold frame. destruct (PyContext.store ctx !! a) as [env | ] eqn:Henv;
    [ | exact Hwf ].
  destruct (local_assigned_later env name); [ exact Hwf | ].
  destruct Hwf as (He & Hf & Hs).
  pose proof (lookup_chain_ends _ _ name Hf (length (PyContext.store ctx)) a
                (lookup_lt_Some _ _ _ Henv)) as H.
  destruct (lookup_chain _ _ _ _) as [v | | ].
  - split; [ now split | split; [ assumption | now rewrite <- Hn ] ].
  - destruct (builtIns name); [ | now split ].
    split; [ now split | split; [ assumption | exact I ] ].
  - exact H.
Qed.

Lemma spec_pyDefineVariable n name value :
  valid_value n value ->
  spec n (pyDefineVariable name value) (fun _ n' => n' = n).
Proof.
  intros Hv ctx Hwf Hn. unfold pyDefineVariable.
  destruct (currentEnvironment ctx) as [a | ]; [ | exact Hwf ].
  unfold frame. destruct (PyContext.store ctx !! a) as [env | ] eqn:Henv;
    [ | exact Hwf ].
  destruct Hwf as (He & Hf & Hs). subst n.
  destruct ctx as [c s o errs envs st oc ns r t]. cbn in *.
  unfold well_formed. cbn. rewrite length_insert.
  split; [ | reflexivity ].
  split; [ exact He | split; [ | exact Hs ] ].
  intros i env' Hi. destruct (decide (i = a)) as [-> | Hne].
  - rewrite list_lookup_insert_eq in Hi by now apply lookup_lt_Some in Henv.
    injection Hi as <-. destruct (Hf a env Henv) as [Ht Hh].
    split; [ exact Ht | ]. cbn. now apply map_Forall_insert_2.
  - rewrite list_lookup_insert_ne in Hi by congruence. now apply Hf.
Qed.

Lemma bind_parameters_valid n parameters :
  forall head args,
    map_Forall (fun _ v => valid_value n v) head ->
    Forall (valid_value n) args ->
    map_Forall (fun _ v => valid_value n v)
      (bind_parameters head parameters args).
Proof.
  induction parameters as [ | p ps IH]; intros head args Hh Ha; [ exact Hh | ].
  cbn. apply IH.
  - apply map_Forall_insert_2; [ | exact Hh ].
    destruct Ha; [ exact I | assumption ].
  - destruct Ha; [ constructor | assumption ].
Qed.

Lemma spec_createEnvironment n closure args callExpression :
  valid_value n (VPyClosure closure) ->
  Forall (valid_value n) args ->
  spec n (createEnvironment closure args callExpression)
    (fun env n' => n' = n /\ valid_frame n n env).
Proof.
  intros Hc Ha. unfold createEnvironment.
  eapply spec_bind; [ apply spec_uniqueId | ]. intros id n' ->.
  eapply spec_weaken; [ apply spec_ret | ]. intros env n' [-> ->].
  split; [ reflexivity | ]. split; [ exact Hc | ]. cbn.
  apply bind_parameters_valid; [ apply map_Forall_empty | exact Ha ].
Qed.

Lemma valid_frame_mono n n' i env :
  n <= n' -> valid_frame n i env -> valid_frame n' i env.
Proof.
  intros Hn [Ht Hh]. split; [ exact Ht | ].
  intros k v Hk. eapply valid_value_mono; [ exact Hn | exact (Hh k v Hk) ].
Qed.

Lemma spec_pushEnvironment n environment :
  valid_frame n n environment ->
  spec n (pushEnvironment environment) (fun _ n' => n' = S n).
Proof.
  intros Hv ctx (He & Hf & Hs) Hn. unfold pushEnvironment, modify.
  destruct ctx as [c s o errs envs st oc ns r t]. cbn in *. subst n.
  unfold well_formed. cbn. rewrite length_app. cbn.
  split; [ | lia ].
  split; [ | split ].
  - constructor; [ lia | ]. eapply Forall_impl; [ exact He | ].
    cbn. intros. lia.
  - intros i env Hi. destruct (decide (i < length st)) as [Hlt | Hge].
    + rewrite lookup_app_l in Hi by exact Hlt.
      eapply valid_frame_mono; [ | exact (Hf i env Hi) ]. lia.
    + rewrite lookup_app_r in Hi by lia.
      destruct (i - length st) as [ | k] eqn:Hk; [ | now destruct k ].
      injection Hi as <-. replace i with (length st) by lia.
      eapply valid_frame_mono; [ | exact Hv ]. lia.
  - eapply Forall_impl; [ exact Hs | ].
    intros v. apply valid_value_mono. lia.
Qed.

Lemma spec_new_closure n node localVariables :
  spec n (new_closure node localVariables)
    (fun c n' => n' = n /\ valid_value n (VPyClosure c)).
Proof.
  unfold new_closure.
  eapply spec_bind; [ apply spec_uniqueId | ]. intros id n' ->.
  eapply spec_bind; [ apply spec_currentEnvironment | ].
  intros a n' [-> Ha].
  eapply spec_weaken; [ apply spec_ret | ]. intros c n' [-> ->]. now split.
Qed.

Lemma spec_pop_args n numOfArgs :
  forall args,
    Forall (valid_value n) args ->
    spec n (pop_args numOfArgs args)
      (fun vs n' => n' = n /\ Forall (valid_value n) vs).
Proof.
  induction numOfArgs as [ | k IH]; intros args Ha; cbn.
  - eapply spec_weaken; [ apply spec_ret | ]. now intros vs n' [-> ->].
  - eapply spec_bind; [ apply spec_stash_pop | ].
    intros v n' [-> Hv]. apply IH. now constructor.
Qed.

(** *** The handlers *)

Section Handlers.

Context (host : Host).

Ltac spec_chain :=
  repeat first
    [ apply spec_control_push
    | apply spec_control_push_all
    | apply spec_seq; [ first [ apply spec_control_push
                              | apply spec_control_push_all ] | ] ].

Lemma spec_grow {A} n (m : M A) :
  spec n m (fun _ n' => n' = n) -> spec n m (fun _ n' => n <= n').
Proof. intros H. eapply spec_weaken; [ exact H | ]. intros _ n' ->. lia. Qed.

Lemma spec_push_valid n v :
  valid_value n v -> spec n (stash_push v) (fun _ n' => n' = n).
Proof. apply spec_stash_push. Qed.

Lemma spec_evaluate_expr n node :
  spec n (evaluate_expr node) (fun _ n' => n' = n).
Proof.
  destruct node; cbn [evaluate_expr]; try solve [ spec_chain ].
  - now apply spec_stash_push.
  - destruct (BigInt_ofString _); [ now apply spec_stash_push | ].
    apply spec_throw.
  - now apply spec_stash_push.
  - match goal with |- context [match ?x with _ => _ end] => destruct x end;
      now apply spec_stash_push.
  - eapply spec_bind; [ apply spec_new_closure | ].
    intros c n' [-> Hc]. now apply spec_stash_push.
  - apply spec_throw.
  - eapply spec_bind; [ apply spec_pyGetVariable | ].
    intros v n' [-> Hv]. now apply spec_stash_push.
Qed.

Lemma spec_evaluate_stmt n node :
  spec n (evaluate_stmt node) (fun _ n' => n' = n).
Proof.
  destruct node; cbn [evaluate_stmt]; try solve [ spec_chain ];
    try apply spec_throw.
  - apply spec_seq; [ apply spec_modify; intros []; now cbn | ].
    match goal with |- context [match ?x with _ => _ end] => destruct x end;
      [ apply spec_control_push | now apply spec_stash_push ].
  - eapply spec_weaken; [ apply spec_ret | ]. now intros _ n' [_ ->].
  - eapply spec_bind; [ apply spec_new_closure | ].
    intros c n' [-> Hc]. now apply spec_pyDefineVariable.
Qed.

Lemma spec_call_builtin n f args :
  spec n (call_builtin host f args) (fun v n' => n' = n /\ valid_value n v).
Proof.
  destruct f; cbn [call_builtin].
  - apply spec_seq; [ apply spec_modify; intros []; now cbn | ].
    eapply spec_weaken; [ apply spec_ret | ]. now intros v n' [-> ->].
  - apply spec_lift_valid. intros r Hr. apply valid_no_closure.
    intros c ->. exact (_int_no_closure _ _ Hr).
Qed.

Lemma spec_push_target n target :
  spec n (push_target target) (fun _ n' => n' = n).
Proof. destruct target; cbn; spec_chain. Qed.

Lemma spec_unit n : spec n (ret tt) (fun _ n' => n' = n).
Proof. eapply spec_weaken; [ apply spec_ret | ]. now intros _ n' [_ ->]. Qed.

Lemma spec_evaluate_instr n instr :
  spec n (evaluate_instr host instr) (fun _ n' => n <= n').
Proof.
  destruct instr; cbn [evaluate_instr].
  - (* ASSIGNMENT *)
    apply spec_grow.
    eapply spec_bind; [ apply spec_stash_pop | ]. intros v n' [-> Hv].
    destruct (truthy v); [ now apply spec_pyDefineVariable | apply spec_unit ].
  - (* APPLICATION *)
    eapply spec_bind; [ apply spec_pop_args; constructor | ].
    intros args n' [-> Hargs].
    eapply spec_bind; [ apply spec_stash_pop | ]. intros f n' [-> Hf].
    destruct f; try apply spec_throw.
    + apply spec_seq; [ apply spec_control_push | ].
      destruct (PyClosure.node c).
      * apply spec_seq; [ apply spec_control_push | ].
        eapply spec_bind; [ now apply spec_createEnvironment | ].
        intros env n' [-> Henv].
        eapply spec_bind; [ now apply spec_pushEnvironment | ].
        intros _ n' ->.
        eapply spec_weaken; [ apply spec_control_push_all | ].
        intros _ n' ->. lia.
      * eapply spec_bind; [ now apply spec_createEnvironment | ].
        intros env n' [-> Henv].
        eapply spec_bind; [ now apply spec_pushEnvironment | ].
        intros _ n' ->.
        eapply spec_weaken; [ apply spec_control_push | ].
        intros _ n' ->. lia.
    + apply spec_grow.
      eapply spec_bind; [ apply spec_lift | ]. intros r n' [-> Hr].
      eapply spec_bind.
      * apply spec_lift_valid. intros v Hv. apply valid_no_closure.
        intros c' ->. exact (marshalToPy_no_closure _ _ Hv).
      * intros v n' [-> Hv]. now apply spec_stash_push.
    + apply spec_grow.
      eapply spec_bind; [ apply spec_call_builtin | ].
      intros v n' [-> Hv]. now apply spec_stash_push.
  - (* BINARY_OP *)
    apply spec_grow.
    eapply spec_bind; [ apply spec_stash_pop | ]. intros r n' [-> Hr].
    eapply spec_bind; [ apply spec_stash_pop | ]. intros l n' [-> Hl].
    destruct (truthy l && truthy r); [ | apply spec_unit ].
    eapply spec_bind.
    + apply spec_lift_valid. intros v Hv. apply valid_no_closure.
      intros c ->. exact (evaluateBinaryExpression_no_closure _ _ _ _ _ Hv).
    + intros v n' [-> Hv]. now apply spec_stash_push.
  - (* RESET *)
    apply spec_grow, spec_popEnvironment.
  - (* BRANCH *)
    apply spec_grow.
    eapply spec_bind; [ apply spec_stash_pop | ]. intros v n' [-> Hv].
    destruct (negb (truthy v)); [ apply spec_throw | ].
    destruct (negb (isFalsy v)); [ apply spec_push_target | ].
    destruct alternate; [ apply spec_push_target | apply spec_unit ].
  - (* UNARY_OP *)
    apply spec_grow.
    eapply spec_bind; [ apply spec_stash_pop | ]. intros v n' [-> Hv].
    destruct (truthy v); [ | apply spec_unit ].
    eapply spec_bind.
    + apply spec_lift_valid. intros r Hr. apply valid_no_closure.
      intros c ->. exact (evaluateUnaryExpression_no_closure _ _ _ Hr).
    + intros r n' [-> Hr]. now apply spec_stash_push.
  - (* BOOL_OP *)
    apply spec_grow.
    eapply spec_bind; [ apply spec_stash_pop | ]. intros r n' [-> Hr].
    eapply spec_bind; [ apply spec_stash_pop | ]. intros l n' [-> Hl].
    destruct (truthy l && truthy r); [ | apply spec_unit ].
    eapply spec_bind.
    + apply spec_lift_valid. intros v Hv.
      exact (evaluateBoolExpression_valid _ _ _ _ _ Hv Hl Hr).
    + intros v n' [-> Hv]. now apply spec_stash_push.
  - (* END_OF_FUNCTION_BODY *)
    apply spec_grow. now apply spec_stash_push.
  - (* POP *)
    apply spec_grow.
    eapply spec_bind; [ apply spec_stash_pop | ]. intros v n' [-> Hv].
    apply spec_unit.
Qed.

Lemma spec_step n command :
  spec n (step host command) (fun _ n' => n <= n').
Proof.
  unfold step. apply spec_seq; [ apply spec_modify; intros []; now cbn | ].
  destruct command as [node | instr]; [ | apply spec_evaluate_instr ].
  apply spec_seq; [ apply spec_modify; intros []; now cbn | ].
  apply spec_grow.
  destruct node; [ apply spec_evaluate_expr | apply spec_evaluate_stmt ].
Qed.

Lemma spec_turn n isPrelude steps command :
  spec n (turn host isPrelude steps command) (fun _ n' => n <= n').
Proof.
  unfold turn. eapply spec_bind; [ apply spec_step | ].
  intros u n1 Hn1. cbn in Hn1. eapply spec_bind.
  - destruct isPrelude; [ apply spec_unit | ].
    apply spec_modify. intros []. now cbn.
  - intros u2 n2 Hn2. cbn in Hn2. eapply spec_weaken; [ apply spec_ret | ].
    intros s n3 [_ ->]. lia.
Qed.

End Handlers.

(** Turns of the machine from a well-formed context. *)
Lemma turns_well_formed host k :
  forall isPrelude steps ctx,
    well_formed ctx ->
    match turns host k isPrelude steps ctx with
    | Ok _ ctx' | Raise _ ctx' => well_formed ctx'
    | Loops => False
    end.
Proof.
  induction k as [ | k IH]; intros isPrelude steps ctx Hwf; [ exact Hwf | ].
  cbn [turns]. destruct (PyContext.control ctx) as [ | command rest];
    [ exact Hwf | ].
  pose proof (spec_turn host _ isPrelude steps command ctx Hwf eq_refl) as H.
  destruct (turn host isPrelude steps command ctx) as [steps' ctx' | e ctx' | ];
    [ | exact H.. ].
  apply IH, H.
Qed.

Lemma loop_well_formed host fuel envSteps stepLimit :
  forall isPrelude steps ctx r,
    well_formed ctx ->
    loop host fuel envSteps stepLimit isPrelude steps ctx = Some r ->
    match r with
    | Ok _ ctx' | Raise _ ctx' => well_formed ctx'
    | Loops => False
    end.
Proof.
  induction fuel as [ | fuel IH]; intros isPrelude steps ctx r Hwf;
    cbn [loop]; destruct (PyContext.control ctx) as [ | command rest];
    try (intros [= <-]; exact Hwf); try discriminate.
  pose proof (spec_turn host _ isPrelude steps command ctx Hwf eq_refl) as H.
  destruct (turn host isPrelude steps command ctx) as [steps' ctx' | e ctx' | ].
  - apply IH, H.
  - intros [= <-]. exact H.
  - destruct H.
Qed.

Lemma PyContext_new_well_formed : well_formed PyContext_new.
Proof.
  split; [ repeat constructor | split; [ | constructor ] ].
  intros [ | i] env; [ | discriminate ]. intros [= <-].
  split; [ exact I | apply map_Forall_empty ].
Qed.

(** X19: in a context whose frames have parents with smaller addresses
    and whose closures were created in frames of the store (such as a new
    context), no lookup of a variable follows the parent pointers for
    ever: an evaluation whose loop ends returns.  The context that it
    leaves is of the same kind, so the same holds for every chunk
    evaluated in it afterwards. *)
Theorem environments_stay_well_formed (host : Host) (fuel : nat)
    (code : string) (program : Stmt) (context : PyContext.t)
    (options : IOptions) (r : Returned Value) :
  well_formed context ->
  PyEvaluate host fuel code program context options = Some r ->
  exists v ctx', r = Returns v ctx' /\ well_formed ctx'.
Proof.
  intros Hwf. unfold PyEvaluate, pyRunCSEMachine,
    pyGenerateCSEMachineStateStream.
  set (started := match PyContext.control (set_control _ _) with
                  | CNode command :: _ => _
                  | _ => _
                  end).
  assert (Hs : well_formed started).
  { subst started. cbn. apply (well_formed_fields context);
      [ exact Hwf | reflexivity | | ].
    - exact (well_formed_environments context Hwf).
    - exact (well_formed_stash context Hwf). }
  pose proof (loop_well_formed host fuel (envSteps options)
                (stepLimit options) (isPrelude options) 0 started) as H.
  destruct (loop _ _ _ _ _ _ _) as [[s c | e c | ] | ];
    try discriminate; specialize (H _ Hs eq_refl); try contradiction;
    intros [= <-]; eexists _, _; (split; [ reflexivity | ]);
    (apply (well_formed_fields c);
     [ exact H | reflexivity
     | exact (well_formed_environments c H)
     | exact (well_formed_stash c H) ]).
Qed.

Lemma environments_stay_well_formed_witness :
  well_formed PyContext_new
  /\ exists v ctx',
       PyEvaluate integer_host 30 "" call_program PyContext_new defaultOptions
       = Some (Returns v ctx')
       /\ well_formed ctx'.
Proof.
  split; [ exact PyContext_new_well_formed | ].
  destruct (PyEvaluate integer_host 30 "" call_program PyContext_new
              defaultOptions) as [r | ] eqn:Hrun;
    [ | vm_compute in Hrun; discriminate Hrun ].
  destruct (environments_stay_well_formed integer_host 30 "" call_program
              PyContext_new defaultOptions r PyContext_new_well_formed Hrun)
    as (v & ctx' & -> & Hwf).
  exists v, ctx'. split; [ reflexivity | exact Hwf ].
Defined.

(** ** The end of scanning *)

Section Progress.

Import Tokenizer.

Lemma forward_refl st : forward st st.
Proof. split; [ reflexivity | lia ]. Qed.

Lemma forward_trans a b c : forward a b -> forward b c -> forward a c.
Proof. intros [H1 H2] [H3 H4]. split; [ congruence | lia ]. Qed.

Lemma forward_fields st x x' :
  source x' = source x -> current x <= current x' ->
  forward st x -> forward st x'.
Proof. intros H1 H2 [H3 H4]. split; [ congruence | lia ]. Qed.

Lemma advance_forward st x : forward st x -> forward st (advance x).
Proof. apply forward_fields; simpl; [ reflexivity | lia ]. Qed.

Lemma advance_moves st x :
  forward st x -> current st + 1 <= current (advance x).
Proof. intros [_ H]. simpl. lia. Qed.

Lemma addBuffer_forward c st x : forward st x -> forward st (addBuffer c x).
Proof. now apply forward_fields. Qed.

Lemma advanceString_forward b st x :
  forward st x -> forward st (advanceString b x).
Proof.
  intros H. unfold advanceString.
  destruct b; [ apply addBuffer_forward | ]; now apply advance_forward.
Qed.

Lemma subtractBuffer_forward st x :
  forward st x -> forward st (subtractBufferForThreeQuoteString x).
Proof.
  unfold subtractBufferForThreeQuoteString.
  destruct (_ <=? _); [ now apply forward_fields | auto ].
Qed.

Lemma with_position_forward l c st x :
  forward st x -> forward st (with_position l c x).
Proof. now apply forward_fields. Qed.

Lemma next_line_forward st x : forward st x -> forward st (next_line x).
Proof. now apply forward_fields. Qed.

Lemma with_parenthesesLevel_forward n st x :
  forward st x -> forward st (with_parenthesesLevel n x).
Proof. now apply forward_fields. Qed.

Lemma with_indentStack_forward stack st x :
  forward st x -> forward st (with_indentStack stack x).
Proof. now apply forward_fields. Qed.

Lemma with_start_forward st x : forward st x -> forward st (with_start x).
Proof. now apply forward_fields. Qed.

Lemma addToken_forward type st x : forward st x -> forward st (addToken type x).
Proof. now apply forward_fields. Qed.

Lemma addQuotedToken_forward quotes type st x :
  forward st x -> forward st (addQuotedToken quotes type x).
Proof. now apply forward_fields. Qed.

Lemma overwriteToken_forward type st x :
  forward st x -> forward st (overwriteToken type x).
Proof.
  unfold overwriteToken. destruct (last (tokens x)); [ | auto ].
  now apply forward_fields.
Qed.

Lemma pop_indent_forward st x : forward st x -> forward st (pop_indent x).
Proof. now apply forward_fields. Qed.

Lemma iter_forward (f : t -> t) n st x :
  (forall y, forward st y -> forward st (f y)) ->
  forward st x -> forward st (Nat.iter n f x).
Proof.
  intros Hf Hx. induction n as [ | n IH]; simpl; [ assumption | now apply Hf ].
Qed.

Lemma advance_while_forward p st x :
  forward st x -> forward st (advance_while p x).
Proof. apply iter_forward. intros y. apply advance_forward. Qed.

Lemma skip_comment_forward st x : forward st x -> forward st (skip_comment x).
Proof. apply advance_while_forward. Qed.

Lemma matches_forward pattern st x x' :
  matches pattern x = Some x' -> forward st x -> forward st x'.
Proof.
  unfold matches. intros H Hx.
  destruct (isAtEnd x); [ discriminate | ].
  destruct (is_char _ _); [ | discriminate ].
  injection H as <-. revert Hx. apply forward_fields; simpl; [ reflexivity | lia ].
Qed.

Lemma either_forward pattern yes no st x :
  forward st x -> forward st (either pattern yes no x).
Proof.
  intros Hx. unfold either. destruct (matches pattern x) eqn:E.
  - apply addToken_forward. eapply matches_forward; eassumption.
  - now apply addToken_forward.
Qed.

Lemma proceeds_Scanned st x : forward st x -> proceeds st (Scanned x).
Proof. auto. Qed.

Lemma proceeds_Fails st e : proceeds st (Fails e).
Proof. exact I. Qed.

Lemma proceeds_and_then st s k :
  proceeds st s ->
  (forall x, forward st x -> proceeds st (k x)) ->
  proceeds st (and_then s k).
Proof.
  intros Hs Hk. destruct s as [x | e | ]; simpl; [ now apply Hk | exact I | ].
  destruct Hs.
Qed.

Create HintDb forward.

Hint Resolve forward_refl advance_forward addBuffer_forward
  advanceString_forward subtractBuffer_forward with_position_forward
  next_line_forward with_parenthesesLevel_forward with_indentStack_forward
  with_start_forward addToken_forward addQuotedToken_forward
  overwriteToken_forward pop_indent_forward advance_while_forward
  skip_comment_forward either_forward proceeds_Scanned proceeds_Fails
  : forward.

Ltac forward :=
  repeat first
    [ progress intros
    | solve [ auto 12 with forward ]
    | match goal with
      | |- proceeds _ (and_then _ _) => apply proceeds_and_then
      | |- proceeds _ (if ?b then _ else _) => destruct b
      | |- forward _ (if ?b then _ else _) => destruct b
      | |- forward _ (advance (if ?b then _ else _)) => destruct b
      | |- proceeds _ (Scanned (if ?b then _ else _)) => destruct b
      end ].

Lemma digits_run_proceeds rest st x :
  forward st x -> proceeds st (digits_run rest x).
Proof.
  revert x. induction rest as [ | c rest IH]; intros x Hx; simpl.
  - forward.
  - destruct (isDigit c); [ apply IH; forward | ].
    destruct (is_char c "_"); [ | forward ].
    destruct (isDigit _); [ apply IH | ]; forward.
Qed.

Lemma finish_number_forward otherwise st x :
  forward st x -> forward st (finish_number otherwise x).
Proof. intros. unfold finish_number. forward. Qed.

Lemma exponent_proceeds digits st x :
  (forall y, forward st y -> proceeds st (digits y)) ->
  forward st x -> proceeds st (exponent digits x).
Proof.
  intros Hd Hx. unfold exponent. cbv zeta.
  destruct (is_char (peek x) "e"); [ | forward ].
  destruct (isDigit _); [ apply Hd | ]; forward.
Qed.

Hint Resolve digits_run_proceeds finish_number_forward : forward.

Lemma number_proceeds c st x : forward st x -> proceeds st (number c x).
Proof.
  intros Hx. unfold number. cbv zeta. forward.
  all: try (apply exponent_proceeds; forward).
  all: forward.
Qed.

Lemma prefixed_proceeds p st x : forward st x -> proceeds st (prefixed p x).
Proof. intros Hx. unfold prefixed. cbv zeta. forward. Qed.

Lemma baseNumber_proceeds st x : forward st x -> proceeds st (baseNumber x).
Proof.
  intros Hx. unfold baseNumber. cbv zeta.
  repeat (destruct (is_char (peek x) _); [ now apply prefixed_proceeds | ]).
  forward.
  all: try (apply exponent_proceeds; forward).
  all: forward.
Qed.

Lemma escape_step_proceeds c st x :
  forward st x -> proceeds st (escape_step c x).
Proof.
  intros Hx. unfold escape_step. cbv zeta.
  destruct (escaped c) as [[a | ] | ]; forward.
Qed.

Lemma single_line_proceeds quote rest st x :
  forward st x -> proceeds st (single_line quote rest x).
Proof.
  remember (length rest) as n eqn:Hn. revert rest Hn x.
  induction n as [n IH] using lt_wf_ind. intros rest Hn x Hx.
  destruct rest as [ | c rest']; simpl; [ forward | ].
  destruct (_ || _); [ forward | ].
  destruct (is_char c _).
  - destruct rest' as [ | e rest'']; [ forward | ].
    apply proceeds_and_then; [ now apply escape_step_proceeds | ].
    intros y Hy. eapply IH; [ | reflexivity | assumption ].
    subst n. simpl. lia.
  - eapply IH; [ | reflexivity | forward ]. subst n. simpl. lia.
Qed.

Lemma multi_line_proceeds quote rest quote_sum st x :
  forward st x -> proceeds st (multi_line quote rest quote_sum x).
Proof.
  remember (length rest) as n eqn:Hn. revert rest Hn quote_sum x.
  induction n as [n IH] using lt_wf_ind. intros rest Hn quote_sum x Hx.
  destruct rest as [ | c rest']; simpl; [ forward | ].
  destruct (is_char c quote).
  - match goal with
    | |- context [if ?b then _ else _] => destruct b
    end; [ forward | ].
    eapply IH; [ | reflexivity | forward ]. subst n. simpl. lia.
  - destruct (is_char c _).
    + destruct rest' as [ | e rest'']; [ forward | ].
      apply proceeds_and_then; [ now apply escape_step_proceeds | ].
      intros y Hy. eapply IH; [ | reflexivity | assumption ].
      subst n. simpl. lia.
    + eapply IH; [ | reflexivity | forward ]. subst n. simpl. lia.
Qed.

Lemma string_literal_proceeds quote st x :
  forward st x -> proceeds st (string_literal quote x).
Proof.
  intros Hx. unfold string_literal. cbv zeta.
  destruct (is_char (peek x) quote).
  - destruct (negb _); [ forward | ].
    apply proceeds_and_then; [ apply multi_line_proceeds | ]; forward.
  - apply proceeds_and_then; [ now apply single_line_proceeds | ]. forward.
Qed.

Lemma operator_proceeds k st x :
  (forall y, forward st y -> forward st (k y)) ->
  forward st x -> proceeds st (operator k x).
Proof.
  intros Hk Hx. unfold operator. destruct (matches _ x); forward.
Qed.

Lemma blank_lines_forward counting rest acc st x :
  forward st x -> forward st (blank_lines counting rest acc x).2.
Proof.
  remember (length rest) as n eqn:Hn. revert rest Hn counting acc x.
  induction n as [n IH] using lt_wf_ind. intros rest Hn counting acc x Hx.
  destruct rest as [ | c rest']; simpl; [ assumption | ].
  destruct (_ && _).
  { eapply IH; [ | reflexivity | forward ]. subst n. simpl. lia. }
  destruct (is_char c LF).
  { eapply IH; [ | reflexivity | forward ]. subst n. simpl. lia. }
  destruct (is_char c CR); [ | assumption ].
  destruct rest' as [ | c' rest'']; [ simpl; forward | ].
  destruct (is_char c' LF);
    (eapply IH; [ | reflexivity | forward ]; subst n; simpl; lia).
Qed.

Lemma indentation_proceeds acc st x :
  forward st x -> proceeds st (indentation acc x).
Proof.
  intros Hx. unfold indentation.
  destruct (negb _); [ forward | ].
  destruct (indentStack x) as [ | tos stack]; [ forward | ].
  destruct (tos <? acc).
  - apply proceeds_Scanned, iter_forward; forward.
  - destruct (acc <? tos); [ | forward ].
    apply proceeds_Scanned, iter_forward; forward.
Qed.

Lemma newline_proceeds st x : forward st x -> proceeds st (newline x).
Proof.
  intros Hx. unfold newline.
  destruct (0 <? parenthesesLevel x); [ forward | ].
  cbv zeta. unfold leading_spaces.
  match goal with
  | |- proceeds _ (let '(_, _) := blank_lines ?c ?r ?a ?y in _) =>
      pose proof (blank_lines_forward c r a st y) as Hblank;
      destruct (blank_lines c r a y) as [acc' st4]
  end.
  simpl in Hblank. apply indentation_proceeds, Hblank.
  destruct (is_char _ _); [ apply skip_comment_forward | ];
    apply iter_forward; forward.
Qed.

Hint Resolve number_proceeds prefixed_proceeds baseNumber_proceeds
  string_literal_proceeds operator_proceeds newline_proceeds : forward.

(** *** Names *)

Lemma take_while_all {A} (p : A -> bool) (l : list A) :
  (length (take_while p l) =? length l) = forallb p l.
Proof.
  induction l as [ | x l IH]; [ reflexivity | ]. simpl.
  destruct (p x); simpl; [ exact IH | reflexivity ].
Qed.

Lemma name_outcome st x :
  forward st x ->
  if forallb isIdentifier (rest x) then name x = Hangs
  else proceeds st (name x).
Proof.
  intros Hx. unfold name. cbv zeta. rewrite take_while_all.
  destruct (forallb isIdentifier (rest x)); [ reflexivity | ].
  set (x1 := Nat.iter _ advance x).
  assert (Hx1 : forward st x1) by (subst x1; apply iter_forward; forward).
  destruct (existsb _ _); [ forward | ].
  destruct (assoc _ specialIdentifiers) as [special | ]; [ | forward ].
  destruct special; try solve [ forward ];
    (destruct (last (tokens x1)); [ | forward ]);
    (destruct (TokenType.eqb _ _); forward).
Qed.

(** *** One call of [scanToken] *)

Lemma starts_name_is_char (c d : ascii) :
  is_char c d = true -> starts_name d = false -> starts_name c = false.
Proof.
  intros Hc Hd. apply bool_decide_eq_true in Hc. now subst d.
Qed.

Lemma digit_not_name (c : ascii) :
  between 49 57 c = true -> starts_name c = false.
Proof.
  destruct c as [[ | ] [ | ] [ | ] [ | ] [ | ] [ | ] [ | ] [ | ]];
    vm_compute; congruence.
Qed.

Ltac not_name H :=
  repeat (apply orb_true_iff in H as [H | H]);
  first [ apply digit_not_name in H; congruence
        | apply starts_name_is_char in H; [ congruence | reflexivity ] ].

(** On a character that starts a name, [scanToken] is [name]. *)
Lemma scanToken_name st0 :
  starts_name (peek st0) = true -> scanToken st0 = name (advance st0).
Proof.
  intros Hs. unfold scanToken. cbv zeta.
  repeat match goal with
         | |- (if is_char (peek st0) "_" || _ || _ then _ else _) = _ =>
             fail 1
         | |- (if ?b then _ else _) = _ =>
             destruct b eqn:Htest; [ exfalso; not_name Htest | clear Htest ]
         end.
  destruct (_ || _ || _) eqn:Hname; [ reflexivity | ].
  exfalso. unfold starts_name in Hs. rewrite Hname in Hs.
  now rewrite andb_false_r in Hs.
Qed.

(** On any other character, [scanToken] ends. *)
Lemma scanToken_other st0 :
  starts_name (peek st0) = false ->
  proceeds (advance st0) (scanToken st0).
Proof.
  intros Hs. unfold scanToken. cbv zeta.
  destruct (is_char (peek st0) "#"); [ forward | ].
  destruct (is_char (peek st0) ":"); [ forward | ].
  destruct (is_char (peek st0) SPACE) eqn:Hsp; [ forward | ].
  destruct (is_char (peek st0) CR) eqn:Hcr.
  { destruct (matches LF (advance st0)) as [x | ] eqn:Hm; [ | forward ].
    apply newline_proceeds. eapply matches_forward; [ exact Hm | forward ]. }
  destruct (is_char (peek st0) LF) eqn:Hlf; [ forward | ].
  repeat match goal with
         | |- proceeds _ (if is_char (peek st0) "_" || _ || _ then _ else _) =>
             fail 1
         | |- proceeds _ (if ?b then _ else _) =>
             destruct b; [ solve [ forward ] | ]
         end.
  destruct (_ || _ || _) eqn:Hname; [ | forward ].
  unfold starts_name in Hs. now rewrite Hsp, Hcr, Hlf, Hname in Hs.
Qed.

Lemma scanToken_outcome st0 :
  match scanToken st0 with
  | Scanned st' => forward (advance st0) st'
  | Fails _ => True
  | Hangs =>
      starts_name (peek st0) = true
      /\ forallb isIdentifier (rest (advance st0)) = true
  end.
Proof.
  destruct (starts_name (peek st0)) eqn:Hs.
  - rewrite (scanToken_name st0 Hs).
    pose proof (name_outcome (advance st0) (advance st0) (forward_refl _)) as H.
    destruct (forallb isIdentifier (rest (advance st0))).
    + rewrite H. now split.
    + destruct (name (advance st0)); [ exact H | exact I | destruct H ].
  - pose proof (scanToken_other st0 Hs) as H.
    destruct (scanToken st0); [ exact H | exact I | destruct H ].
Qed.

(** *** The loop over the source *)

Lemma last_drop {A} (l : list A) (x : A) (n : nat) :
  last l = Some x -> n < length l -> last (drop n l) = Some x.
Proof.
  intros Hl Hn. apply last_Some in Hl as [l' ->].
  rewrite length_app in Hn. simpl in Hn.
  rewrite drop_app_le by lia. now rewrite last_snoc.
Qed.

Lemma forallb_last {A} (p : A -> bool) (l : list A) (x : A) :
  forallb p l = true -> last l = Some x -> p x = true.
Proof.
  intros Hp Hl. apply last_Some in Hl as [l' ->].
  rewrite forallb_app in Hp. apply andb_true_iff in Hp as [_ Hp].
  simpl in Hp. now rewrite andb_true_r in Hp.
Qed.

(** In a source that ends with a line break, no call of [scanToken] made
    before the end of the source hangs. *)
Lemma scanToken_ends st :
  last (source st) = Some LF ->
  isAtEnd st = false ->
  scanToken st <> Hangs.
Proof.
  intros Hlast Hend Hhang.
  pose proof (scanToken_outcome st) as H. rewrite Hhang in H.
  destruct H as [Hs Hall].
  unfold isAtEnd in Hend. apply Nat.leb_gt in Hend.
  unfold rest in Hall. cbn [advance source current] in Hall.
  destruct (decide (S (current st) < length (source st))) as [Hlt | Hge].
  - pose proof (forallb_last _ _ _ Hall (last_drop _ _ _ Hlast Hlt)) as Hid.
    discriminate Hid.
  - assert (Hpeek : peek st = LF).
    { unfold peek, rest. apply last_Some in Hlast as [l' Hl'].
      rewrite Hl', length_app in *. simpl in *.
      replace (current st) with (length l' + 0) by lia.
      now rewrite drop_app_add. }
    rewrite Hpeek in Hs. discriminate Hs.
Qed.

Lemma scan_loop_ends fuel :
  forall st,
    last (source st) = Some LF ->
    length (source st) - current st <= fuel ->
    scan_loop fuel st <> Hangs.
Proof.
  induction fuel as [ | fuel IH]; intros st Hlast Hfuel; simpl;
    destruct (isAtEnd st) eqn:Hend; try discriminate.
  - unfold isAtEnd in Hend. apply Nat.leb_gt in Hend. lia.
  - pose proof (scanToken_outcome (with_start st)) as H.
    pose proof (scanToken_ends (with_start st) Hlast Hend) as Hnot.
    destruct (scanToken (with_start st)) as [x | e | ];
      [ | discriminate | contradiction ].
    simpl. destruct H as [Hsrc Hcur]. simpl in Hsrc, Hcur.
    apply IH; [ now rewrite Hsrc | rewrite Hsrc; lia ].
Qed.

Lemma unravel_Hangs stack st : unravel stack st = Hangs <-> 0 ∉ stack.
Proof.
  revert st. induction stack as [ | [ | n] stack IH]; intros st; simpl.
  - split; [ intros _; apply not_elem_of_nil | reflexivity ].
  - split; [ discriminate | intros H; destruct H; left ].
  - rewrite IH. rewrite not_elem_of_cons. split; [ now split | now intros [_ H] ].
Qed.

End Progress.

(** X20: a call of [scanToken] that returns has consumed at least one
    character of the source, which it leaves as it is. *)
Theorem scanToken_progress (st st' : Tokenizer.t) :
  Tokenizer.scanToken st = Tokenizer.Scanned st' ->
  Tokenizer.source st' = Tokenizer.source st
  /\ Tokenizer.current st < Tokenizer.current st'.
Proof.
  intros H. pose proof (scanToken_outcome st) as Ho. rewrite H in Ho.
  destruct Ho as [Hsrc Hcur]. simpl in Hsrc, Hcur. split; [ exact Hsrc | lia ].
Qed.

Lemma scanToken_progress_witness :
  exists st',
    Tokenizer.scanToken (Tokenizer.new "1") = Tokenizer.Scanned st'
    /\ Tokenizer.current (Tokenizer.new "1") < Tokenizer.current st'.
Proof.
  destruct (Tokenizer.scanToken (Tokenizer.new "1")) as [st' | e | ] eqn:H;
    try (vm_compute in H; discriminate H).
  exists st'. split; [ reflexivity | ].
  exact (proj2 (scanToken_progress (Tokenizer.new "1") st' H)).
Defined.



Lemma chars_append (s t : string) : chars (s +:+ t) = chars s ++ chars t.
Proof.
  induction s as [ | c s IH]; [ reflexivity | ].
  change (c :: chars (s +:+ t) = c :: (chars s ++ chars t)). now rewrite IH.
Qed.

(** X22: on the script that [runPyAST] passes to the tokenizer, the chunk
    followed by a line break, the loop of [scanEverything] over the source
    ends; the tokenizer does not end exactly when that loop leaves an
    indent stack without the entry [0]. *)
Theorem script_is_scanned (code : string) :
  let script := code +:+ newline in
  Tokenizer.scan_loop (length (chars script)) (Tokenizer.new script)
    <> Tokenizer.Hangs
  /\ (Tokenizer.tokenize script = Tokenizer.Hangs
      <-> exists st1,
            Tokenizer.scan_loop (length (chars script)) (Tokenizer.new script)
            = Tokenizer.Scanned st1
            /\ 0 ∉ Tokenizer.indentStack st1).
Proof.
  intros script.
  assert (Hlast : last (chars script) = Some Tokenizer.LF).
  { subst script. rewrite chars_append. apply last_snoc. }
  assert (Hloop : Tokenizer.scan_loop (length (chars script))
                    (Tokenizer.new script)
                  <> Tokenizer.Hangs).
  { apply scan_loop_ends; [ exact Hlast | simpl; lia ]. }
  split; [ exact Hloop | ].
  unfold Tokenizer.tokenize, Tokenizer.scanEverything.
  change (Tokenizer.source (Tokenizer.new script)) with (chars script).
  destruct (Tokenizer.scan_loop _ _) as [st1 | e | ]; simpl.
  - destruct (Tokenizer.unravel _ st1) as [st2 | e | ] eqn:Hu; simpl.
    + split; [ discriminate | ]. intros (st & [= <-] & H0).
      apply (proj2 (unravel_Hangs _ st1)) in H0. congruence.
    + split; [ discriminate | ]. intros (st & [= <-] & H0).
      apply (proj2 (unravel_Hangs _ st1)) in H0. congruence.
    + split; [ | reflexivity ]. intros _. exists st1.
      split; [ reflexivity | ]. exact (proj1 (unravel_Hangs _ st1) Hu).
  - split; [ discriminate | ]. now intros (st & [=] & _).
  - contradiction.
Qed.

(** ** Static scoping *)

Lemma chain_app (store extra : list PyEnvironment.t) (x : option addr)
    (frames : list (addr * PyEnvironment.t)) :
  chain store x frames -> chain (store ++ extra) x frames.
Proof.
  induction 1 as [ | a env frames Ha _ IH]; constructor; [ | assumption ].
  rewrite lookup_app_l; [ assumption | now apply lookup_lt_Some in Ha ].
Qed.

(** X23: in the frame of a call, a name that is neither a parameter nor
    assigned in the body of the function is looked up along the frames of
    the environment in which the closure was created, whatever the frames
    of the caller are: the value is the first binding along that chain,
    else the built-in of that name, else the lookup raises a
    [NameError]. *)
Theorem free_variables_are_static (ctx ctx' : PyContext.t)
    (closure : PyClosure.t) (args : list Value) (callExpression : Node)
    (objectCount : nat) (frames : list (addr * PyEnvironment.t))
    (name : string) :
  PyContext.store ctx'
  = PyContext.store ctx
      ++ [call_frame closure args callExpression objectCount] ->
  currentEnvironment ctx' = Some (length (PyContext.store ctx)) ->
  chain (PyContext.store ctx) (PyClosure.environment closure) frames ->
  name ∉ map Token.lexeme (parameters_of (PyClosure.node closure)) ->
  name ∉ PyClosure.localVariables closure ->
  pyGetVariable name ctx'
  = match first_binding frames name with
    | Some v => Ok v ctx'
    | None =>
        match builtIns name with
        | Some f => Ok (VBuiltIn f) ctx'
        | None => Raise (NameError name) ctx'
        end
    end.
Proof.
  intros Hstore Hcur Hchain Hparam Hlocal.
  set (new := call_frame closure args callExpression objectCount) in *.
  set (n := length (PyContext.store ctx)) in *.
  assert (Hframe : PyContext.store ctx' !! n = Some new).
  { rewrite Hstore. subst n. unfold addr.
    now rewrite lookup_app_r, Nat.sub_diag by lia. }
  assert (Hhead : PyEnvironment.head new !! name = None).
  { subst new. cbn. rewrite bind_parameters_other by assumption.
    apply lookup_empty. }
  assert (Hwhole : chain (PyContext.store ctx') (Some n) ((n, new) :: frames)).
  { constructor; [ exact Hframe | ]. rewrite Hstore. now apply chain_app. }
  unfold pyGetVariable. rewrite Hcur. unfold frame, addr in *. rewrite Hframe.
  assert (Hlater : local_assigned_later new name = false).
  { unfold local_assigned_later. subst new. cbn.
    rewrite (bool_decide_eq_false_2 (name ∈ _)) by assumption. reflexivity. }
  rewrite Hlater.
  rewrite (lookup_chain_first_binding _ _ _ name _ Hwhole
             (chain_length _ _ _ Hwhole)).
  cbn [first_binding]. rewrite Hhead.
  now destruct (first_binding frames name).
Qed.

Lemma free_variables_are_static_witness :
  pyGetVariable "f" called_context
  = Ok (VPyClosure identity_closure) called_context.
Proof.
  etransitivity;
    [ apply (free_variables_are_static call_context called_context
               identity_closure [VBigint 1] (ExprNode identity_call) 1
               [(0, PyEnvironment.mk "global" None
                      (<["f" := VPyClosure identity_closure]> ∅) "-1" None
                      None)]
               "f")
    | vm_compute; reflexivity ].
  - reflexivity.
  - reflexivity.
  - apply chain_step; [ reflexivity | apply chain_end ].
  - intros H. apply elem_of_cons in H as [H | H]; [ discriminate H | ].
    now apply elem_of_nil in H.
  - apply not_elem_of_empty.
Defined.

(** ** Function definitions *)

Lemma pyGetVariable_frames (name : string) (ctx ctx' : PyContext.t) :
  PyContext.environments ctx' = PyContext.environments ctx ->
  PyContext.store ctx' = PyContext.store ctx ->
  pyGetVariable name ctx'
  = match pyGetVariable name ctx with
    | Ok v _ => Ok v ctx'
    | Raise e _ => Raise e ctx'
    | Loops => Loops
    end.
Proof.
  intros Henvs Hstore. unfold pyGetVariable, currentEnvironment, frame.
  rewrite Henvs, Hstore.
  destruct (PyContext.environments ctx) as [ | a envs]; [ reflexivity | ].
  destruct (PyContext.store ctx !! a) as [env | ]; [ | reflexivity ].
  destruct (local_assigned_later env name); [ reflexivity | ].
  destruct (lookup_chain _ _ _ _); try reflexivity.
  destruct (builtIns name); reflexivity.
Qed.

Lemma outcome_frames (name : string) (ctx ctx' : PyContext.t) :
  PyContext.environments ctx' = PyContext.environments ctx ->
  PyContext.store ctx' = PyContext.store ctx ->
  outcome (pyGetVariable name ctx') = outcome (pyGetVariable name ctx).
Proof.
  intros He Hs. rewrite (pyGetVariable_frames name ctx ctx' He Hs).
  now destruct (pyGetVariable name ctx).
Qed.

(** X24: a [def] statement takes one turn: it binds the name of the
    function in the current frame to a new closure that records the
    current frame as its environment and the assignment targets of the
    body as its local variables.  The Stash and the lookups of other names
    are as before; the counter of identifiers is incremented. *)
Theorem definition_captures_environment (host : Host) (isPrelude : bool)
    (name : Token.t) (parameters : list Token.t) (body : list Stmt)
    (varDecls : list Token.t) (ctx : PyContext.t) (rest : list ControlItem)
    (steps : nat) (a : addr) (env : PyEnvironment.t) :
  let node := FunctionDefNode name parameters body varDecls in
  PyContext.control ctx
  = CNode (StmtNode (FunctionDef name parameters body varDecls)) :: rest ->
  currentEnvironment ctx = Some a ->
  frame ctx a = Some env ->
  Token.lexeme name <> "hasOwnProperty" ->
  PyEnvironment.head env !! "hasOwnProperty" = None ->
  exists ctx',
    turns host 1 isPrelude steps ctx = Ok (steps + 1) ctx'
    /\ PyContext.control ctx' = rest
    /\ PyContext.stash ctx' = PyContext.stash ctx
    /\ pyGetVariable (Token.lexeme name) ctx'
       = Ok (VPyClosure (closure_of node ctx)) ctx'
    /\ PyClosure.environment (closure_of node ctx) = Some a
    /\ PyClosure.localVariables (closure_of node ctx)
       = scanForAssignments_array body
    /\ (forall other,
          other <> Token.lexeme name ->
          outcome (pyGetVariable other ctx')
          = outcome (pyGetVariable other ctx))
    /\ PyContext.environments ctx' = PyContext.environments ctx
    /\ PyContext.objectCount ctx' = S (PyContext.objectCount ctx).
Proof.
  intros node Hc Hcur Hframe _ _.
  set (made := set_objectCount (S (PyContext.objectCount ctx))
                 (set_nodes (StmtNode (FunctionDef name parameters body
                                         varDecls)
                               :: tl (PyContext.nodes ctx))
                    (set_control rest ctx))).
  assert (Hcur' : currentEnvironment made = Some a)
    by (destruct ctx; exact Hcur).
  assert (Hframe' : frame made a = Some env) by (destruct ctx; exact Hframe).
  destruct (pyDefineVariable_spec made (Token.lexeme name)
              (VPyClosure (closure_of node ctx)) a env Hcur' Hframe')
    as (c3 & Hdef & Hget & Hother & Hc3 & Hs3 & Ho3 & He3 & Hen3).
  assert (Hstep : step host
                    (CNode (StmtNode (FunctionDef name parameters body
                                        varDecls))) ctx
                  = Ok tt c3).
  { rewrite <- Hdef. destruct ctx as [c s o errs envs st oc ns r t].
    cbn in Hc. subst c. reflexivity. }
  destruct (turns_S host 0 isPrelude steps ctx _ rest c3 Hc Hstep)
    as (c4 & Hturns & Hc4 & Hs4 & Hm4).
  assert (Hoc3 : PyContext.objectCount c3 = S (PyContext.objectCount ctx)).
  { unfold pyDefineVariable in Hdef. rewrite Hcur', Hframe' in Hdef.
    injection Hdef as <-. now destruct ctx. }
  exists c4. split.
  { rewrite Hturns. cbn [turns]. rewrite Nat.add_1_r.
    now destruct (PyContext.control c4). }
  split; [ rewrite Hc4, Hc3; now destruct ctx | ].
  split; [ rewrite Hs4, Hs3; now destruct ctx | ].
  split.
  { rewrite (pyGetVariable_same_memory _ _ _ Hm4), Hget. reflexivity. }
  split; [ exact Hcur | ].
  split; [ reflexivity | ].
  destruct Hm4 as (_ & _ & Hen4 & Hst4 & Hoc4 & _).
  split.
  { intros other Hne. rewrite (outcome_frames other c3 c4 Hen4 Hst4).
    rewrite (Hother other Hne). apply outcome_frames; now destruct ctx. }
  split; [ rewrite Hen4, Hen3; now destruct ctx | ].
  now rewrite Hoc4.
Qed.

Lemma definition_captures_environment_witness :
  exists ctx',
    turns integer_host 1 false 0
      (set_control [CNode (StmtNode identity_definition)] PyContext_new)
    = Ok (0 + 1) ctx'
    /\ PyContext.objectCount ctx' = 1.
Proof.
  destruct (definition_captures_environment integer_host false
              (token TokenType.NAME "f") [token TokenType.NAME "x"]
              [Return (Some (variable "x"))] []
              (set_control [CNode (StmtNode identity_definition)] PyContext_new)
              [] 0 0 _ eq_refl eq_refl eq_refl ltac:(discriminate) eq_refl)
    as (ctx' & Hn & _ & _ & _ & _ & _ & _ & _ & Hoc).
  exists ctx'. split; assumption.
Defined.

(** ** Complex operands *)

Lemma eqb_zero (x : float) :
  JsNumber.eqb x JsNumber.zero = true -> exists s, x = S754_zero s.
Proof.
  destruct x as [s | s | | s m e]; intros H; [ now exists s | .. ];
    try destruct s; discriminate H.
Qed.

Lemma complex_div_zero (host : Host) (x y : PyComplexNumber.t) :
  JsNumber.eqb (PyComplexNumber.real y) JsNumber.zero = true ->
  JsNumber.eqb (PyComplexNumber.imag y) JsNumber.zero = true ->
  complex_div x y = Thrown (JsError "Division by zero in complex number.").
Proof.
  destruct y as [r i]. cbn. intros Hr Hi.
  apply eqb_zero in Hr as [s ->]. apply eqb_zero in Hi as [s' ->].
  destruct s, s'; reflexivity.
Qed.

(** X25: the division of a Complex by a Complex, Int, Float or Bool that
    is zero raises a plain [Error] with the message
    [Division by zero in complex number.]: not the [ZeroDivisionError] of
    the other numbers, and not through [pyHandleRuntimeError]. *)
Theorem complex_division_by_zero (host : Host) (x : PyComplexNumber.t)
    (right : Value) :
  type_of right = T_complex \/ is_numeric right = true ->
  isFalsy right = true ->
  evaluateBinaryExpression host TokenType.SLASH (VComplex x) right
  = Thrown (JsError "Division by zero in complex number.").
Proof.
  intros Hty Hz.
  destruct right as [ | | b | z | y | s | c | m | c | c | f | ms];
    try (destruct Hty as [Hty | Hty]; discriminate Hty); cbn in Hz.
  - destruct b; [ discriminate Hz | ]. reflexivity.
  - apply Z.eqb_eq in Hz. subst z. reflexivity.
  - apply eqb_zero in Hz as [s ->]. destruct s; reflexivity.
  - apply andb_true_iff in Hz as [Hr Hi].
    unfold evaluateBinaryExpression. cbn.
    unfold binary_complex. cbn. now rewrite complex_div_zero.
Qed.

Lemma complex_division_by_zero_witness :
  evaluateBinaryExpression integer_host TokenType.SLASH
    (VComplex (PyComplexNumber.mk JsNumber.one JsNumber.one)) (VBool false)
  = Thrown (JsError "Division by zero in complex number.").
Proof.
  apply (complex_division_by_zero integer_host
           (PyComplexNumber.mk JsNumber.one JsNumber.one) (VBool false));
    [ right; reflexivity | reflexivity ].
Defined.

(** X26: the operators on a Complex look at the type of the right operand
    only.  A Complex and a string raise an unsupported-operand
    [TypeError]; a string and a Complex do not: the string is read as a
    complex number, and the operation raises only when that fails. *)
Theorem complex_reads_left_string (host : Host) (s : string)
    (y : PyComplexNumber.t) :
  evaluateBinaryExpression host TokenType.PLUS (VComplex y) (VString s)
  = Handled (UnsupportedOperandTypeError "complex" "string" "+")
  /\ evaluateBinaryExpression host TokenType.PLUS (VString s) (VComplex y)
     = match fromString host (P_string s) with
       | Normal x => Normal (VComplex (complex_add x y))
       | Handled e => Handled e
       | Thrown e => Thrown e
       end.
Proof.
  split; [ reflexivity | ].
  unfold evaluateBinaryExpression. cbn. unfold binary_complex. cbn.
  destruct (fromString host (P_string s)); reflexivity.
Qed.

(** ** A call and its return *)

Lemma application_step_isRunning (host : Host) (closure : PyClosure.t)
    (args : list Value) (srcNode : Node) (rest : list ControlItem)
    (stash : list Value) (ctx ctx' : PyContext.t) :
  PyContext.stash ctx = rev args ++ VPyClosure closure :: stash ->
  step host (CInstr (appInstr (length args) srcNode)) ctx = Ok tt ctx' ->
  PyContext.isRunning ctx' = PyContext.isRunning ctx.
Proof.
  intros Hs. unfold step. cbn [evaluate_instr].
  unfold bind at 1. unfold modify at 1. unfold bind at 1.
  rewrite (pop_args_spec args [] (VPyClosure closure :: stash))
    by (destruct ctx; exact Hs).
  destruct ctx as [c s o errs envs st oc ns r t].
  destruct closure as [cid node cenv pre locals].
  destruct node as [fname params body varDecls | params body]; cbn;
    unfold bind, control_push, control_push_all, modify, stash_pop; cbn;
    now intros [= <-].
Qed.

Lemma statements_pending (more : list Stmt) (srcNode : Node) :
  Forall (fun item => is_reset item = false)
    (statements more ++ [CInstr (endOfFunctionBodyInstr srcNode)]).
Proof.
  apply Forall_app. split; [ | now repeat constructor ].
  unfold statements. apply Forall_map. now apply Forall_true.
Qed.



(** ** The line of an error in the source *)

Section ErrorLines.

Import Tokenizer.

Lemma line_start_le source back : line_start source back <= back.
Proof.
  induction back as [ | back IH]; simpl; [ lia | ].
  destruct (is_line_break_at source (S back)); lia.
Qed.

Lemma line_start_clear source back i :
  line_start source back < i <= back -> is_line_break_at source i = false.
Proof.
  induction back as [ | back IH]; simpl; [ lia | ].
  destruct (is_line_break_at source (S back)) eqn:Hb; [ lia | ].
  intros Hi. destruct (decide (i = S back)) as [-> | Hne]; [ exact Hb | ].
  apply IH. lia.
Qed.

Lemma line_start_stop source back :
  line_start source back = 0
  \/ is_line_break_at source (line_start source back) = true.
Proof.
  induction back as [ | back IH]; simpl; [ now left | ].
  destruct (is_line_break_at source (S back)) eqn:Hb; [ now right | exact IH ].
Qed.

Lemma is_line_break_at_Some source i :
  is_line_break_at source i = true <-> source !! i = Some LF.
Proof.
  unfold is_line_break_at. destruct (source !! i) as [c | ]; [ | easy ].
  unfold is_char. rewrite bool_decide_eq_true. split; congruence.
Qed.

Lemma take_while_clear (l : list ascii) (i : nat) (c : ascii) :
  take_while (fun c => negb (is_char c LF)) l !! i = Some c -> c <> LF.
Proof.
  revert i. induction l as [ | x l IH]; intros i; simpl; [ easy | ].
  destruct (is_char x LF) eqn:Hx; simpl; [ easy | ].
  destruct i as [ | i]; simpl; [ | apply IH ].
  intros [= <-] ->. unfold is_char in Hx.
  now rewrite bool_decide_eq_true_2 in Hx.
Qed.

Lemma take_while_prefix (l : list ascii) :
  take_while (fun c => negb (is_char c LF)) l
  = take (length (take_while (fun c => negb (is_char c LF)) l)) l.
Proof.
  induction l as [ | x l IH]; simpl; [ reflexivity | ].
  destruct (is_char x LF); simpl; [ reflexivity | ]. now rewrite <- IH.
Qed.

Lemma take_while_stop (l : list ascii) :
  drop (length (take_while (fun c => negb (is_char c LF)) l)) l = []
  \/ head (drop (length (take_while (fun c => negb (is_char c LF)) l)) l)
     = Some LF.
Proof.
  induction l as [ | x l IH]; simpl; [ now left | ].
  destruct (is_char x LF) eqn:Hx; simpl; [ | exact IH ].
  right. unfold is_char in Hx. apply bool_decide_eq_true in Hx. now subst x.
Qed.

Lemma not_elem_of_clear (l : list ascii) :
  (forall i c, l !! i = Some c -> c <> LF) -> LF ∉ l.
Proof.
  intros H Hin. apply list_elem_of_lookup in Hin as [i Hi].
  now apply (H i LF Hi).
Qed.

(** The line cut out between [back] and the end of the line of
    [current], when no line break lies between them. *)
Lemma line_segment source back current :
  back <= current ->
  (forall i, back <= i <= current -> is_line_break_at source i = false) ->
  current < length source ->
  let fullLine := take (line_end source current - back) (drop back source) in
  let post := drop (line_end source current) source in
  source = take back source ++ fullLine ++ post
  /\ (LF ∉ fullLine)
  /\ (post = [] \/ head post = Some LF)
  /\ back <= current /\ current < back + length fullLine.
Proof.
  intros Hle Hclear Hlt fullLine post. subst fullLine post.
  unfold line_end.
  set (run := take_while (fun c => negb (is_char c LF)) (drop current source)).
  assert (Hrun : 0 < length run).
  { subst run. destruct (drop current source) as [ | c rest] eqn:Hd.
    - apply (f_equal length) in Hd. rewrite length_drop in Hd. simpl in Hd. lia.
    - simpl. specialize (Hclear current ltac:(lia)).
      unfold is_line_break_at in Hclear.
      assert (Hc : source !! current = Some c).
      { rewrite <- (Nat.add_0_r current), <- lookup_drop, Hd. reflexivity. }
      rewrite Hc in Hclear. rewrite Hclear. simpl. lia. }
  assert (Hbound : current + length run <= length source).
  { subst run. rewrite take_while_prefix, length_take, length_drop. lia. }
  split; [ | split; [ | split; [ | split; [ exact Hle | ] ] ] ].
  - rewrite <- (take_drop back source) at 1. f_equal.
    rewrite <- (take_drop (current + length run - back) (drop back source))
      at 1.
    f_equal. rewrite drop_drop. f_equal. lia.
  - apply not_elem_of_clear. intros i c Hi.
    apply lookup_take_Some in Hi as [Hi Hlen]. rewrite lookup_drop in Hi.
    destruct (decide (back + i <= current)) as [Hlow | Hhigh].
    + specialize (Hclear (back + i) ltac:(lia)).
      unfold is_line_break_at in Hclear. rewrite Hi in Hclear.
      intros ->. unfold is_char in Hclear.
      now rewrite bool_decide_eq_true_2 in Hclear.
    + apply (take_while_clear (drop current source) (back + i - current)).
      change (run !! (back + i - current) = Some c).
      assert (Hp : run = take (length run) (drop current source))
        by apply take_while_prefix.
      rewrite Hp. apply lookup_take_Some. split; [ | lia ].
      rewrite lookup_drop.
      now replace (current + (back + i - current)) with (back + i) by lia.
  - subst run. rewrite <- drop_drop. apply take_while_stop.
  - rewrite length_take, length_drop. lia.
Qed.

Lemma segment_clear source back n :
  (forall i, back <= i < n -> is_line_break_at source i = false) ->
  LF ∉ take (n - back) (drop back source).
Proof.
  intros Hclear. apply not_elem_of_clear. intros i c Hi.
  apply lookup_take_Some in Hi as [Hi Hlen]. rewrite lookup_drop in Hi.
  specialize (Hclear (back + i) ltac:(lia)).
  unfold is_line_break_at in Hclear. rewrite Hi in Hclear.
  intros ->. unfold is_char in Hclear.
  now rewrite bool_decide_eq_true_2 in Hclear.
Qed.

Lemma last_take_S (source : list ascii) (i : nat) :
  i < length source -> last (take (S i) source) = source !! i.
Proof.
  intros Hi. rewrite last_lookup, length_take.
  replace (Init.Nat.pred (S i `min` length source)) with i by lia.
  apply lookup_take_lt. lia.
Qed.

Lemma line_end_break source current :
  is_line_break_at source current = true -> line_end source current = current.
Proof.
  intros Hb. apply is_line_break_at_Some in Hb. unfold line_end.
  apply list_elem_of_split_length in Hb as (pre & rest & -> & ->).
  rewrite drop_app_length.
  assert (Hlf : is_char LF LF = true)
    by (unfold is_char; now apply bool_decide_eq_true_2).
  cbn [take_while]. rewrite Hlf. simpl. lia.
Qed.

Lemma lines_of_snoc (l : list ascii) : lines_of (l ++ [LF]) = S (lines_of l).
Proof.
  unfold lines_of. rewrite count_occ_app. simpl.
  destruct (ascii_dec LF LF); [ lia | congruence ].
Qed.

(** The start of the line found from [back]: the position after the
    closest line break at or before [back], or the start of the source. *)
Lemma line_from_start source back forward :
  back < length source ->
  let start :=
    if is_line_break_at source (line_start source back)
    then S (line_start source back) else line_start source back in
  line_from source (line_start source back) forward
  = (lines_of (take start source), take (forward - start) (drop start source))
  /\ start <= S back
  /\ length (take start source) = start
  /\ (take start source = [] \/ last (take start source) = Some LF)
  /\ (forall i, start <= i <= back -> is_line_break_at source i = false).
Proof.
  intros Hlt start. subst start. unfold line_from.
  pose proof (line_start_le source back) as Hle.
  destruct (is_line_break_at source (line_start source back)) eqn:Hb.
  - split; [ reflexivity | ]. split; [ lia | ].
    split; [ rewrite length_take; lia | ]. split.
    + right. rewrite last_take_S by lia. now apply is_line_break_at_Some.
    + intros i Hi. apply (line_start_clear source back). lia.
  - destruct (line_start_stop source back) as [H0 | H1]; [ | congruence ].
    rewrite H0 in *. split; [ reflexivity | ]. split; [ lia | ].
    split; [ reflexivity | ]. split; [ now left | ].
    intros i Hi. destruct i as [ | i]; [ exact Hb | ].
    apply (line_start_clear source back). lia.
Qed.

(** X28: [getFullLine$1] at a position of the source that holds a
    character other than a line break returns the line of that position,
    cut out between the line breaks around it (or the ends of the
    source), and its number, counted from one.  At a position that holds
    a line break it returns the empty text and the number of the line
    that follows the break. *)
Theorem full_line_of_position (source : list ascii) (current : nat) :
  let '(line, fullLine) := getFullLine_1 source current in
  (forall c, source !! current = Some c -> c <> LF ->
     exists pre post,
       source = pre ++ fullLine ++ post
       /\ (LF ∉ fullLine)
       /\ (pre = [] \/ last pre = Some LF)
       /\ (post = [] \/ head post = Some LF)
       /\ length pre <= current /\ current < length pre + length fullLine
       /\ line = lines_of pre)
  /\ (source !! current = Some LF ->
      fullLine = [] /\ line = S (lines_of (take current source))).
Proof.
  unfold getFullLine_1.
  destruct (line_from source (line_start source current)
              (line_end source current)) as [line fullLine] eqn:Hline.
  split.
  - intros c Hc Hne.
    assert (Hlt : current < length source) by now apply lookup_lt_Some in Hc.
    destruct (line_from_start source current (line_end source current) Hlt)
      as (Heq & Hle & Hlen & Hpre & Hclear).
    rewrite Hline in Heq. injection Heq as -> ->.
    set (start := if is_line_break_at source (line_start source current)
                  then S (line_start source current)
                  else line_start source current) in *.
    assert (Hcur : is_line_break_at source current = false).
    { unfold is_line_break_at. rewrite Hc. unfold is_char.
      now apply bool_decide_eq_false_2. }
    assert (Hstart : start <= current).
    { destruct (decide (start <= current)) as [ | Hgt]; [ assumption | ].
      assert (Hs : line_start source current = current).
      { subst start. pose proof (line_start_le source current).
        destruct (is_line_break_at source (line_start source current)); lia. }
      subst start. rewrite Hs, Hcur in Hgt. lia. }
    destruct (line_segment source start current Hstart Hclear Hlt)
      as (Hsplit & Hno & Hpost & _ & Hin).
    exists (take start source), (drop (line_end source current) source).
    rewrite Hlen. repeat (split; [ assumption | ]). reflexivity.
  - intros Hc. apply is_line_break_at_Some in Hc.
    assert (Hs : line_start source current = current).
    { destruct current as [ | back]; [ reflexivity | ]. simpl. now rewrite Hc. }
    rewrite Hs, (line_end_break _ _ Hc) in Hline. unfold line_from in Hline.
    rewrite Hc in Hline. injection Hline as <- <-.
    replace (current - S current) with 0 by lia. split; [ reflexivity | ].
    apply is_line_break_at_Some in Hc.
    now rewrite (take_S_r _ _ _ Hc), lines_of_snoc.
Qed.

(** X29: off a line break [getFullLine] is [getFullLine$1].  At a line
    break that is not the first character of the source it returns the
    line that the break ends, with the number of that line. *)
Theorem full_line_before_break (source : list ascii) (current : nat) :
  (is_line_break_at source current = false ->
   getFullLine source current = getFullLine_1 source current)
  /\ (source !! current = Some LF -> 0 < current ->
      let '(lineIndex, msg) := getFullLine source current in
      exists pre post,
        source = pre ++ msg ++ LF :: post
        /\ (LF ∉ msg)
        /\ (pre = [] \/ last pre = Some LF)
        /\ length pre + length msg = current
        /\ lineIndex = lines_of pre).
Proof.
  split; [ unfold getFullLine; now intros -> | ].
  intros Hc Hpos. pose proof Hc as Hb. apply is_line_break_at_Some in Hb.
  unfold getFullLine. rewrite Hb.
  destruct current as [ | back]; [ lia | ].
  assert (Hlt : S back < length source) by now apply lookup_lt_Some in Hc.
  destruct (line_from_start source back (line_end source (S back))
              ltac:(lia)) as (Heq & Hle & Hlen & Hpre & Hclear).
  rewrite Heq. rewrite (line_end_break _ _ Hb).
  set (start := if is_line_break_at source (line_start source back)
                then S (line_start source back)
                else line_start source back) in *.
  apply list_elem_of_split_length in Hc as (pre & post & Hsrc & Hn).
  exists (take start source), post.
  split; [ | split; [ | split; [ assumption | split; [ | reflexivity ] ] ] ].
  - rewrite <- (take_drop start source) at 1. f_equal.
    rewrite <- (take_drop (S back - start) (drop start source)) at 1. f_equal.
    rewrite drop_drop. replace (start + (S back - start)) with (S back) by lia.
    rewrite Hsrc, Hn. now rewrite drop_app_length.
  - apply segment_clear. intros i Hi. apply Hclear. lia.
  - rewrite Hlen, length_take, length_drop. lia.
Qed.

Lemma indicator_from_length i n errorPos :
  length (indicator_from i n errorPos) = n.
Proof.
  revert i. induction n as [ | n IH]; intros i; simpl; [ | rewrite IH ];
    reflexivity.
Qed.

Lemma indicator_from_lookup i n errorPos k :
  k < n ->
  indicator_from i n errorPos !! k
  = Some (if (Z.of_nat (i + k) =? errorPos)%Z then "^"%char else "~"%char).
Proof.
  revert i k. induction n as [ | n IH]; intros i k Hk; [ lia | ].
  destruct k as [ | k]; simpl.
  - now rewrite Nat.add_0_r.
  - rewrite IH by lia. now replace (S i + k) with (i + S k) by lia.
Qed.

(** X30: the indicator drawn by [createErrorIndicator$1] is as long as
    the snippet, with a caret at the position of the error and tildes at
    all others; for a position outside the snippet it has no caret. *)
Theorem indicator_marks_position (snippet : list ascii) (errorPos : Z) :
  let indicator := createErrorIndicator_1 snippet errorPos in
  length indicator = length snippet
  /\ (forall i, i < length snippet ->
        indicator !! i
        = Some (if (Z.of_nat i =? errorPos)%Z then "^"%char else "~"%char))
  /\ ((errorPos < 0 \/ Z.of_nat (length snippet) <= errorPos)%Z ->
      indicator = replicate (length snippet) "~"%char).
Proof.
  unfold createErrorIndicator_1. cbv zeta.
  split; [ apply indicator_from_length | ].
  split; [ intros i Hi; now rewrite indicator_from_lookup | ].
  intros Hout. apply list_eq. intros i.
  destruct (decide (i < length snippet)) as [Hi | Hi].
  - rewrite indicator_from_lookup by assumption.
    rewrite lookup_replicate_2 by assumption. simpl.
    destruct (Z.eqb_spec (Z.of_nat i) errorPos); [ lia | reflexivity ].
  - rewrite !lookup_ge_None_2;
      [ reflexivity | rewrite length_replicate
                    | rewrite indicator_from_length ]; lia.
Qed.

End ErrorLines.
